(** * Job board: classification, listing, application intake and client state

    A shallow embedding of the job-board routes and client controller:

    - [JS]        the fragment of JavaScript values and string operations the
                  code relies on (truthiness, [||], property access, coercion
                  to string, [toLowerCase], [trim], [includes], [split],
                  regular-expression tests);
    - [JobsRoute] [app/api/route.ts]: the classifier, the transformer and the
                  [GET] handler that lists jobs;
    - [ApplyRoute] [app/api/apply/route.ts]: the validator, the in-memory
                  store and the [POST] handler;
    - [Client]    [lib/api.ts] and [context/JobContext.tsx]: [fetchJobs],
                  [loadJobs] and the debounced effect.

    Strings are sequences of code units below 256 (Latin-1); JSON numbers are
    the integer numerals.  What the code obtains from the runtime (the
    clock, the random source, URL parsing, the network) is a parameter. *)

From Stdlib Require Import ZArith List String Ascii Bool Lia DecimalString.
Import ListNotations.
Open Scope string_scope.
Set Warnings "-register-all".

(* ===================================================================== *)
(** ** The JavaScript fragment *)
(* ===================================================================== *)

Module JS.

(** Values as [JSON.parse] produces them, plus [undefined], which property
    access yields for an absent key.  An object is the list of its own
    properties. *)
Inductive value : Type :=
| VUndef
| VNull
| VBool (b : bool)
| VNum (n : Z)
| VStr (s : string)
| VArr (items : list value)
| VObj (props : list (string * value)).

(** What a [catch] can receive: the native errors, an [Error] built by the
    code with its message, or a thrown value that is not an [Error]. *)
Inductive exn : Type :=
| TypeError
| RangeError
| SyntaxError
| Error (message : string)
| Thrown (v : value).

(** A computation either returns or throws. *)
Inductive result (A : Type) : Type :=
| Ok (a : A)
| Throw (e : exn).
Arguments Ok {A} a.
Arguments Throw {A} e.

Definition bind {A B} (m : result A) (k : A -> result B) : result B :=
  match m with
  | Ok a => k a
  | Throw e => Throw e
  end.

Notation "x <- m ;; k" := (bind m (fun x => k))
  (at level 61, m at next level, right associativity).

(** [xs.map(f)] where [f] may throw: the first exception aborts the loop. *)
Fixpoint mapM {A B} (f : A -> result B) (xs : list A) : result (list B) :=
  match xs with
  | [] => Ok []
  | x :: rest =>
      y <- f x ;;
      ys <- mapM f rest ;;
      Ok (y :: ys)
  end.

(** [xs.filter(p)] where [p] may throw. *)
Fixpoint filterM {A} (p : A -> result bool) (xs : list A) : result (list A) :=
  match xs with
  | [] => Ok []
  | x :: rest =>
      b <- p x ;;
      ys <- filterM p rest ;;
      Ok (if b then x :: ys else ys)
  end.

(** *** Truthiness, [||] and property access *)

Definition truthy (v : value) : bool :=
  match v with
  | VUndef | VNull => false
  | VBool b => b
  | VNum n => negb (n =? 0)%Z
  | VStr s => negb (s =? "")
  | VArr _ | VObj _ => true
  end.

(** [a || b] *)
Definition or_else (a b : value) : value := if truthy a then a else b.

Fixpoint lookup (k : string) (props : list (string * value)) : value :=
  match props with
  | [] => VUndef
  | (k', v) :: rest => if k' =? k then v else lookup k rest
  end.

(** [v.k] for the property names the routes read.  None of them is defined
    on the prototypes of primitives or arrays, so only objects answer;
    reading a property of [null] or [undefined] throws. *)
Definition get (v : value) (k : string) : result value :=
  match v with
  | VUndef | VNull => Throw TypeError
  | VObj props => Ok (lookup k props)
  | _ => Ok VUndef
  end.

Definition is_string (v : value) : bool :=
  match v with VStr _ => true | _ => false end.

Definition is_number (v : value) : bool :=
  match v with VNum _ => true | _ => false end.

Definition is_undefined (v : value) : bool :=
  match v with VUndef => true | _ => false end.

(** *** Characters and strings *)

Definition code (c : ascii) : nat := nat_of_ascii c.

(** White space of [trim] and of [\s], among the code units below 256. *)
Definition is_space (c : ascii) : bool :=
  let n := code c in
  (((9 <=? n) && (n <=? 13)) || (n =? 32) || (n =? 160))%nat.

Definition is_digit (c : ascii) : bool :=
  let n := code c in ((48 <=? n) && (n <=? 57))%nat.

Definition is_lower (c : ascii) : bool :=
  let n := code c in ((97 <=? n) && (n <=? 122))%nat.

Definition is_upper (c : ascii) : bool :=
  let n := code c in ((65 <=? n) && (n <=? 90))%nat.

Definition is_alnum (c : ascii) : bool := is_digit c || is_lower c || is_upper c.

(** Lower-casing of one code unit: A-Z, and the Latin-1 capitals other than
    the multiplication sign. *)
Definition lower_char (c : ascii) : ascii :=
  let n := code c in
  if (((65 <=? n) && (n <=? 90)) || ((192 <=? n) && (n <=? 222) && negb (n =? 215)))%nat
  then ascii_of_nat (n + 32)
  else c.

Fixpoint toLowerCase (s : string) : string :=
  match s with
  | "" => ""
  | String c rest => String (lower_char c) (toLowerCase rest)
  end.

Fixpoint trimStart (s : string) : string :=
  match s with
  | "" => ""
  | String c rest => if is_space c then trimStart rest else s
  end.

Fixpoint trimEnd (s : string) : string :=
  match s with
  | "" => ""
  | String c rest =>
      let rest' := trimEnd rest in
      if is_space c && (rest' =? "") then "" else String c rest'
  end.

Definition trim (s : string) : string := trimEnd (trimStart s).

(** [s.includes(sub)] *)
Fixpoint includes (s sub : string) : bool :=
  prefix sub s ||
  match s with
  | "" => false
  | String _ rest => includes rest sub
  end.

(** [s.split(/[sep]+/)]: the pieces between maximal runs of separator
    characters.  [after_sep] records that the previous character was a
    separator, so that a run yields one cut. *)
Fixpoint split_go (sep : ascii -> bool) (s : string) (after_sep : bool) : list string :=
  match s with
  | "" => [""]
  | String c rest =>
      if sep c then
        if after_sep then split_go sep rest true
        else "" :: split_go sep rest true
      else
        match split_go sep rest false with
        | piece :: pieces => String c piece :: pieces
        | [] => [String c ""]
        end
  end.

Definition split_runs (sep : ascii -> bool) (s : string) : list string :=
  split_go sep s false.

(** [s.replace(/\D/g, '')] and its like: keep the characters satisfying [p]. *)
Fixpoint keep_chars (p : ascii -> bool) (s : string) : string :=
  match s with
  | "" => ""
  | String c rest => if p c then String c (keep_chars p rest) else keep_chars p rest
  end.

Fixpoint all_chars (p : ascii -> bool) (s : string) : bool :=
  match s with
  | "" => true
  | String c rest => p c && all_chars p rest
  end.

(** [xs.join(sep)] on strings. *)
Fixpoint join (sep : string) (xs : list string) : string :=
  match xs with
  | [] => ""
  | [x] => x
  | x :: rest => x ++ sep ++ join sep rest
  end.

(** Decimal numeral of an integer. *)
Definition Z_to_string (n : Z) : string := NilZero.string_of_int (Z.to_int n).

(** *** Numbers as strings

    A JSON numeral is read as the nearest double, ties to even; integers
    below 2^53 are read exactly.  [Number::toString] prints the shortest
    decimal that reads back as the same double, in positional notation
    below 10^21 and in exponent notation from there on. *)

(** The double nearest to an integer [a >= 2^53], as significand (in
    [2^52, 2^53)) and binary exponent; [None] when it is out of range and
    read as [Infinity]. *)
Definition nearest_double (a : Z) : option (Z * Z) :=
  let e := (Z.log2 a - 52)%Z in
  let q := (a / 2 ^ e)%Z in
  let r := (a mod 2 ^ e)%Z in
  let half := (2 ^ (e - 1))%Z in
  let up := (half <? r)%Z || ((r =? half)%Z && Z.odd q) in
  let '(f, e) :=
    if up
    then (if (q + 1 =? 2 ^ 53)%Z then (2 ^ 52, e + 1) else (q + 1, e))%Z
    else (q, e) in
  if (971 <? e)%Z then None else Some (f, e).

(** The decimals [s * 10^p], [s] of [k] digits, that read back as the
    double [f * 2^e]: those between the midpoints to its neighbours, the
    midpoints included when [f] is even. *)
Definition reads_back (f e c : Z) : bool :=
  let m := (f * 2 ^ e)%Z in
  let lo2 := (2 * m - (if (f =? 2 ^ 52)%Z then 2 ^ (e - 1) else 2 ^ e))%Z in
  let hi2 := (2 * m + 2 ^ e)%Z in
  if Z.even f
  then ((lo2 <=? 2 * c) && (2 * c <=? hi2))%Z
  else ((lo2 <? 2 * c) && (2 * c <? hi2))%Z.

(** The better of two candidates [(s, p)]: the closer to [m], and on a tie
    the one whose [s] is even. *)
Definition closer (m : Z) (x y : Z * Z) : Z * Z :=
  let dx := Z.abs (fst x * 10 ^ snd x - m) in
  let dy := Z.abs (fst y * 10 ^ snd y - m) in
  if (dx <? dy)%Z then x
  else if (dy <? dx)%Z then y
  else if Z.even (fst x) then x else y.

(** The candidates with [k] digits, [d] being the number of digits of
    [m]. *)
Definition candidates (f e d k : Z) : list (Z * Z) :=
  let m := (f * 2 ^ e)%Z in
  let p := (d - k)%Z in
  if (p <? 0)%Z then []
  else
    let s := (m / 10 ^ p)%Z in
    filter (fun c => (fst c <? 10 ^ k)%Z && reads_back f e (fst c * 10 ^ snd c))
      [(s, p); ((s + 1)%Z, p)]
    ++ (if (k =? 1)%Z && reads_back f e (10 ^ d) then [(1%Z, d)] else []).

(** The shortest digits [s] and the power of ten [p] with
    [s * 10^p] reading back as [f * 2^e]. *)
Fixpoint shortest (f e d : Z) (ks : list Z) : Z * Z :=
  match ks with
  | [] => ((f * 2 ^ e)%Z, 0%Z)
  | k :: rest =>
      match candidates f e d k with
      | [] => shortest f e d rest
      | c :: cs => fold_left (closer (f * 2 ^ e)) cs c
      end
  end.

Definition digit_counts : list Z :=
  [1; 2; 3; 4; 5; 6; 7; 8; 9; 10; 11; 12; 13; 14; 15; 16; 17]%Z.

Fixpoint zeros (n : nat) : string :=
  match n with
  | O => ""
  | S n' => String "0" (zeros n')
  end.

(** [Number::toString] on a non-negative integer numeral. *)
Definition unsigned_to_string (a : Z) : string :=
  if (a <? 2 ^ 53)%Z then Z_to_string a
  else
    match nearest_double a with
    | None => "Infinity"
    | Some (f, e) =>
        let d := Z.of_nat (length (Z_to_string (f * 2 ^ e))) in
        let '(s, p) := shortest f e d digit_counts in
        let digits := Z_to_string s in
        let n := (Z.of_nat (length digits) + p)%Z in
        if (n <=? 21)%Z then digits ++ zeros (Z.to_nat p)
        else
          match digits with
          | String c "" => String c ("e+" ++ Z_to_string (n - 1))
          | String c rest => String c ("." ++ rest ++ "e+" ++ Z_to_string (n - 1))
          | "" => ""
          end
    end.

(** [String(n)] for the number a JSON numeral is read as. *)
Definition Number_toString (n : Z) : string :=
  if (n <? 0)%Z then "-" ++ unsigned_to_string (- n) else unsigned_to_string n.

(** An object has an own property of that name. *)
Definition has_own (k : string) (props : list (string * value)) : bool :=
  existsb (fun kv => fst kv =? k) props.

(** [String(v)]: the coercion [RegExp.prototype.test], [join], template
    literals and [new Error] apply.  An array prints its elements joined
    by commas, [null] and [undefined] as the empty string.  An object
    prints through [Object.prototype.toString] unless it has an own
    [toString] property, which, coming from JSON, is not callable: the
    coercion then throws a [TypeError]. *)
Fixpoint ToString (v : value) : result string :=
  match v with
  | VUndef => Ok "undefined"
  | VNull => Ok "null"
  | VBool true => Ok "true"
  | VBool false => Ok "false"
  | VNum n => Ok (Number_toString n)
  | VStr s => Ok s
  | VArr items =>
      strs <- (fix elements (xs : list value) : result (list string) :=
                 match xs with
                 | [] => Ok []
                 | x :: rest =>
                     s <- match x with
                          | VUndef | VNull => Ok ""
                          | _ => ToString x
                          end ;;
                     ss <- elements rest ;;
                     Ok (s :: ss)
                 end) items ;;
      Ok (join "," strs)
  | VObj props =>
      if has_own "toString" props then Throw TypeError
      else Ok "[object Object]"
  end.

(** An element of an array under [join]: [null] and [undefined] print as
    the empty string. *)
Definition join_item (v : value) : result string :=
  match v with
  | VUndef | VNull => Ok ""
  | _ => ToString v
  end.

(** *** Regular expressions

    The anchored patterns of the validator, matched by derivatives. *)
Inductive regex : Type :=
| Void
| Eps
| Class (p : ascii -> bool)
| Seq (r1 r2 : regex)
| Alt (r1 r2 : regex)
| Star (r : regex).

(** [r+] *)
Definition Plus (r : regex) : regex := Seq r (Star r).

Fixpoint nullable (r : regex) : bool :=
  match r with
  | Void => false
  | Eps => true
  | Class _ => false
  | Seq r1 r2 => nullable r1 && nullable r2
  | Alt r1 r2 => nullable r1 || nullable r2
  | Star _ => true
  end.

Fixpoint deriv (c : ascii) (r : regex) : regex :=
  match r with
  | Void => Void
  | Eps => Void
  | Class p => if p c then Eps else Void
  | Seq r1 r2 =>
      if nullable r1
      then Alt (Seq (deriv c r1) r2) (deriv c r2)
      else Seq (deriv c r1) r2
  | Alt r1 r2 => Alt (deriv c r1) (deriv c r2)
  | Star r1 => Seq (deriv c r1) (Star r1)
  end.

(** The strings a pattern denotes. *)
Inductive lang : regex -> string -> Prop :=
| lang_Eps : lang Eps ""
| lang_Class (p : ascii -> bool) (c : ascii) :
    p c = true -> lang (Class p) (String c "")
| lang_Seq (r1 r2 : regex) (s1 s2 : string) :
    lang r1 s1 -> lang r2 s2 -> lang (Seq r1 r2) (s1 ++ s2)
| lang_Alt_l (r1 r2 : regex) (s : string) :
    lang r1 s -> lang (Alt r1 r2) s
| lang_Alt_r (r1 r2 : regex) (s : string) :
    lang r2 s -> lang (Alt r1 r2) s
| lang_Star_nil (r : regex) : lang (Star r) ""
| lang_Star_cons (r : regex) (s1 s2 : string) :
    lang r s1 -> lang (Star r) s2 -> lang (Star r) (s1 ++ s2).

(** [/^r$/.test(s)] on a string. *)
Fixpoint matches (r : regex) (s : string) : bool :=
  match s with
  | "" => nullable r
  | String c rest => matches (deriv c r) rest
  end.

(** [/^r$/.test(v)]: the argument is coerced to a string first. *)
Definition test (r : regex) (v : value) : result bool :=
  s <- ToString v ;;
  Ok (matches r s).

End JS.

(* ===================================================================== *)
(** ** The listing route: classifier, transformer, [GET] *)
(* ===================================================================== *)

Module JobsRoute.
Import JS.

Record Salary : Type := {
  min : value;
  max : value;
  currency : string
}.

(** The [Job] object the transformer builds.  Fields copied from the
    upstream record keep whatever value upstream sent. *)
Record Job : Type := {
  id : value;
  title : value;
  company : value;
  location : value;
  category : string;
  experienceLevel : string;
  type : string;
  salary : option Salary;
  description : value;
  requirements : list string;
  responsibilities : list string;
  postedDate : string;
  remote : bool
}.

(** [text.includes(k1) || text.includes(k2) || ...] *)
Definition includes_any (text : string) (keywords : list string) : bool :=
  existsb (includes text) keywords.

(** The keyword cascade of [determineCategory] on the lower-cased text. *)
Definition categoryOf (searchText : string) : string :=
  if includes_any searchText
       ["dev"; "engineer"; "programmer"; "frontend"; "backend"; "fullstack"; "full stack"]
  then "Software Development"
  else if includes_any searchText ["data"; "analyst"; "scientist"; "ml"; "machine learning"]
  then "Data Science"
  else if includes_any searchText ["design"; "ux"; "ui"; "graphic"]
  then "Design"
  else if includes_any searchText ["market"; "seo"; "growth"]
  then "Marketing"
  else if includes_any searchText ["product"; "pm"]
  then "Product Management"
  else if includes_any searchText ["sales"; "business development"]
  then "Sales"
  else if includes_any searchText ["support"; "customer"; "success"]
  then "Customer Support"
  else if includes_any searchText ["hr"; "human"; "recruiter"; "talent"]
  then "Human Resources"
  else if includes_any searchText ["finance"; "accounting"; "accountant"]
  then "Finance"
  else if includes_any searchText ["devops"; "sre"; "infrastructure"]
  then "DevOps"
  else if includes_any searchText ["qa"; "test"; "quality"]
  then "Quality Assurance"
  else if includes_any searchText ["security"; "cyber"]
  then "Security"
  else "Software Development".

(** [determineCategory(tagsOrTitle)]: an array is joined with spaces, a
    string is taken as it is; anything else has no [toLowerCase]. *)
Definition determineCategory (tagsOrTitle : value) : result string :=
  searchText <-
    match tagsOrTitle with
    | VArr items =>
        strs <- mapM join_item items ;;
        Ok (toLowerCase (join " " strs))
    | VStr s => Ok (toLowerCase s)
    | _ => Throw TypeError
    end ;;
  Ok (categoryOf searchText).

Definition senior_indicators : list string := ["senior"; "sr."; "principal"].
Definition lead_indicators : list string := ["lead"; "staff"; "chief"].
Definition entry_indicators : list string := ["junior"; "jr."; "entry"; "intern"].

(** The cascade of [determineExperienceLevel] on the lower-cased title. *)
Definition levelOf (lowerTitle : string) : string :=
  if includes_any lowerTitle senior_indicators then "Senior"
  else if includes_any lowerTitle lead_indicators then "Lead"
  else if includes_any lowerTitle entry_indicators then "Entry-Level"
  else "Mid-Level".

Definition determineExperienceLevel (title : value) : result string :=
  match title with
  | VStr s => Ok (levelOf (toLowerCase s))
  | _ => Throw TypeError
  end.

(** [/[.!?]+/] *)
Definition is_sentence_end (c : ascii) : bool :=
  ((c =? ".") || (c =? "!") || (c =? "?"))%char.

Definition fallback_requirements : list string :=
  ["Experience in relevant field";
   "Strong communication skills";
   "Ability to work in a team environment"].

(** The sentences [extractRequirements] pushes for a non-empty
    description. *)
Definition sentences_of (description : string) : list string :=
  map trim
    (firstn 3
       (filter (fun s => 10 <? length (trim s))%nat
          (split_runs is_sentence_end description))).

Definition extractRequirements (description : value) : result (list string) :=
  requirements <-
    (if truthy description then
       match description with
       | VStr s => Ok (sentences_of s)
       | _ => Throw TypeError
       end
     else Ok []) ;;
  Ok (if (List.length requirements =? 0)%nat
      then fallback_requirements
      else requirements).

Section Runtime.

(** [Date.now()], in milliseconds. *)
Variable Date_now : Z.
(** [new Date().toISOString()]. *)
Variable now_iso : string.
(** [new Date(d * 1000).toISOString()], which throws a [RangeError] on an
    invalid time. *)
Variable toISOString : value -> result string.

Definition transformRemoteOKJob (remoteJob : value) : result Job :=
  r_id <- get remoteJob "id" ;;
  r_slug <- get remoteJob "slug" ;;
  r_position <- get remoteJob "position" ;;
  r_company <- get remoteJob "company" ;;
  r_location <- get remoteJob "location" ;;
  r_tags <- get remoteJob "tags" ;;
  r_salary_min <- get remoteJob "salary_min" ;;
  r_salary_max <- get remoteJob "salary_max" ;;
  r_description <- get remoteJob "description" ;;
  r_date <- get remoteJob "date" ;;
  j_category <- determineCategory (or_else r_tags (VArr [])) ;;
  j_level <- determineExperienceLevel (or_else r_position (VStr "")) ;;
  j_requirements <- extractRequirements (or_else r_description (VStr "")) ;;
  j_posted <- (if truthy r_date then toISOString r_date else Ok now_iso) ;;
  Ok {| id := or_else r_id (or_else r_slug (VStr ("job-" ++ Z_to_string Date_now)));
        title := or_else r_position (VStr "Untitled Position");
        company := or_else r_company (VStr "Company Confidential");
        location := or_else r_location (VStr "Remote");
        category := j_category;
        experienceLevel := j_level;
        type := "Full-time";
        salary := if truthy r_salary_min && truthy r_salary_max
                  then Some {| min := r_salary_min;
                               max := r_salary_max;
                               currency := "USD" |}
                  else None;
        description := or_else r_description (VStr "No description available");
        requirements := j_requirements;
        responsibilities := [];
        postedDate := j_posted;
        remote := true |}.

(** The query string of the request: [searchParams.get(k)] is [None] for an
    absent key. *)
Record searchParams : Type := {
  p_q : option string;
  p_query : option string;
  p_experience : option string;
  p_experienceLevel : option string;
  p_category : option string;
  p_jobType : option string;
  p_remote : option string
}.

(** Truthiness of a [string | null]. *)
Definition present (o : option string) : bool :=
  match o with
  | Some s => negb (s =? "")
  | None => false
  end.

(** [searchParams.get('q') || searchParams.get('query') || ''] *)
Definition query_of (sp : searchParams) : string :=
  if present (p_q sp) then match p_q sp with Some s => s | None => "" end
  else if present (p_query sp) then match p_query sp with Some s => s | None => "" end
  else "".

(** [searchParams.get('experience') || searchParams.get('experienceLevel')] *)
Definition experienceLevel_of (sp : searchParams) : option string :=
  if present (p_experience sp) then p_experience sp else p_experienceLevel sp.

(** [p && p !== sentinel && p !== ''] *)
Definition active (o : option string) (sentinel : string) : bool :=
  match o with
  | Some s => negb (s =? "") && negb (s =? sentinel) && negb (s =? "")
  | None => false
  end.

(** [x.toLowerCase()] on a field of unknown type. *)
Definition lower_of (v : value) : result string :=
  match v with
  | VStr s => Ok (toLowerCase s)
  | _ => Throw TypeError
  end.

(** The predicate of the query filter; [||] stops at the first hit. *)
Definition matches_query (searchQuery : string) (job : Job) : result bool :=
  t <- lower_of (title job) ;;
  if includes t searchQuery then Ok true else
  c <- lower_of (company job) ;;
  if includes c searchQuery then Ok true else
  d <- lower_of (description job) ;;
  if includes d searchQuery then Ok true else
  Ok (includes (toLowerCase (category job)) searchQuery).

(** [job && job.id] *)
Definition has_id (job : value) : bool :=
  truthy job &&
  match get job "id" with
  | Ok v => truthy v
  | Throw _ => false
  end.

(** The body of [GET] from the parsed upstream answer to the filtered
    list. *)
Definition listJobs (sp : searchParams) (upstream : value) : result (list Job) :=
  let query := query_of sp in
  let jobData := match upstream with
                 | VArr items => tl items
                 | _ => []
                 end in
  jobs <- mapM transformRemoteOKJob (filter has_id jobData) ;;
  jobs <- (if negb (query =? "") && negb (trim query =? "")
           then filterM (matches_query (toLowerCase query)) jobs
           else Ok jobs) ;;
  let jobs :=
    match experienceLevel_of sp with
    | Some e => if active (Some e) "All Levels"
                then filter (fun job => experienceLevel job =? e) jobs
                else jobs
    | None => jobs
    end in
  let jobs :=
    match p_category sp with
    | Some c => if active (Some c) "All Categories"
                then filter (fun job => category job =? c) jobs
                else jobs
    | None => jobs
    end in
  let jobs :=
    match p_jobType sp with
    | Some t => if active (Some t) "All Types"
                then filter (fun job => type job =? t) jobs
                else jobs
    | None => jobs
    end in
  Ok jobs.

(** What [fetch('https://remoteok.com/api')] and [response.json()] gave. *)
Inductive fetched : Type :=
| Unreachable (e : exn)
| Answer (ok : bool) (status : Z) (statusText : string) (json : result value).

(** The JSON the route answers with: the listing with status 200, or
    status 500 with an empty [data] and the message of the exception. *)
Inductive response : Type :=
| Listing (data : list Job) (totalResults : nat)
| Failure (e : exn).

Definition data_of (r : response) : list Job :=
  match r with
  | Listing data _ => data
  | Failure _ => []
  end.

Definition GET (sp : searchParams) (f : fetched) : response :=
  let outcome :=
    match f with
    | Unreachable e => Throw e
    | Answer ok status statusText json =>
        if negb ok
        then Throw (Error ("RemoteOK API error: " ++ Z_to_string status
                           ++ " " ++ statusText))
        else
          upstream <- json ;;
          listJobs sp upstream
    end in
  match outcome with
  | Ok jobs => Listing jobs (List.length jobs)
  | Throw e => Failure e
  end.

End Runtime.

End JobsRoute.

(* ===================================================================== *)
(** ** The application route: validator, store, [POST] *)
(* ===================================================================== *)

Module ApplyRoute.
Import JS.

(** [JobApplication & { id; submittedAt }], an element of the in-memory
    [applications] array. *)
Record application : Type := {
  id : string;
  jobId : value;
  applicantName : string;
  email : string;
  phone : string;
  coverLetter : string;
  linkedIn : option string;
  portfolio : option string;
  yearsOfExperience : value;
  submittedAt : string
}.

(** [[^\s@]] *)
Definition not_space_at (c : ascii) : bool :=
  negb (is_space c || (c =? "@")%char).

(** [/^[^\s@]+@[^\s@]+\.[^\s@]+$/] *)
Definition emailRegex : regex :=
  Seq (Plus (Class not_space_at))
    (Seq (Class (fun c => (c =? "@")%char))
       (Seq (Plus (Class not_space_at))
          (Seq (Class (fun c => (c =? ".")%char))
             (Plus (Class not_space_at))))).

(** [[\d\s\-\+\(\)]] *)
Definition phone_char (c : ascii) : bool :=
  (is_digit c || is_space c
   || (c =? "-") || (c =? "+") || (c =? "(") || (c =? ")"))%char.

(** [/^[\d\s\-\+\(\)]+$/] *)
Definition phoneRegex : regex := Plus (Class phone_char).

Definition isValidEmail (email : value) : result bool := test emailRegex email.

(** [phoneRegex.test(phone) && phone.replace(/\D/g, '').length >= 10]:
    [test] coerces its argument, [replace] exists on strings only. *)
Definition isValidPhone (phone : value) : result bool :=
  passes <- test phoneRegex phone ;;
  if passes then
    match phone with
    | VStr s => Ok (10 <=? length (keep_chars is_digit s))%nat
    | _ => Throw TypeError
    end
  else Ok false.

(** The string behind a value already known to be one. *)
Definition str_of (v : value) : string :=
  match v with
  | VStr s => s
  | _ => ""
  end.

Record validation : Type := {
  valid : bool;
  errors : list string
}.

(** [errors.push(msg)] under a condition. *)
Definition push_if (cond : bool) (msg : string) (errors : list string) : list string :=
  if cond then (errors ++ [msg])%list else errors.

Section Runtime.

(** [new URL(s)] returns rather than throws. *)
Variable URL_parses : string -> bool.
(** [Date.now()], in milliseconds. *)
Variable Date_now : Z.
(** [Math.random().toString(36)]. *)
Variable random36 : string.
(** [new Date().toISOString()]. *)
Variable now_iso : string.
(** The message the engine gives a native error. *)
Variable native_message : exn -> string.

Definition validateApplication (data : value) : result validation :=
  d_jobId <- get data "jobId" ;;
  d_applicantName <- get data "applicantName" ;;
  d_email <- get data "email" ;;
  d_phone <- get data "phone" ;;
  d_coverLetter <- get data "coverLetter" ;;
  d_years <- get data "yearsOfExperience" ;;
  d_linkedIn <- get data "linkedIn" ;;
  d_portfolio <- get data "portfolio" ;;
  let errors := [] in
  let errors :=
    push_if (negb (truthy d_jobId) || negb (is_string d_jobId))
      "Job ID is required" errors in
  let errors :=
    push_if (negb (truthy d_applicantName) || negb (is_string d_applicantName)
             || (length (trim (str_of d_applicantName)) <? 2)%nat)
      "Applicant name must be at least 2 characters" errors in
  email_bad <-
    (if negb (truthy d_email) then Ok true
     else ok <- isValidEmail d_email ;; Ok (negb ok)) ;;
  let errors :=
    push_if email_bad
      "Valid email address is required" errors in
  phone_bad <-
    (if negb (truthy d_phone) then Ok true
     else ok <- isValidPhone d_phone ;; Ok (negb ok)) ;;
  let errors :=
    push_if phone_bad
      "Valid phone number is required (minimum 10 digits)" errors in
  let errors :=
    push_if (negb (truthy d_coverLetter) || negb (is_string d_coverLetter)
             || (length (trim (str_of d_coverLetter)) <? 50)%nat)
      "Cover letter must be at least 50 characters" errors in
  let errors :=
    push_if (negb (is_undefined d_years)
             && (negb (is_number d_years)
                 || match d_years with
                    | VNum n => (n <? 0)%Z
                    | _ => false
                    end))
      "Years of experience must be a non-negative number" errors in
  let errors :=
    if truthy d_linkedIn && is_string d_linkedIn
       && negb (trim (str_of d_linkedIn) =? "")
    then push_if (negb (includes (str_of d_linkedIn) "linkedin.com"))
           "LinkedIn URL must be a valid LinkedIn profile URL" errors
    else errors in
  let errors :=
    if truthy d_portfolio && is_string d_portfolio
       && negb (trim (str_of d_portfolio) =? "")
    then push_if (negb (URL_parses (str_of d_portfolio)))
           "Portfolio must be a valid URL" errors
    else errors in
  Ok {| valid := (List.length errors =? 0)%nat; errors := errors |}.

(** [v.trim()] on a field of unknown type. *)
Definition trim_of (v : value) : result string :=
  match v with
  | VStr s => Ok (trim s)
  | _ => Throw TypeError
  end.

(** [v?.trim() || undefined] *)
Definition optional_trim (v : value) : result (option string) :=
  match v with
  | VUndef | VNull => Ok None
  | _ =>
      t <- trim_of v ;;
      Ok (if t =? "" then None else Some t)
  end.

(** The answers of [POST]. *)
Inductive reply : Type :=
| Created (applicationId submittedAt : string) (r_jobId : value)
| ValidationFailed (r_errors : list string)
| InvalidJSON
| ServerError (e : exn).

Definition status_of (r : reply) : Z :=
  match r with
  | Created _ _ _ => 201
  | ValidationFailed _ => 400
  | InvalidJSON => 400
  | ServerError _ => 500
  end.

Definition success_of (r : reply) : bool :=
  match r with
  | Created _ _ _ => true
  | _ => false
  end.

Definition message_of (r : reply) : string :=
  match r with
  | Created _ _ _ => "Application submitted successfully"
  | ValidationFailed _ => "Validation failed"
  | InvalidJSON => "Invalid JSON data"
  | ServerError (Error m) => m
  | ServerError (Thrown _) => "Failed to submit application"
  | ServerError e => native_message e
  end.

Definition errors_of (r : reply) : option (list string) :=
  match r with
  | ValidationFailed es => Some es
  | _ => None
  end.

(** [POST(request)]: [body] is the outcome of [request.json()],
    [applications] the store before the call; the store after the call is
    returned with the answer. *)
Definition POST (applications : list application) (body : result value)
  : reply * list application :=
  let run :=
    body <- body ;;
    validation <- validateApplication body ;;
    if negb (valid validation)
    then Ok (ValidationFailed (errors validation), applications)
    else
      b_jobId <- get body "jobId" ;;
      b_applicantName <- get body "applicantName" ;;
      b_email <- get body "email" ;;
      b_phone <- get body "phone" ;;
      b_coverLetter <- get body "coverLetter" ;;
      b_linkedIn <- get body "linkedIn" ;;
      b_portfolio <- get body "portfolio" ;;
      b_years <- get body "yearsOfExperience" ;;
      a_applicantName <- trim_of b_applicantName ;;
      a_email <- trim_of b_email ;;
      a_phone <- trim_of b_phone ;;
      a_coverLetter <- trim_of b_coverLetter ;;
      a_linkedIn <- optional_trim b_linkedIn ;;
      a_portfolio <- optional_trim b_portfolio ;;
      let application :=
        {| id := "app-" ++ Z_to_string Date_now ++ "-" ++ substring 2 9 random36;
           jobId := b_jobId;
           applicantName := a_applicantName;
           email := toLowerCase a_email;
           phone := a_phone;
           coverLetter := a_coverLetter;
           linkedIn := a_linkedIn;
           portfolio := a_portfolio;
           yearsOfExperience := or_else b_years (VNum 0);
           submittedAt := now_iso |} in
      Ok (Created (id application) (submittedAt application) (jobId application),
          (applications ++ [application])%list)
  in
  match run with
  | Ok answer => answer
  | Throw SyntaxError => (InvalidJSON, applications)
  | Throw e => (ServerError e, applications)
  end.

End Runtime.

End ApplyRoute.

(* ===================================================================== *)
(** ** The client: [fetchJobs], [loadJobs], the debounced effect *)
(* ===================================================================== *)

Module Client.
Import JS.
Import JobsRoute.

(** [FilterState] *)
Record FilterState : Type := {
  f_category : string;
  f_location : string;
  f_experienceLevel : string;
  f_jobType : string;
  f_searchQuery : string;
  f_remoteOnly : bool
}.

(** The optional [filters] argument of [fetchJobs]. *)
Record apiFilters : Type := {
  a_experienceLevel : option string;
  a_category : option string;
  a_jobType : option string;
  a_remoteOnly : option bool
}.

(** What [fetch('/api?...')] and [response.json()] gave: the call threw, or
    a response arrived whose body, read as [ApiResponse<Job[]>], has the
    [data] field given ([None] when it is missing or [null]). *)
Inductive api_result : Type :=
| Rejected (e : exn)
| Responded (ok : bool) (status : Z) (json : result (option (list Job))).

(** The listing route seen through HTTP: a [Failure] is a 500 response. *)
Definition over_http (r : response) : api_result :=
  match r with
  | Listing data _ => Responded true 200 (Ok (Some data))
  | Failure _ => Responded false 500 (Ok (Some []))
  end.

(** [filters?.k && filters.k !== '' && filters.k !== sentinel], then
    [params.append]. *)
Definition appended (o : option string) (sentinel : string) : option string :=
  match o with
  | Some s => if negb (s =? "") && negb (s =? sentinel) then Some s else None
  | None => None
  end.

(** The query string [fetchJobs] builds. *)
Definition params_of (query : string) (filters : option apiFilters) : searchParams :=
  {| p_q := Some query;
     p_query := None;
     p_experience := None;
     p_experienceLevel :=
       match filters with
       | Some f => appended (a_experienceLevel f) "All Levels"
       | None => None
       end;
     p_category :=
       match filters with
       | Some f => appended (a_category f) "All Categories"
       | None => None
       end;
     p_jobType :=
       match filters with
       | Some f => appended (a_jobType f) "All Types"
       | None => None
       end;
     p_remote :=
       match filters with
       | Some f => match a_remoteOnly f with
                   | Some true => Some "true"
                   | _ => None
                   end
       | None => None
       end |}.

(** The state [JobProvider] holds. *)
Record state : Type := {
  jobs : list Job;
  filteredJobs : list Job;
  filters : FilterState;
  loading : bool;
  error : option string
}.

(** The well-typed calls [updateFilter(filterName, value)]. *)
Inductive update : Type :=
| SetCategory (s : string)
| SetLocation (s : string)
| SetExperienceLevel (s : string)
| SetJobType (s : string)
| SetSearchQuery (s : string)
| SetRemoteOnly (b : bool).

(** [{ ...prev, [filterName]: value }] *)
Definition apply_update (u : update) (prev : FilterState) : FilterState :=
  match u with
  | SetCategory s =>
      {| f_category := s; f_location := f_location prev;
         f_experienceLevel := f_experienceLevel prev; f_jobType := f_jobType prev;
         f_searchQuery := f_searchQuery prev; f_remoteOnly := f_remoteOnly prev |}
  | SetLocation s =>
      {| f_category := f_category prev; f_location := s;
         f_experienceLevel := f_experienceLevel prev; f_jobType := f_jobType prev;
         f_searchQuery := f_searchQuery prev; f_remoteOnly := f_remoteOnly prev |}
  | SetExperienceLevel s =>
      {| f_category := f_category prev; f_location := f_location prev;
         f_experienceLevel := s; f_jobType := f_jobType prev;
         f_searchQuery := f_searchQuery prev; f_remoteOnly := f_remoteOnly prev |}
  | SetJobType s =>
      {| f_category := f_category prev; f_location := f_location prev;
         f_experienceLevel := f_experienceLevel prev; f_jobType := s;
         f_searchQuery := f_searchQuery prev; f_remoteOnly := f_remoteOnly prev |}
  | SetSearchQuery s =>
      {| f_category := f_category prev; f_location := f_location prev;
         f_experienceLevel := f_experienceLevel prev; f_jobType := f_jobType prev;
         f_searchQuery := s; f_remoteOnly := f_remoteOnly prev |}
  | SetRemoteOnly b =>
      {| f_category := f_category prev; f_location := f_location prev;
         f_experienceLevel := f_experienceLevel prev; f_jobType := f_jobType prev;
         f_searchQuery := f_searchQuery prev; f_remoteOnly := b |}
  end.

(** [s || fallback] on strings. *)
Definition str_or (s fallback : string) : string :=
  if s =? "" then fallback else s.

Section Api.

(** [MOCK_JOBS] of [@/constants]. *)
Variable MOCK_JOBS : list Job.
(** [ERROR_MESSAGES.FETCH_FAILED] of [@/constants]. *)
Variable FETCH_FAILED : string.
(** The message the engine gives a native error. *)
Variable native_message : exn -> string.

(** [fetchJobs(query, location, filters)]; [network] answers the request
    built from the parameters. *)
Definition fetchJobs (network : searchParams -> api_result)
    (query location : option string) (filters : option apiFilters) : list Job :=
  let query := match query with Some q => q | None => "software developer" end in
  let run :=
    match network (params_of query filters) with
    | Rejected e => Throw e
    | Responded ok status json =>
        if negb ok
        then Throw (Error ("HTTP error! status: " ++ Z_to_string status))
        else
          data <- json ;;
          match data with
          | None => Ok MOCK_JOBS
          | Some jobData =>
              if (List.length jobData =? 0)%nat then Ok MOCK_JOBS else Ok jobData
          end
    end in
  match run with
  | Ok jobData => jobData
  | Throw _ => MOCK_JOBS
  end.

(** [handleApiError(error).message] *)
Definition handleApiError (error : exn) : string :=
  match error with
  | Thrown _ => "An unknown error occurred"
  | Error m => m
  | e => native_message e
  end.

(** [loadJobs] up to its [await]: [setLoading(true); setError(null)]. *)
Definition loadJobs_begin (s : state) : state :=
  {| jobs := jobs s; filteredJobs := filteredJobs s; filters := filters s;
     loading := true; error := None |}.

(** [loadJobs] after its [await], on the outcome of the awaited call. *)
Definition loadJobs_settle (outcome : result (list Job)) (s : state) : state :=
  let s :=
    match outcome with
    | Ok jobData =>
        {| jobs := jobData; filteredJobs := jobData; filters := filters s;
           loading := loading s; error := error s |}
    | Throw err =>
        {| jobs := jobs s; filteredJobs := filteredJobs s; filters := filters s;
           loading := loading s;
           error := Some (str_or (handleApiError err) FETCH_FAILED) |}
    end in
  {| jobs := jobs s; filteredJobs := filteredJobs s; filters := filters s;
     loading := false; error := error s |}.

(** [loadJobs]: the call it awaits is [fetchJobs], which catches whatever
    is thrown and always resolves, so the [try] block of [loadJobs] always
    completes. *)
Definition loadJobs (network : searchParams -> api_result) (s : state) : state :=
  let s := loadJobs_begin s in
  let apiFilters :=
    {| a_experienceLevel := Some (f_experienceLevel (filters s));
       a_category := Some (f_category (filters s));
       a_jobType := Some (f_jobType (filters s));
       a_remoteOnly := Some (f_remoteOnly (filters s)) |} in
  loadJobs_settle
    (Ok (fetchJobs network
           (Some (str_or (f_searchQuery (filters s)) "software developer"))
           (Some (str_or (f_location (filters s)) "remote"))
           (Some apiFilters)))
    s.

End Api.

(** *** The debounced effect

    [useEffect(() => { const t = setTimeout(() => loadJobs(), 300);
    return () => clearTimeout(t) }, [loadJobs])], where [loadJobs] is
    rebuilt whenever [filters] is replaced.  Time is counted in
    milliseconds. *)

(** A pending [setTimeout]: when it is due, and the [filters] its
    [loadJobs] closure has captured. *)
Record timer : Type := {
  due : Z;
  captured : FilterState
}.

Record controller : Type := {
  c_filters : FilterState;
  c_pending : option timer;
  c_now : Z;
  c_started : list FilterState
}.

Definition debounce_ms : Z := 300.

(** The effect of a render that follows a change of [filters]: the cleanup
    of the previous effect clears its timer, then a new one is set. *)
Definition rerun_effect (fs : FilterState) (c : controller) : controller :=
  {| c_filters := fs;
     c_pending := Some {| due := c_now c + debounce_ms; captured := fs |};
     c_now := c_now c;
     c_started := c_started c |}.

(** The first render. *)
Definition mount (fs : FilterState) (now : Z) : controller :=
  rerun_effect fs
    {| c_filters := fs; c_pending := None; c_now := now; c_started := [] |}.

(** [updateFilter(filterName, value)]: [setFilters] installs a fresh
    object, so the effect runs again. *)
Definition updateFilter (u : update) (c : controller) : controller :=
  rerun_effect (apply_update u (c_filters c)) c.

(** [ms] milliseconds pass with no call: a timer that has become due fires
    and starts [loadJobs] on the filters it captured. *)
Definition elapse (ms : Z) (c : controller) : controller :=
  let now := (c_now c + ms)%Z in
  match c_pending c with
  | Some t =>
      if (due t <=? now)%Z
      then {| c_filters := c_filters c; c_pending := None; c_now := now;
              c_started := (c_started c ++ [captured t])%list |}
      else {| c_filters := c_filters c; c_pending := Some t; c_now := now;
              c_started := c_started c |}
  | None =>
      {| c_filters := c_filters c; c_pending := None; c_now := now;
         c_started := c_started c |}
  end.

(** A burst of calls, each followed by a pause in milliseconds. *)
Fixpoint burst (calls : list (update * Z)) (c : controller) : controller :=
  match calls with
  | [] => c
  | (u, pause) :: rest => burst rest (elapse pause (updateFilter u c))
  end.

(** The filters once the calls of a burst have been applied in order. *)
Definition filters_after (calls : list (update * Z)) (fs : FilterState) : FilterState :=
  fold_left (fun acc call => apply_update (fst call) acc) calls fs.

End Client.

(* ===================================================================== *)
(** ** The application route, continued: [GET] and runs of requests *)
(* ===================================================================== *)

Module ApplyQuery.
Import JS.
Import ApplyRoute.

(** A row of the per-job answer. *)
Record job_row : Type := {
  jr_id : string;
  jr_applicantName : string;
  jr_email : string;
  jr_submittedAt : string
}.

(** A row of the overall answer. *)
Record recent_row : Type := {
  rr_id : string;
  rr_jobId : value;
  rr_applicantName : string;
  rr_email : string;
  rr_submittedAt : string
}.

(** The two answers of [GET /api/apply]. *)
Inductive stats : Type :=
| ForJob (q_jobId : string) (count : nat) (rows : list job_row)
| Overall (totalApplications : nat) (recentApplications : list recent_row).

(** [app.jobId === jobId], the right-hand side being a string. *)
Definition same_job (wanted : string) (app : application) : bool :=
  match jobId app with
  | VStr s => s =? wanted
  | _ => false
  end.

Definition to_job_row (app : application) : job_row :=
  {| jr_id := id app;
     jr_applicantName := applicantName app;
     jr_email := email app;
     jr_submittedAt := submittedAt app |}.

Definition to_recent_row (app : application) : recent_row :=
  {| rr_id := id app;
     rr_jobId := jobId app;
     rr_applicantName := applicantName app;
     rr_email := email app;
     rr_submittedAt := submittedAt app |}.

(** [xs.slice(-n)] *)
Definition slice_last {A} (n : nat) (xs : list A) : list A :=
  skipn (List.length xs - n) xs.

(** [GET(request)] with [wanted] the value of [searchParams.get('jobId')]. *)
Definition GET (applications : list application) (wanted : option string) : stats :=
  let overall :=
    Overall (List.length applications)
      (map to_recent_row (rev (slice_last 10 applications))) in
  match wanted with
  | Some j =>
      if negb (j =? "")
      then
        let jobApplications := filter (same_job j) applications in
        ForJob j (List.length jobApplications) (map to_job_row jobApplications)
      else overall
  | None => overall
  end.

(** One request to [POST] with what the runtime gives during it. *)
Record request : Type := {
  rq_body : result value;
  rq_now : Z;
  rq_random36 : string;
  rq_iso : string
}.

(** Requests served one after the other on the shared store. *)
Fixpoint serve (URL_parses : string -> bool) (requests : list request)
    (applications : list application) : list reply * list application :=
  match requests with
  | [] => ([], applications)
  | rq :: rest =>
      let '(answer, applications') :=
        POST URL_parses (rq_now rq) (rq_random36 rq) (rq_iso rq)
          applications (rq_body rq) in
      let '(answers, final) := serve URL_parses rest applications' in
      (answer :: answers, final)
  end.

End ApplyQuery.

(* ===================================================================== *)
(** ** The client, continued: submitting an application *)
(* ===================================================================== *)

Module Submit.
Import JS.
Import ApplyRoute.

(** What [fetch('/api/apply', ...)] and [response.json()] gave. *)
Inductive http : Type :=
| Unreachable (e : exn)
| Responded (status : Z) (json : result value).

(** [response.ok] *)
Definition ok_status (status : Z) : bool :=
  ((200 <=? status) && (status <=? 299))%Z.

(** What [submitJobApplication] resolves with. *)
Record submitted : Type := {
  success : value;
  message : value;
  applicationId : value
}.

Section Api.

(** The message the engine gives a native error. *)
Variable native_message : exn -> string.

(** [error instanceof Error ? error.message : 'Failed to submit application'] *)
Definition failure_message (e : exn) : string :=
  match e with
  | Thrown _ => "Failed to submit application"
  | Error m => m
  | other => native_message other
  end.

(** [submitJobApplication(application)]; [server] answers the request whose
    body is the application. *)
Definition submitJobApplication (server : value -> http) (application : value)
  : submitted :=
  let run :=
    match server application with
    | Unreachable e => Throw e
    | Responded status json =>
        data <- json ;;
        d_message <- get data "message" ;;
        if negb (ok_status status)
        then
          text <- ToString
                    (or_else d_message
                       (VStr ("HTTP error! status: " ++ Z_to_string status))) ;;
          Throw (Error text)
        else
          d_success <- get data "success" ;;
          d_data <- get data "data" ;;
          d_id <- match d_data with
                  | VUndef | VNull => Ok VUndef
                  | _ => get d_data "applicationId"
                  end ;;
          Ok {| success := d_success; message := d_message; applicationId := d_id |}
    end in
  match run with
  | Ok r => r
  | Throw e => {| success := VBool false;
                  message := VStr (failure_message e);
                  applicationId := VUndef |}
  end.

(** [applyForJob(application)] *)
Definition applyForJob (server : value -> http) (application : value) : bool :=
  truthy (success (submitJobApplication server application)).

(** The JSON body and status [POST] sends for each answer (the [error]
    field of a 500 answer is left out, as in production). *)
Definition json_of_reply (r : reply) : value :=
  match r with
  | Created applicationId submittedAt r_jobId =>
      VObj [("success", VBool true);
            ("message", VStr "Application submitted successfully");
            ("data", VObj [("applicationId", VStr applicationId);
                           ("submittedAt", VStr submittedAt);
                           ("jobId", r_jobId)]);
            ("status", VNum 201)]
  | ValidationFailed r_errors =>
      VObj [("success", VBool false);
            ("message", VStr "Validation failed");
            ("errors", VArr (map VStr r_errors));
            ("status", VNum 400)]
  | InvalidJSON =>
      VObj [("success", VBool false);
            ("message", VStr "Invalid JSON data");
            ("status", VNum 400)]
  | ServerError e =>
      VObj [("success", VBool false);
            ("message", VStr (message_of native_message (ServerError e)));
            ("status", VNum 500)]
  end.

Definition http_of_reply (r : reply) : http :=
  Responded (status_of r) (Ok (json_of_reply r)).

(** The route as the client reaches it: the body arrives parsed, and the
    answer comes back with its status. *)
Definition over_route (URL_parses : string -> bool) (Date_now : Z)
    (random36 now_iso : string) (applications : list application)
  : value -> http :=
  fun body =>
    http_of_reply (fst (POST URL_parses Date_now random36 now_iso applications
                          (Ok body))).

End Api.

End Submit.

(* ===================================================================== *)
(** ** The application form *)
(* ===================================================================== *)

Module Form.
Import JS.

(** The [yearsOfExperience] of the form state: the number of the initial
    state, or the text of the input once [handleChange] has stored it. *)
Inductive years : Type :=
| Initial (n : Z)
| Entered (text : string).

Definition years_value (y : years) : value :=
  match y with
  | Initial n => VNum n
  | Entered text => VStr text
  end.

Record formData : Type := {
  applicantName : string;
  email : string;
  phone : string;
  coverLetter : string;
  linkedIn : string;
  portfolio : string;
  yearsOfExperience : years
}.

Definition initial_form : formData :=
  {| applicantName := ""; email := ""; phone := ""; coverLetter := "";
     linkedIn := ""; portfolio := ""; yearsOfExperience := Initial 0 |}.

(** [FormErrors]: the keys set, in insertion order, with their messages. *)
Definition FormErrors : Type := list (string * string).

Fixpoint error_of (key : string) (errors : FormErrors) : option string :=
  match errors with
  | [] => None
  | (k, m) :: rest => if k =? key then Some m else error_of key rest
  end.

(** [{ ...prev, [name]: '' }] *)
Fixpoint clear_error (key : string) (errors : FormErrors) : FormErrors :=
  match errors with
  | [] => [(key, "")]
  | (k, m) :: rest =>
      if k =? key then (k, "") :: rest else (k, m) :: clear_error key rest
  end.

(** A literal word as a pattern. *)
Fixpoint lit (s : string) : regex :=
  match s with
  | "" => Eps
  | String c rest => Seq (Class (fun x => (x =? c)%char)) (lit rest)
  end.

(** [r?] *)
Definition Opt (r : regex) : regex := Alt Eps r.

(** Any text, for a pattern with no [$]. *)
Definition any_tail : regex := Star (Class (fun _ => true)).

(** [.] matches every code unit but a line terminator. *)
Definition not_newline (c : ascii) : bool :=
  negb ((code c =? 10)%nat || (code c =? 13)%nat).

(** [/^https?:\/\/(www\.)?linkedin\.com/] *)
Definition linkedInRegex : regex :=
  Seq (lit "http") (Seq (Opt (lit "s")) (Seq (lit "://")
    (Seq (Opt (lit "www.")) (Seq (lit "linkedin.com") any_tail)))).

(** [/^https?:\/\/.+/] *)
Definition urlRegex : regex :=
  Seq (lit "http") (Seq (Opt (lit "s")) (Seq (lit "://")
    (Seq (Class not_newline) any_tail))).

(** The inputs of the form, by their [name]. *)
Inductive input : Type :=
| InApplicantName
| InEmail
| InPhone
| InYearsOfExperience
| InLinkedIn
| InPortfolio
| InCoverLetter.

Definition name_of (i : input) : string :=
  match i with
  | InApplicantName => "applicantName"
  | InEmail => "email"
  | InPhone => "phone"
  | InYearsOfExperience => "yearsOfExperience"
  | InLinkedIn => "linkedIn"
  | InPortfolio => "portfolio"
  | InCoverLetter => "coverLetter"
  end.

(** [{ ...prev, [name]: value }], the value being the text of the input. *)
Definition set_field (i : input) (value : string) (fd : formData) : formData :=
  match i with
  | InApplicantName =>
      {| applicantName := value; email := email fd; phone := phone fd;
         coverLetter := coverLetter fd; linkedIn := linkedIn fd;
         portfolio := portfolio fd; yearsOfExperience := yearsOfExperience fd |}
  | InEmail =>
      {| applicantName := applicantName fd; email := value; phone := phone fd;
         coverLetter := coverLetter fd; linkedIn := linkedIn fd;
         portfolio := portfolio fd; yearsOfExperience := yearsOfExperience fd |}
  | InPhone =>
      {| applicantName := applicantName fd; email := email fd; phone := value;
         coverLetter := coverLetter fd; linkedIn := linkedIn fd;
         portfolio := portfolio fd; yearsOfExperience := yearsOfExperience fd |}
  | InCoverLetter =>
      {| applicantName := applicantName fd; email := email fd; phone := phone fd;
         coverLetter := value; linkedIn := linkedIn fd;
         portfolio := portfolio fd; yearsOfExperience := yearsOfExperience fd |}
  | InLinkedIn =>
      {| applicantName := applicantName fd; email := email fd; phone := phone fd;
         coverLetter := coverLetter fd; linkedIn := value;
         portfolio := portfolio fd; yearsOfExperience := yearsOfExperience fd |}
  | InPortfolio =>
      {| applicantName := applicantName fd; email := email fd; phone := phone fd;
         coverLetter := coverLetter fd; linkedIn := linkedIn fd;
         portfolio := value; yearsOfExperience := yearsOfExperience fd |}
  | InYearsOfExperience =>
      {| applicantName := applicantName fd; email := email fd; phone := phone fd;
         coverLetter := coverLetter fd; linkedIn := linkedIn fd;
         portfolio := portfolio fd; yearsOfExperience := Entered value |}
  end.

(** [handleChange(e)] for an input of the form: the text goes into the
    state, and a displayed error of that input is blanked. *)
Definition handleChange (i : input) (value : string) (fd : formData)
    (errors : FormErrors) : formData * FormErrors :=
  (set_field i value fd,
   match error_of (name_of i) errors with
   | Some m => if negb (m =? "") then clear_error (name_of i) errors else errors
   | None => errors
   end).

(** A run of change events, each given by its input and the text it
    holds. *)
Fixpoint changes (events : list (input * string)) (fd : formData)
    (errors : FormErrors) : formData * FormErrors :=
  match events with
  | [] => (fd, errors)
  | (i, value) :: rest =>
      let '(fd', errors') := handleChange i value fd errors in
      changes rest fd' errors'
  end.

Section Messages.

(** [VALIDATION_MESSAGES] of [@/constants]. *)
Variable REQUIRED : string.
Variable MIN_LENGTH : Z -> string.
Variable MAX_LENGTH : Z -> string.
Variable INVALID_EMAIL : string.
Variable INVALID_PHONE : string.
Variable MIN_VALUE : Z -> string.
(** [Number(text) < 0] for the text of a number input. *)
Variable text_negative : string -> bool.

(** The error set for one field, if any. *)
Definition check (key : string) (verdict : option string) : FormErrors :=
  match verdict with
  | Some m => [(key, m)]
  | None => []
  end.

(** [validateForm()]: the errors it sets and the boolean it returns. *)
Definition validateForm (fd : formData) : FormErrors * bool :=
  let newErrors :=
    (check "applicantName"
       (if trim (applicantName fd) =? "" then Some REQUIRED
        else if (length (applicantName fd) <? 2)%nat then Some (MIN_LENGTH 2)
        else None)
     ++ check "email"
       (if trim (email fd) =? "" then Some REQUIRED
        else if negb (matches ApplyRoute.emailRegex (email fd)) then Some INVALID_EMAIL
        else None)
     ++ check "phone"
       (if trim (phone fd) =? "" then Some REQUIRED
        else if negb (matches ApplyRoute.phoneRegex (phone fd))
                || (length (phone fd) <? 10)%nat
        then Some INVALID_PHONE
        else None)
     ++ check "coverLetter"
       (if trim (coverLetter fd) =? "" then Some REQUIRED
        else if (length (coverLetter fd) <? 50)%nat then Some (MIN_LENGTH 50)
        else if (1000 <? length (coverLetter fd))%nat then Some (MAX_LENGTH 1000)
        else None)
     ++ check "yearsOfExperience"
       (if match yearsOfExperience fd with
           | Initial n => (n <? 0)%Z
           | Entered text => text_negative text
           end
        then Some (MIN_VALUE 0)
        else None)
     ++ check "linkedIn"
       (if negb (linkedIn fd =? "") && negb (matches linkedInRegex (linkedIn fd))
        then Some "Please enter a valid LinkedIn URL"
        else None)
     ++ check "portfolio"
       (if negb (portfolio fd =? "") && negb (matches urlRegex (portfolio fd))
        then Some "Please enter a valid URL"
        else None))%list in
  (newErrors, (List.length newErrors =? 0)%nat).

(** [{ jobId: job.id, ...formData }] as the server parses it: a [jobId]
    that is [undefined] is not serialized. *)
Definition application_of (job_id : value) (fd : formData) : value :=
  VObj ((match job_id with
         | VUndef => []
         | v => [("jobId", v)]
         end)
        ++ [("applicantName", VStr (applicantName fd));
            ("email", VStr (email fd));
            ("phone", VStr (phone fd));
            ("coverLetter", VStr (coverLetter fd));
            ("linkedIn", VStr (linkedIn fd));
            ("portfolio", VStr (portfolio fd));
            ("yearsOfExperience", years_value (yearsOfExperience fd))])%list.

(** How [handleSubmit] ends. *)
Inductive submission : Type :=
| Blocked (errors : FormErrors)
| Succeeded
| Failed.

(** [handleSubmit(e)]; [apply] is [applyForJob]. *)
Definition handleSubmit (job_id : value) (fd : formData) (apply : value -> bool)
  : submission :=
  let '(newErrors, valid) := validateForm fd in
  if negb valid then Blocked newErrors
  else if apply (application_of job_id fd) then Succeeded
  else Failed.

End Messages.

End Form.

(* ===================================================================== *)
(** ** The job card *)
(* ===================================================================== *)

Module Card.
Import JS.
Import JobsRoute.

Definition day_ms : Z := 1000 * 60 * 60 * 24.

(** [Math.ceil(n / d)] for a non-negative [n] and a positive [d]. *)
Definition ceil_div (n d : Z) : Z := ((n + d - 1) / d)%Z.

Section Runtime.

(** [new Date(dateString).getTime()], [None] for an invalid date. *)
Variable Date_parse : string -> option Z.
(** [new Date().getTime()]. *)
Variable now_ms : Z.
(** [date.toLocaleDateString()], "Invalid Date" for an invalid date. *)
Variable toLocaleDateString : option Z -> string.
(** [x.toLocaleString()]. *)
Variable toLocaleString : value -> string.

(** [formatDate(dateString)]: with an invalid date every comparison is
    false. *)
Definition formatDate (dateString : string) : string :=
  match Date_parse dateString with
  | None => toLocaleDateString None
  | Some date =>
      let diffTime := Z.abs (now_ms - date) in
      let diffDays := ceil_div diffTime day_ms in
      if (diffDays =? 0)%Z then "Today"
      else if (diffDays =? 1)%Z then "Yesterday"
      else if (diffDays <? 7)%Z then Z_to_string diffDays ++ " days ago"
      else if (diffDays <? 30)%Z then Z_to_string (diffDays / 7) ++ " weeks ago"
      else toLocaleDateString (Some date)
  end.



End Runtime.

End Card.

(* ===================================================================== *)
(** ** The provider, continued: [resetFilters] and sessions *)
(* ===================================================================== *)

Module Provider.
Import JS.
Import Client.

(** What the user does to the filters. *)
Inductive action : Type :=
| Update (u : update)
| Reset.

(** The controller together with the identity of the [filters] object:
    [is_default] holds when the state is the [DEFAULT_FILTERS] object
    itself, as after the first render or a reset.  [updateFilter] always
    installs a fresh object. *)
Record provider : Type := {
  ctl : controller;
  is_default : bool
}.

Section Defaults.

(** [DEFAULT_FILTERS] of [@/constants]. *)
Variable DEFAULT_FILTERS : FilterState.

(** The first render: [useState(DEFAULT_FILTERS)]. *)
Definition start (now : Z) : provider :=
  {| ctl := mount DEFAULT_FILTERS now; is_default := true |}.

(** [resetFilters()]: [setFilters(DEFAULT_FILTERS)].  Setting the object
    the state already holds changes nothing, so the effect does not run
    again; otherwise it does. *)
Definition resetFilters (p : provider) : provider :=
  if is_default p then p
  else {| ctl := rerun_effect DEFAULT_FILTERS (ctl p); is_default := true |}.

Definition act (a : action) (p : provider) : provider :=
  match a with
  | Update u => {| ctl := updateFilter u (ctl p); is_default := false |}
  | Reset => resetFilters p
  end.

(** Time passing. *)
Definition wait (ms : Z) (p : provider) : provider :=
  {| ctl := elapse ms (ctl p); is_default := is_default p |}.

(** A session: each action is followed by a pause in milliseconds. *)
Fixpoint session (steps : list (action * Z)) (p : provider) : provider :=
  match steps with
  | [] => p
  | (a, pause) :: rest => session rest (wait pause (act a p))
  end.

End Defaults.

End Provider.

(* ===================================================================== *)
(** ** Vocabulary of the properties *)
(* ===================================================================== *)

Module TextSpec.
Import JS.

Definition starts_with_space (s : string) : bool :=
  match s with
  | "" => false
  | String c _ => is_space c
  end.

Fixpoint ends_with_space (s : string) : bool :=
  match s with
  | "" => false
  | String c "" => is_space c
  | String _ rest => ends_with_space rest
  end.

(** A value that has a string form: it is not an object with an own
    [toString] property, nor an array with such an object among its
    elements, at any depth. *)
Fixpoint printable (v : value) : bool :=
  match v with
  | VArr items => forallb printable items
  | VObj props => negb (has_own "toString" props)
  | _ => true
  end.

(** The string form of a value that has one. *)
Definition printed (v : value) : string :=
  match ToString v with
  | Ok s => s
  | Throw _ => ""
  end.

End TextSpec.

Module JobsSpec.
Import JS.
Import JobsRoute.
Import TextSpec.

(** [k] occurs in [s] as a run of consecutive characters. *)
Definition substring_of (k s : string) : Prop :=
  exists pre post, s = pre ++ k ++ post.

(** The closed set of categories. *)
Definition categories : list string :=
  ["Software Development"; "Data Science"; "Design"; "Marketing";
   "Product Management"; "Sales"; "Customer Support"; "Human Resources";
   "Finance"; "DevOps"; "Quality Assurance"; "Security"].

(** The closed set of experience levels. *)
Definition levels : list string :=
  ["Entry-Level"; "Mid-Level"; "Senior"; "Lead"].

(** Every keyword [determineCategory] looks for. *)
Definition category_keywords : list string :=
  ["dev"; "engineer"; "programmer"; "frontend"; "backend"; "fullstack"; "full stack";
   "data"; "analyst"; "scientist"; "ml"; "machine learning";
   "design"; "ux"; "ui"; "graphic";
   "market"; "seo"; "growth";
   "product"; "pm";
   "sales"; "business development";
   "support"; "customer"; "success";
   "hr"; "human"; "recruiter"; "talent";
   "finance"; "accounting"; "accountant";
   "devops"; "sre"; "infrastructure";
   "qa"; "test"; "quality";
   "security"; "cyber"].

(** The string a field holds, when it holds one. *)
Definition text_of (v : value) : string :=
  match v with
  | VStr s => s
  | _ => ""
  end.

Definition absent_or_string (v : value) : bool :=
  negb (truthy v) || is_string v.

Definition is_array (v : value) : bool :=
  match v with VArr _ => true | _ => false end.

(** The property a record answers with, [undefined] for what is not an
    object. *)
Definition field (r : value) (k : string) : value :=
  match r with
  | VObj props => lookup k props
  | _ => VUndef
  end.

(** A property is missing from a record. *)
Definition missing (record : value) (k : string) : Prop :=
  get record k = Ok VUndef.

(** An upstream record of the expected shape: an object whose [position],
    [company] and [description] are strings when given, whose [tags] is a
    string or an array of values with a string form when given, and whose
    [date], when given, is a valid time. *)
Definition typed_record (toISOString : value -> result string) (r : value) : bool :=
  match r with
  | VObj props =>
      absent_or_string (lookup "position" props)
      && absent_or_string (lookup "company" props)
      && absent_or_string (lookup "description" props)
      && (let t := lookup "tags" props in
          negb (truthy t) || is_string t || (is_array t && printable t))
      && (let d := lookup "date" props in
          negb (truthy d)
          || match toISOString d with Ok _ => true | Throw _ => false end)
  | _ => false
  end.

(** The text fields of the job are strings. *)
Definition texts_are_strings (j : Job) : Prop :=
  is_string (title j) = true
  /\ is_string (company j) = true
  /\ is_string (description j) = true.

(** The lower-cased query occurs in the lower-cased title, company,
    description or category of the job. *)
Definition query_hit (query : string) (j : Job) : bool :=
  let q := toLowerCase query in
  includes (toLowerCase (text_of (title j))) q
  || includes (toLowerCase (text_of (company j))) q
  || includes (toLowerCase (text_of (description j))) q
  || includes (toLowerCase (category j)) q.

(** An exact-match filter, skipped when the parameter is absent, empty or
    the sentinel. *)
Definition exact (param : option string) (sentinel field : string) : bool :=
  match param with
  | Some p => if (p =? "") || (p =? sentinel) then true else field =? p
  | None => true
  end.

Definition exact_filters (sp : searchParams) (j : Job) : bool :=
  exact (experienceLevel_of sp) "All Levels" (experienceLevel j)
  && exact (p_category sp) "All Categories" (category j)
  && exact (p_jobType sp) "All Types" (type j).

(** The jobs the route keeps: the query filter applies when the query is
    not blank. *)
Definition keep (sp : searchParams) (j : Job) : bool :=
  (if trim (query_of sp) =? "" then true else query_hit (query_of sp) j)
  && exact_filters sp j.

(** The jobs kept when the query filter applies to every non-empty
    query. *)
Definition keep_nonempty_query (sp : searchParams) (j : Job) : bool :=
  (if query_of sp =? "" then true else query_hit (query_of sp) j)
  && exact_filters sp j.

(** No filter is active. *)
Definition no_filters (sp : searchParams) : Prop :=
  trim (query_of sp) = ""
  /\ active (experienceLevel_of sp) "All Levels" = false
  /\ active (p_category sp) "All Categories" = false
  /\ active (p_jobType sp) "All Types" = false.

End JobsSpec.

Module ApplySpec.
Import JS.
Import ApplyRoute.
Import TextSpec.
Import JobsSpec.

(** The rules of the validator, in the order it runs them. *)
Inductive rule : Type :=
| RJobId
| RApplicantName
| REmail
| RPhone
| RCoverLetter
| RYearsOfExperience
| RLinkedIn
| RPortfolio.

Definition all_rules : list rule :=
  [RJobId; RApplicantName; REmail; RPhone; RCoverLetter;
   RYearsOfExperience; RLinkedIn; RPortfolio].

Definition message (r : rule) : string :=
  match r with
  | RJobId => "Job ID is required"
  | RApplicantName => "Applicant name must be at least 2 characters"
  | REmail => "Valid email address is required"
  | RPhone => "Valid phone number is required (minimum 10 digits)"
  | RCoverLetter => "Cover letter must be at least 50 characters"
  | RYearsOfExperience => "Years of experience must be a non-negative number"
  | RLinkedIn => "LinkedIn URL must be a valid LinkedIn profile URL"
  | RPortfolio => "Portfolio must be a valid URL"
  end.

(** A string that is not blank: something is left after trimming. *)
Definition nonblank (s : string) : bool := negb (trim s =? "").

(** The rule is violated by the submitted object.
    - [jobId]: required, a string;
    - [applicantName]: a string of trimmed length at least 2;
    - [email]: given, and its string form matches the pattern;
    - [phone]: a string over the allowed characters with at least 10
      digits;
    - [coverLetter]: a string of trimmed length at least 50;
    - [yearsOfExperience]: when present, a number that is not negative;
    - [linkedIn]: when a string that is not blank, contains
      "linkedin.com";
    - [portfolio]: when a string that is not blank, parses as a URL. *)
Definition violated (URL_parses : string -> bool) (data : value) (r : rule) : bool :=
  match r with
  | RJobId =>
      match field data "jobId" with
      | VStr s => s =? ""
      | _ => true
      end
  | RApplicantName =>
      match field data "applicantName" with
      | VStr s => (length (trim s) <? 2)%nat
      | _ => true
      end
  | REmail =>
      negb (truthy (field data "email")
            && matches emailRegex (printed (field data "email")))
  | RPhone =>
      match field data "phone" with
      | VStr s =>
          negb (negb (s =? "") && all_chars phone_char s
                && (10 <=? length (keep_chars is_digit s))%nat)
      | _ => true
      end
  | RCoverLetter =>
      match field data "coverLetter" with
      | VStr s => (length (trim s) <? 50)%nat
      | _ => true
      end
  | RYearsOfExperience =>
      match field data "yearsOfExperience" with
      | VUndef => false
      | VNum n => (n <? 0)%Z
      | _ => true
      end
  | RLinkedIn =>
      match field data "linkedIn" with
      | VStr s => nonblank s && negb (includes s "linkedin.com")
      | _ => false
      end
  | RPortfolio =>
      match field data "portfolio" with
      | VStr s => nonblank s && negb (URL_parses s)
      | _ => false
      end
  end.

(** An address of the shape [local@domain.tld], the three parts non-empty
    and free of white space and of [@]. *)
Definition email_shape (s : string) : Prop :=
  exists local domain tld,
    s = local ++ "@" ++ domain ++ "." ++ tld
    /\ local <> "" /\ all_chars not_space_at local = true
    /\ domain <> "" /\ all_chars not_space_at domain = true
    /\ tld <> "" /\ all_chars not_space_at tld = true.

(** The inputs on which the validator throws.  An [email] that is given
    and has no string form: the pattern cannot be tested. *)
Definition email_crashes (data : value) : bool :=
  let e := field data "email" in
  truthy e && negb (printable e).

(** A [phone] that is given, is not a string, and either has no string form
    or has one that passes the character test: what passes is then asked
    for its digits, which only a string can give. *)
Definition phone_crashes (data : value) : bool :=
  let p := field data "phone" in
  truthy p && negb (is_string p)
  && (negb (printable p) || matches phoneRegex (printed p)).

Definition validator_crashes (data : value) : bool :=
  email_crashes data || phone_crashes data.

(** A field that is a string when it is supplied. *)
Definition optional_string (v : value) : bool :=
  match v with
  | VUndef | VNull | VStr _ => true
  | _ => false
  end.

(** The trimmed text of an optional field, absent when nothing is left. *)
Definition trimmed_or_absent (v : value) : option string :=
  match v with
  | VStr s => if trim s =? "" then None else Some (trim s)
  | _ => None
  end.

(** [app-<digits>-<alnum>] *)
Definition id_pattern (s : string) : Prop :=
  exists digits suffix,
    s = "app-" ++ digits ++ "-" ++ suffix
    /\ digits <> "" /\ all_chars is_digit digits = true
    /\ suffix <> "" /\ all_chars is_alnum suffix = true.

(** [Math.random().toString(36)] of a non-zero draw: "0." followed by
    base-36 digits. *)
Definition base36_fraction (s : string) : Prop :=
  exists frac,
    s = "0." ++ frac /\ frac <> ""
    /\ all_chars (fun c => is_digit c || is_lower c) frac = true.

End ApplySpec.

(* ===================================================================== *)
(** ** Concrete inputs *)
(* ===================================================================== *)

Module Samples.
Import JS.
Import JobsRoute.

(** A runtime for the examples: the clock reads 1700000000000 ms, and
    every numeric [date] is a valid time. *)
Definition clock_ms : Z := 1700000000000.
Definition clock_iso : string := "2023-11-14T22:13:20.000Z".
Definition date_iso (d : value) : result string :=
  match d with
  | VNum _ => Ok clock_iso
  | _ => Throw RangeError
  end.

Definition no_params : searchParams :=
  {| p_q := None; p_query := None; p_experience := None;
     p_experienceLevel := None; p_category := None; p_jobType := None;
     p_remote := None |}.

(** [?q=%20%20]: a query of two spaces. *)
Definition blank_query : searchParams :=
  {| p_q := Some "  "; p_query := None; p_experience := None;
     p_experienceLevel := None; p_category := None; p_jobType := None;
     p_remote := None |}.

(** The first element of the upstream array. *)
Definition metadata : value :=
  VObj [("last_updated", VNum 1700000000); ("legal", VStr "API terms")].

Definition job1 : value :=
  VObj [("id", VNum 101); ("position", VStr "Senior Backend Engineer");
        ("company", VStr "Acme"); ("tags", VArr [VStr "golang"; VStr "backend"]);
        ("description", VStr "We build payment systems. You will own services!");
        ("salary_min", VNum 90000); ("salary_max", VNum 120000);
        ("date", VNum 1700000000)].

Definition job2 : value :=
  VObj [("id", VStr "j-102"); ("position", VStr "Designer");
        ("tags", VArr [VStr "ux"])].

(** A record whose [id] is the number 0. *)
Definition job_id_zero : value :=
  VObj [("id", VNum 0); ("position", VStr "Engineer")].

(** A record whose [position] is a number. *)
Definition job_numeric_position : value :=
  VObj [("id", VNum 7); ("position", VNum 5)].

(** A record with a tag that has no string form: an object with a
    [toString] property. *)
Definition job_unprintable_tag : value :=
  VObj [("id", VNum 11); ("position", VStr "Software Developer");
        ("tags", VArr [VObj [("toString", VNum 1)]])].

(** A record whose lower salary bound is the number 0. *)
Definition job_zero_min : value :=
  VObj [("id", VNum 9); ("position", VStr "Engineer");
        ("salary_min", VNum 0); ("salary_max", VNum 50000)].

(** A record with no salary bounds. *)
Definition job_no_salary : value :=
  VObj [("id", VNum 8); ("position", VStr "Accountant")].

End Samples.

Module ApplySamples.
Import JS.
Import ApplyRoute.

(** A stand-in for [new URL]: absolute http(s) addresses parse. *)
Definition url_parses (s : string) : bool :=
  prefix "http://" s || prefix "https://" s.

Definition engine_message (e : exn) : string :=
  match e with
  | TypeError => "TypeError"
  | RangeError => "RangeError"
  | SyntaxError => "SyntaxError"
  | Error m => m
  | Thrown _ => ""
  end.

Definition random_draw : string := "0.4fzyo82mvyr".

Definition letter_50 : string :=
  "I have shipped services in Go and Rust for years..".


(** A submission given field by field, [extra] holding the optional
    fields. *)
Definition submission_of (jobId applicantName email phone coverLetter : value)
    (extra : list (string * value)) : value :=
  VObj ([("jobId", jobId); ("applicantName", applicantName);
         ("email", email); ("phone", phone);
         ("coverLetter", coverLetter)] ++ extra)%list.

(** The submission of the scenario, with the cover letter as a
    parameter. *)
Definition submission (letter : string) : value :=
  submission_of (VStr "j1") (VStr "Al") (VStr "a@b.com") (VStr "1234567890")
    (VStr letter) [("yearsOfExperience", VNum 2)].



(** The scenario with spaces around every string field. *)
Definition submission_padded : value :=
  submission_of (VStr " j1 ") (VStr " Al ") (VStr "A@B.com") (VStr " 1234567890 ")
    (VStr (" " ++ letter_50 ++ " ")) [("yearsOfExperience", VNum 2)].

(** The scenario with the email sent as a one-element array. *)
Definition submission_email_array : value :=
  submission_of (VStr "j1") (VStr "Al") (VArr [VStr "a@b.com"]) (VStr "1234567890")
    (VStr letter_50) [("yearsOfExperience", VNum 2)].




End ApplySamples.

Module ClientSamples.
Import JS.
Import JobsRoute.
Import Client.

Definition default_filters : FilterState :=
  {| f_category := ""; f_location := ""; f_experienceLevel := "";
     f_jobType := ""; f_searchQuery := ""; f_remoteOnly := false |}.

(** A job already on screen. *)
Definition listed_job : Job :=
  {| id := VNum 101;
     title := VStr "Senior Backend Engineer";
     company := VStr "Acme";
     location := VStr "Remote";
     category := "Software Development";
     experienceLevel := "Senior";
     type := "Full-time";
     salary := None;
     description := VStr "We build payment systems.";
     requirements := fallback_requirements;
     responsibilities := [];
     postedDate := Samples.clock_iso;
     remote := true |}.

(** A stand-in for [MOCK_JOBS]. *)
Definition mock_jobs : list Job := [listed_job].

(** A stand-in for [ERROR_MESSAGES.FETCH_FAILED]. *)
Definition fetch_failed : string := "Failed to fetch jobs. Please try again.".

(** The provider showing one job, idle. *)
Definition showing_one : state :=
  {| jobs := [listed_job]; filteredJobs := [listed_job];
     filters := default_filters; loading := false; error := None |}.

(** A network that is down. *)
Definition network_down (sp : searchParams) : api_result :=
  Rejected (Error "Network down").

(** A network that answers with one job. *)
Definition network_one_job (sp : searchParams) : api_result :=
  Responded true 200 (Ok (Some [listed_job])).

(** An upstream answer whose only job is a designer's. *)
Definition upstream_designer : JobsRoute.fetched :=
  Answer true 200 "OK" (Ok (VArr [Samples.metadata; Samples.job2])).


End ClientSamples.

(* ===================================================================== *)
(** ** Vocabulary, continued *)
(* ===================================================================== *)

Module StoreSpec.
Import JS.
Import ApplyRoute.
Import TextSpec.
Import ApplySpec.

(** What holds of every record the store is given: the fields are the
    validated, normalized ones. *)
Definition stored_ok (a : application) : Prop :=
  (exists j, jobId a = VStr j /\ j <> "")
  /\ (2 <= length (applicantName a))%nat
  /\ starts_with_space (applicantName a) = false
  /\ ends_with_space (applicantName a) = false
  /\ email_shape (email a)
  /\ toLowerCase (email a) = email a
  /\ (10 <= length (keep_chars is_digit (phone a)))%nat
  /\ (50 <= length (coverLetter a))%nat
  /\ linkedIn a <> Some ""
  /\ portfolio a <> Some ""
  /\ (exists n, yearsOfExperience a = VNum n /\ (0 <= n)%Z).

(** The answers that report an application as stored. *)
Definition created (r : reply) : bool :=
  match r with
  | Created _ _ _ => true
  | _ => false
  end.

End StoreSpec.

Module ClassifierSpec.
Import JS.
Import JobsRoute.

(** The keywords of the first group of [determineCategory]. *)
Definition development_keywords : list string :=
  ["dev"; "engineer"; "programmer"; "frontend"; "backend"; "fullstack"; "full stack"].

(** A tag list giving each category. *)
Definition tags_for (category : string) : list string :=
  if category =? "Software Development" then ["engineer"]
  else if category =? "Data Science" then ["analyst"]
  else if category =? "Design" then ["ux"]
  else if category =? "Marketing" then ["seo"]
  else if category =? "Product Management" then ["product"]
  else if category =? "Sales" then ["sales"]
  else if category =? "Customer Support" then ["support"]
  else if category =? "Human Resources" then ["talent"]
  else if category =? "Finance" then ["finance"]
  else if category =? "DevOps" then ["sre"]
  else if category =? "Quality Assurance" then ["qa"]
  else if category =? "Security" then ["cyber"]
  else [].

End ClassifierSpec.

Module ListingSpec.
Import JS.
Import JobsRoute.
Import JobsSpec.

(** What every job the transformer builds from a record with an [id]
    looks like. *)
Definition listed_ok (j : Job) : Prop :=
  truthy (id j) = true
  /\ type j = "Full-time"
  /\ remote j = true
  /\ responsibilities j = []
  /\ (1 <= List.length (requirements j) <= 3)%nat
  /\ In (category j) categories
  /\ In (experienceLevel j) levels
  /\ match salary j with
     | Some s =>
         truthy (min s) = true /\ truthy (max s) = true /\ currency s = "USD"
     | None => True
     end
  /\ (exists t, title j = VStr t /\ experienceLevel j = levelOf (toLowerCase t)).

End ListingSpec.

Module ProviderSpec.
Import JS.
Import Client.

(** The fetch started last, if any. *)
Definition last_started (c : controller) : option FilterState :=
  last (map Some (c_started c)) None.

(** The pending timer, if any, has captured the current filters and is due
    within the delay; with no timer pending, the last fetch started was on
    the current filters. *)
Definition in_step (c : controller) : Prop :=
  match c_pending c with
  | Some t => captured t = c_filters c /\ (due t <= c_now c + debounce_ms)%Z
  | None => last_started c = Some (c_filters c)
  end.


End ProviderSpec.

Module FormSpec.
Import JS.
Import Form.

(** What the route requires of a submission beyond what the form checks:
    a job whose [id] is a non-empty string, a years input left alone, a
    name of at least 2 characters and a cover letter of at least 50 once
    trimmed, at least 10 digits in the phone, and a portfolio that is
    blank or parses as a URL. *)
Definition server_only (URL_parses : string -> bool) (job_id : value)
    (fd : formData) : Prop :=
  (exists j, job_id = VStr j /\ j <> "")
  /\ (exists n, yearsOfExperience fd = Initial n)
  /\ (2 <= length (trim (applicantName fd)))%nat
  /\ (10 <= length (keep_chars is_digit (phone fd)))%nat
  /\ (50 <= length (trim (coverLetter fd)))%nat
  /\ (trim (portfolio fd) = "" \/ URL_parses (portfolio fd) = true).

End FormSpec.

Module FormSamples.
Import JS.
Import Form.

Definition required : string := "This field is required".
Definition min_length (n : Z) : string :=
  "Must be at least " ++ Z_to_string n ++ " characters".
Definition max_length (n : Z) : string :=
  "Must be at most " ++ Z_to_string n ++ " characters".
Definition invalid_email : string := "Please enter a valid email address".
Definition invalid_phone : string := "Please enter a valid phone number".
Definition min_value (n : Z) : string := "Must be at least " ++ Z_to_string n.

(** A stand-in for [Number(text) < 0]: the text starts with a minus
    sign. *)
Definition negative_text (text : string) : bool := prefix "-" text.

(** A form filled in without touching the years input. *)
Definition filled : formData :=
  {| applicantName := "Al";
     email := "a@b.com";
     phone := "1234567890";
     coverLetter := ApplySamples.letter_50;
     linkedIn := "https://www.linkedin.com/in/al";
     portfolio := "";
     yearsOfExperience := Initial 0 |}.

(** The same form after "3" was typed into the years input. *)
Definition filled_with_years : formData :=
  set_field InYearsOfExperience "3" filled.

(** A clock for the card: the posting time is the text read as
    milliseconds, for the two texts below. *)
Definition parse_ms (s : string) : option Z :=
  if s =? "one-minute-ago" then Some (Samples.clock_ms - 60000)%Z
  else if s =? "ten-days-ago" then Some (Samples.clock_ms - 864000000)%Z
  else None.

Definition locale_date (d : option Z) : string :=
  match d with
  | Some _ => "11/14/2023"
  | None => "Invalid Date"
  end.



End FormSamples.

(* ===================================================================== *)
(** ** Facts about the JavaScript fragment *)
(* ===================================================================== *)

Module JSFacts.
Import JS.
Import TextSpec.
Import JobsSpec.

Lemma prefix_app_iff (p s : string) :
  prefix p s = true <-> exists post, s = p ++ post.
Proof.
  revert s. induction p as [|a p IH]; intros s.
  - split; [intros _; now exists s | now destruct s].
  - destruct s as [|b s]; simpl.
    + split; [discriminate | intros [post H]; discriminate].
    + destruct (ascii_dec a b) as [->|Hne].
      * rewrite IH. split; intros [post H]; exists post.
        -- now rewrite H.
        -- now injection H.
      * split; [discriminate|].
        intros [post H]. injection H as Hab _. now symmetry in Hab.
Qed.

Lemma includes_unfold (s k : string) :
  includes s k =
  prefix k s || match s with
                | "" => false
                | String _ rest => includes rest k
                end.
Proof. destruct s; reflexivity. Qed.

(** [includes] decides the substring relation. *)
Lemma includes_spec (s k : string) :
  includes s k = true <-> substring_of k s.
Proof.
  unfold substring_of. induction s as [|c s IH].
  - rewrite includes_unfold, orb_false_r, prefix_app_iff. split.
    + intros [post H]. now exists "", post.
    + intros [pre [post H]]. destruct pre; [now exists post | discriminate].
  - rewrite includes_unfold, orb_true_iff, prefix_app_iff, IH. split.
    + intros [[post H]|[pre [post H]]].
      * now exists "", post.
      * exists (String c pre), post. simpl. now rewrite H.
    + intros [pre [post H]]. destruct pre as [|c' pre]; simpl in H.
      * left. now exists post.
      * right. injection H as _ H. now exists pre, post.
Qed.

Lemma includes_false_iff (s k : string) :
  includes s k = false <-> ~ substring_of k s.
Proof.
  rewrite <- includes_spec. destruct (includes s k); split; congruence.
Qed.

Lemma includes_any_spec (s : string) (ks : list string) :
  JobsRoute.includes_any s ks = true <-> Exists (fun k => substring_of k s) ks.
Proof.
  unfold JobsRoute.includes_any. rewrite existsb_exists, Exists_exists.
  split; intros [k [Hin H]]; exists k; split; trivial; now apply includes_spec.
Qed.

Lemma includes_any_false_iff (s : string) (ks : list string) :
  JobsRoute.includes_any s ks = false <-> ~ Exists (fun k => substring_of k s) ks.
Proof.
  rewrite <- includes_any_spec.
  destruct (JobsRoute.includes_any s ks); split; congruence.
Qed.

(** *** Trimming *)

Lemma trimStart_spec (s : string) :
  exists pre,
    s = pre ++ trimStart s
    /\ all_chars is_space pre = true
    /\ starts_with_space (trimStart s) = false.
Proof.
  induction s as [|c s [pre [E [Hpre Hs]]]]; simpl.
  - exists "". repeat split.
  - destruct (is_space c) eqn:Hc.
    + exists (String c pre). simpl. rewrite Hc, Hpre, <- E. repeat split. exact Hs.
    + exists "". simpl. repeat split. exact Hc.
Qed.

Lemma trimEnd_spec (s : string) :
  exists post,
    s = trimEnd s ++ post
    /\ all_chars is_space post = true
    /\ ends_with_space (trimEnd s) = false
    /\ (starts_with_space s = false -> starts_with_space (trimEnd s) = false).
Proof.
  induction s as [|c s [post [E [Hpost [He _]]]]]; simpl.
  - exists "". repeat split.
  - destruct (is_space c && (trimEnd s =? "")) eqn:Hc.
    + apply andb_true_iff in Hc. destruct Hc as [Hc Hempty].
      apply String.eqb_eq in Hempty. rewrite Hempty in E. simpl in E.
      exists (String c post). simpl. rewrite Hc, Hpost, <- E. repeat split.
    + exists post. simpl. rewrite <- E. repeat split; auto.
      destruct (trimEnd s) as [|c' t] eqn:Ht.
      * simpl in Hc. now rewrite andb_true_r in Hc.
      * exact He.
Qed.

(** [trim] removes a run of white space at each end and leaves none
    there. *)
Lemma trim_spec (s : string) :
  exists pre post,
    s = pre ++ trim s ++ post
    /\ all_chars is_space pre = true
    /\ all_chars is_space post = true
    /\ starts_with_space (trim s) = false
    /\ ends_with_space (trim s) = false.
Proof.
  unfold trim.
  destruct (trimStart_spec s) as [pre [E1 [Hpre Hs]]].
  destruct (trimEnd_spec (trimStart s)) as [post [E2 [Hpost [He Hkeep]]]].
  exists pre, post. repeat split; auto.
  now rewrite <- E2.
Qed.

(** A loop whose body never throws is a plain [map]. *)
Lemma mapM_Forall2 {A B} (f : A -> result B) (xs : list A) (ys : list B) :
  mapM f xs = Ok ys <-> Forall2 (fun x y => f x = Ok y) xs ys.
Proof.
  revert ys. induction xs as [|x xs IH]; intros ys; simpl.
  - split.
    + intros H. injection H as <-. constructor.
    + intros H. now inversion H.
  - split.
    + destruct (f x) as [y|e] eqn:Hx; simpl; [|discriminate].
      destruct (mapM f xs) as [ys'|e] eqn:Hxs; simpl; [|discriminate].
      intros H. injection H as <-. constructor; [assumption | now apply IH].
    + intros H. inversion H as [|x' y xs' ys' Hx Hxs]; subst.
      rewrite Hx. simpl. apply IH in Hxs. now rewrite Hxs.
Qed.

Lemma filterM_pure {A} (p : A -> result bool) (q : A -> bool) (xs : list A) :
  Forall (fun x => p x = Ok (q x)) xs -> filterM p xs = Ok (filter q xs).
Proof.
  induction 1 as [|x xs Hx _ IH]; simpl; [reflexivity|].
  rewrite Hx, IH. reflexivity.
Qed.

Lemma filter_filter {A} (p q : A -> bool) (xs : list A) :
  filter q (filter p xs) = filter (fun x => p x && q x) xs.
Proof.
  induction xs as [|x xs IH]; simpl; [reflexivity|].
  destruct (p x); simpl; [destruct (q x)|]; now rewrite IH.
Qed.

(** *** Regular expressions *)

Lemma matches_Void (s : string) : matches Void s = false.
Proof. induction s; simpl; auto. Qed.

Lemma matches_Alt (r1 r2 : regex) (s : string) :
  matches (Alt r1 r2) s = matches r1 s || matches r2 s.
Proof. revert r1 r2. induction s as [|c s IH]; intros; simpl; auto. Qed.

Lemma matches_Seq_Void (r : regex) (s : string) : matches (Seq Void r) s = false.
Proof. induction s as [|c s IH]; simpl; auto. Qed.

(** After one character of the class, the rest of [[p]+] is [[p]*]. *)
Lemma matches_class_star (p : ascii -> bool) (s : string) :
  matches (Seq Eps (Star (Class p))) s = all_chars p s.
Proof.
  induction s as [|c s IH]; simpl; [reflexivity|].
  rewrite matches_Alt, matches_Seq_Void. simpl.
  destruct (p c); simpl; [exact IH | apply matches_Seq_Void].
Qed.

(** [/^[p]+$/] accepts the non-empty strings over the class. *)
Lemma matches_class_plus (p : ascii -> bool) (s : string) :
  matches (Plus (Class p)) s = negb (s =? "") && all_chars p s.
Proof.
  destruct s as [|c s]; simpl; [reflexivity|].
  destruct (p c); simpl; [apply matches_class_star | apply matches_Seq_Void].
Qed.

(** The matcher decides the language of the pattern. *)

Lemma append_empty (s1 s2 : string) : s1 ++ s2 = "" -> s1 = "" /\ s2 = "".
Proof. destruct s1; simpl; [auto | discriminate]. Qed.

Lemma append_empty_r (s : string) : s ++ "" = s.
Proof. induction s as [|c s IH]; simpl; congruence. Qed.

Lemma lang_Void_inv (s : string) : ~ lang Void s.
Proof. intros H. inversion H. Qed.

Lemma lang_Eps_inv (s : string) : lang Eps s -> s = "".
Proof. intros H. now inversion H. Qed.

Lemma lang_Class_inv (p : ascii -> bool) (s : string) :
  lang (Class p) s -> exists c, s = String c "" /\ p c = true.
Proof. intros H. inversion H; subst. eauto. Qed.

Lemma lang_Seq_inv (r1 r2 : regex) (s : string) :
  lang (Seq r1 r2) s -> exists s1 s2, s = s1 ++ s2 /\ lang r1 s1 /\ lang r2 s2.
Proof. intros H. inversion H; subst. eauto. Qed.

Lemma lang_Alt_inv (r1 r2 : regex) (s : string) :
  lang (Alt r1 r2) s -> lang r1 s \/ lang r2 s.
Proof. intros H. inversion H; subst; auto. Qed.

Lemma nullable_spec (r : regex) : nullable r = true <-> lang r "".
Proof.
  induction r as [| |p|r1 IH1 r2 IH2|r1 IH1 r2 IH2|r IH]; simpl.
  - split; [discriminate | intros H; now apply lang_Void_inv in H].
  - split; [constructor | reflexivity].
  - split; [discriminate|].
    intros H. apply lang_Class_inv in H. destruct H as [c [H _]]. discriminate.
  - rewrite andb_true_iff, IH1, IH2. split.
    + intros [H1 H2]. change "" with ("" ++ ""). now constructor.
    + intros H. apply lang_Seq_inv in H. destruct H as [s1 [s2 [E [H1 H2]]]].
      symmetry in E. apply append_empty in E. destruct E; subst. now split.
  - rewrite orb_true_iff, IH1, IH2. split.
    + intros [H|H]; [now apply lang_Alt_l | now apply lang_Alt_r].
    + apply lang_Alt_inv.
  - split; [constructor | reflexivity].
Qed.

(** A non-empty word of [r*] starts with a non-empty word of [r]. *)
Lemma lang_Star_cons_inv (r : regex) (c : ascii) (s : string) :
  lang (Star r) (String c s) ->
  exists s1 s2, s = s1 ++ s2 /\ lang r (String c s1) /\ lang (Star r) s2.
Proof.
  intros H. remember (Star r) as r' eqn:Hr. remember (String c s) as w eqn:Hw.
  revert s Hw.
  induction H as [| | | | | |r0 s1 s2 H1 _ H2 IH2]; intros t Hw;
    try discriminate.
  injection Hr as ->. destruct s1 as [|c1 s1]; simpl in Hw.
  - apply IH2; [reflexivity | exact Hw].
  - injection Hw as -> <-. now exists s1, s2.
Qed.

Lemma deriv_spec (r : regex) (c : ascii) (s : string) :
  lang (deriv c r) s <-> lang r (String c s).
Proof.
  revert s. induction r as [| |p|r1 IH1 r2 IH2|r1 IH1 r2 IH2|r IH]; intros s; simpl.
  - split; intros H; now apply lang_Void_inv in H.
  - split; intros H; [now apply lang_Void_inv in H|].
    apply lang_Eps_inv in H. discriminate.
  - destruct (p c) eqn:Hp.
    + split; intros H.
      * apply lang_Eps_inv in H. subst s. now constructor.
      * apply lang_Class_inv in H. destruct H as [c' [E _]].
        injection E as _ ->. constructor.
    + split; intros H; [now apply lang_Void_inv in H|].
      apply lang_Class_inv in H. destruct H as [c' [E Hc]].
      injection E as -> _. congruence.
  - assert (Hseq : lang (Seq (deriv c r1) r2) s ->
                   lang (Seq r1 r2) (String c s)).
    { intros H. apply lang_Seq_inv in H. destruct H as [s1 [s2 [-> [H1 H2]]]].
      apply IH1 in H1. change (String c (s1 ++ s2)) with (String c s1 ++ s2).
      now constructor. }
    assert (Hinv : lang (Seq r1 r2) (String c s) ->
                   lang (Seq (deriv c r1) r2) s
                   \/ (lang r1 "" /\ lang (deriv c r2) s)).
    { intros H. apply lang_Seq_inv in H. destruct H as [s1 [s2 [E [H1 H2]]]].
      destruct s1 as [|c1 s1]; simpl in E.
      - right. subst s2. split; [assumption | now apply IH2].
      - injection E as <- ->. left. constructor; [now apply IH1 | assumption]. }
    destruct (nullable r1) eqn:Hn.
    + split.
      * intros H. apply lang_Alt_inv in H. destruct H as [H|H]; [now apply Hseq|].
        change (String c s) with ("" ++ String c s).
        constructor; [now apply nullable_spec | now apply IH2].
      * intros H. destruct (Hinv H) as [H'|[_ H']];
          [now apply lang_Alt_l | now apply lang_Alt_r].
    + split; [exact Hseq|].
      intros H. destruct (Hinv H) as [H'|[H' _]]; [assumption|].
      apply nullable_spec in H'. congruence.
  - split; intros H; apply lang_Alt_inv in H; destruct H as [H|H].
    + apply lang_Alt_l. now apply IH1.
    + apply lang_Alt_r. now apply IH2.
    + apply lang_Alt_l. now apply IH1.
    + apply lang_Alt_r. now apply IH2.
  - split.
    + intros H. apply lang_Seq_inv in H. destruct H as [s1 [s2 [-> [H1 H2]]]].
      apply IH in H1. change (String c (s1 ++ s2)) with (String c s1 ++ s2).
      now constructor.
    + intros H. destruct (lang_Star_cons_inv r c s H) as [s1 [s2 [-> [H1 H2]]]].
      constructor; [now apply IH | assumption].
Qed.

Theorem matches_spec (r : regex) (s : string) : matches r s = true <-> lang r s.
Proof.
  revert r. induction s as [|c s IH]; intros r; simpl.
  - apply nullable_spec.
  - rewrite IH. apply deriv_spec.
Qed.

Lemma lang_class_plus (p : ascii -> bool) (s : string) :
  lang (Plus (Class p)) s <-> s <> "" /\ all_chars p s = true.
Proof.
  rewrite <- matches_spec, matches_class_plus, andb_true_iff, negb_true_iff.
  split; intros [H1 H2]; (split; [|exact H2]).
  - intros E. subst s. discriminate.
  - destruct s; [contradiction | reflexivity].
Qed.

Lemma lang_char (c0 : ascii) (s : string) :
  lang (Class (fun c => (c =? c0)%char)) s <-> s = String c0 "".
Proof.
  split.
  - intros H. apply lang_Class_inv in H. destruct H as [c [-> Hc]].
    apply Ascii.eqb_eq in Hc. now subst.
  - intros ->. constructor. apply Ascii.eqb_refl.
Qed.

(** *** Decimal numerals *)

Lemma string_of_uint_digits (d : Decimal.uint) :
  all_chars is_digit (NilEmpty.string_of_uint d) = true.
Proof. induction d; simpl; auto. Qed.

Lemma string_of_uint_nonempty (d : Decimal.uint) :
  NilZero.string_of_uint d <> ""
  /\ all_chars is_digit (NilZero.string_of_uint d) = true.
Proof.
  destruct d; simpl; (split; [discriminate|]); try reflexivity;
    apply (string_of_uint_digits d).
Qed.

(** The numeral of a non-negative integer is a non-empty run of digits. *)
Lemma Z_to_string_digits (n : Z) :
  (0 <= n)%Z ->
  Z_to_string n <> "" /\ all_chars is_digit (Z_to_string n) = true.
Proof.
  intros Hn. unfold Z_to_string.
  destruct n as [|p|p]; [| |lia]; simpl.
  - split; [discriminate | reflexivity].
  - apply string_of_uint_nonempty.
Qed.

Lemma all_chars_impl (p q : ascii -> bool) (s : string) :
  (forall c, p c = true -> q c = true) ->
  all_chars p s = true -> all_chars q s = true.
Proof.
  intros Hpq. induction s as [|c s IH]; simpl; [reflexivity|].
  rewrite !andb_true_iff. intros [Hc Hs]. split; auto.
Qed.

(** *** Coercion to a string *)

Lemma value_nested_ind (P : value -> Prop) :
  P VUndef -> P VNull -> (forall b, P (VBool b)) -> (forall n, P (VNum n)) ->
  (forall s, P (VStr s)) ->
  (forall items, Forall P items -> P (VArr items)) ->
  (forall props, P (VObj props)) ->
  forall v, P v.
Proof.
  intros HU HN HB HZ HS HA HO. fix IH 1.
  intros [| |b|n|s|items|props];
    [exact HU | exact HN | apply HB | apply HZ | apply HS | | apply HO].
  apply HA. revert items. fix IHitems 1.
  intros [|x xs]; constructor; [apply IH | apply IHitems].
Qed.

(** An array prints its elements joined by commas. *)
Lemma ToString_array (items : list value) :
  ToString (VArr items) = strs <- mapM join_item items ;; Ok (join "," strs).
Proof.
  cbn [ToString]. f_equal.
  induction items as [|x xs IH]; [reflexivity|].
  cbn [mapM]. rewrite <- IH. reflexivity.
Qed.

Lemma join_item_ToString (v : value) :
  (printable v = true -> exists s, ToString v = Ok s) ->
  (printable v = false -> ToString v = Throw TypeError) ->
  (printable v = true -> exists s, join_item v = Ok s)
  /\ (printable v = false -> join_item v = Throw TypeError).
Proof.
  intros H1 H2. destruct v; simpl in *; try (split; [eauto | discriminate]).
  - split; [exact H1 | exact H2].
  - split; [exact H1 | exact H2].
Qed.

(** The coercion succeeds exactly on the values with a string form, and
    throws a [TypeError] on the others. *)
Lemma ToString_cases (v : value) :
  (printable v = true -> exists s, ToString v = Ok s)
  /\ (printable v = false -> ToString v = Throw TypeError).
Proof.
  induction v as [| |b|n|s|items IH|props] using value_nested_ind;
    try (split; [intros _; eexists; reflexivity | discriminate]).
  - split; [intros _; destruct b; eexists; reflexivity | discriminate].
  - rewrite ToString_array. cbn [printable].
    induction IH as [|x xs Hx _ IHxs]; cbn [forallb mapM bind].
    + split; [intros _; eexists; reflexivity | discriminate].
    + destruct (join_item_ToString x (proj1 Hx) (proj2 Hx)) as [Hok Hbad].
      destruct (printable x); cbn [andb].
      * destruct (Hok eq_refl) as [s ->]. cbn [bind].
        destruct IHxs as [Hxs1 Hxs2]. split.
        -- intros Hp. destruct (Hxs1 Hp) as [t Ht].
           destruct (mapM join_item xs) as [ss|e]; [|discriminate Ht].
           eexists; reflexivity.
        -- intros Hp. specialize (Hxs2 Hp).
           destruct (mapM join_item xs) as [ss|e]; [discriminate Hxs2|].
           cbn [bind] in *. exact Hxs2.
      * split; [discriminate|]. intros _. now rewrite (Hbad eq_refl).
  - cbn [ToString printable]. destruct (has_own "toString" props); cbn [negb].
    + split; [discriminate | reflexivity].
    + split; [intros _; eexists; reflexivity | discriminate].
Qed.

Lemma ToString_spec (v : value) :
  ToString v = if printable v then Ok (printed v) else Throw TypeError.
Proof.
  destruct (ToString_cases v) as [H1 H2]. unfold printed.
  destruct (printable v).
  - destruct (H1 eq_refl) as [s ->]. reflexivity.
  - now apply H2.
Qed.

Lemma join_item_spec (v : value) :
  join_item v
  = if printable v
    then Ok match v with VUndef | VNull => "" | _ => printed v end
    else Throw TypeError.
Proof.
  pose proof (ToString_spec v) as H.
  destruct v; try reflexivity; exact H.
Qed.

(** [test] on a value. *)
Lemma test_spec (r : regex) (v : value) :
  test r v = if printable v then Ok (matches r (printed v)) else Throw TypeError.
Proof.
  unfold test. rewrite ToString_spec. now destruct (printable v).
Qed.

(** The elements of an array with a string form are joined. *)
Lemma mapM_join_item (items : list value) :
  forallb printable items = true -> exists strs, mapM join_item items = Ok strs.
Proof.
  induction items as [|x xs IH]; cbn [forallb mapM]; [eexists; reflexivity|].
  rewrite andb_true_iff. intros [Hx Hxs].
  rewrite join_item_spec, Hx. cbn [bind].
  destruct (IH Hxs) as [strs ->]. eexists; reflexivity.
Qed.

Lemma mapM_join_item_strings (tags : list string) :
  mapM join_item (map VStr tags) = Ok tags.
Proof.
  induction tags as [|t tags IH]; [reflexivity|].
  cbn [map mapM join_item ToString bind]. now rewrite IH.
Qed.

End JSFacts.

(* ===================================================================== *)
(** ** The classifier and the transformer *)
(* ===================================================================== *)

Module ClassifierFacts.
Import JS.
Import JobsRoute.
Import JobsSpec.
Import JSFacts.

Local Ltac in_list := simpl; repeat (first [left; reflexivity | right]).

Lemma categoryOf_closed (text : string) : In (categoryOf text) categories.
Proof.
  unfold categoryOf.
  repeat match goal with
         | |- context [if ?b then _ else _] => destruct b
         end; in_list.
Qed.

Lemma levelOf_closed (t : string) : In (levelOf t) levels.
Proof.
  unfold levelOf.
  repeat match goal with
         | |- context [if ?b then _ else _] => destruct b
         end; in_list.
Qed.

Lemma includes_any_none (s : string) (ks all : list string) :
  (forall k, In k all -> ~ substring_of k s) ->
  incl ks all ->
  includes_any s ks = false.
Proof.
  intros Hnone Hincl. apply includes_any_false_iff.
  rewrite Exists_exists. intros [k [Hin Hk]].
  exact (Hnone k (Hincl k Hin) Hk).
Qed.

Lemma categoryOf_default (text : string) :
  (forall k, In k category_keywords -> ~ substring_of k text) ->
  categoryOf text = "Software Development".
Proof.
  intros Hnone. unfold categoryOf.
  repeat (rewrite (includes_any_none text _ category_keywords Hnone);
          [| intros k Hk; simpl in Hk; unfold category_keywords; simpl; tauto]).
  reflexivity.
Qed.

Lemma determineCategory_closed (v : value) (c : string) :
  determineCategory v = Ok c -> In c categories.
Proof.
  unfold determineCategory.
  destruct v as [| |b|n|s|items|props]; cbn [bind]; try discriminate.
  - intros H. injection H as <-. apply categoryOf_closed.
  - destruct (mapM join_item items); cbn [bind]; [|discriminate].
    intros H. injection H as <-. apply categoryOf_closed.
Qed.

Lemma determineExperienceLevel_closed (v : value) (l : string) :
  determineExperienceLevel v = Ok l -> In l levels.
Proof.
  unfold determineExperienceLevel.
  destruct v; try discriminate. intros H; injection H as <-.
  apply levelOf_closed.
Qed.

(** C4: for every title, a Senior indicator in the lower-cased title gives
    "Senior", whether or not a Lead indicator occurs too; a Lead indicator
    with no Senior indicator gives "Lead"; a title with no Senior, Lead or
    Entry indicator gives "Mid-Level". *)
Theorem determineExperienceLevel_cascade (title : string) :
  let t := toLowerCase title in
  let has := fun ks => Exists (fun k => substring_of k t) ks in
  (has senior_indicators ->
   determineExperienceLevel (VStr title) = Ok "Senior")
  /\ (has senior_indicators -> has lead_indicators ->
      determineExperienceLevel (VStr title) = Ok "Senior")
  /\ (has lead_indicators -> ~ has senior_indicators ->
      determineExperienceLevel (VStr title) = Ok "Lead")
  /\ (~ has senior_indicators -> ~ has lead_indicators ->
      ~ has entry_indicators ->
      determineExperienceLevel (VStr title) = Ok "Mid-Level").
Proof.
  intros t has. unfold has, determineExperienceLevel, levelOf. fold t.
  repeat split.
  - intros Hs. apply includes_any_spec in Hs. now rewrite Hs.
  - intros Hs _. apply includes_any_spec in Hs. now rewrite Hs.
  - intros Hl Hs. apply includes_any_spec in Hl.
    apply includes_any_false_iff in Hs. now rewrite Hs, Hl.
  - intros Hs Hl He.
    apply includes_any_false_iff in Hs, Hl, He. now rewrite Hs, Hl, He.
Qed.

Lemma determineExperienceLevel_cascade_witness :
  determineExperienceLevel (VStr "Senior Team Lead") = Ok "Senior"
  /\ determineExperienceLevel (VStr "Staff Engineer") = Ok "Lead"
  /\ determineExperienceLevel (VStr "Accountant") = Ok "Mid-Level".
Proof.
  split; [| split].
  - apply (proj1 (proj2 (determineExperienceLevel_cascade "Senior Team Lead")));
      apply includes_any_spec; reflexivity.
  - apply (proj1 (proj2 (proj2 (determineExperienceLevel_cascade "Staff Engineer")))).
    + apply includes_any_spec; reflexivity.
    + apply includes_any_false_iff; reflexivity.
  - apply (proj2 (proj2 (proj2 (determineExperienceLevel_cascade "Accountant"))));
      apply includes_any_false_iff; reflexivity.
Defined.

(** C5: for every description, with the fragments being the pieces between
    runs of [. ! ?] whose trimmed length exceeds 10, [extractRequirements]
    returns the first three fragments, trimmed and in order, or the three
    fallback strings when there is no fragment; the result has between one
    and three entries; the empty description gives the fallback, and
    "A. B. Valid sentence here." gives its one long fragment. *)
Theorem extractRequirements_fragments (description : string) :
  let fragments :=
    filter (fun s => (10 <? length (trim s))%nat)
      (split_runs is_sentence_end description) in
  (exists reqs,
     extractRequirements (VStr description) = Ok reqs
     /\ reqs = match fragments with
               | [] => fallback_requirements
               | _ :: _ => map trim (firstn 3 fragments)
               end
     /\ (1 <= List.length reqs <= 3)%nat)
  /\ extractRequirements (VStr "") = Ok fallback_requirements
  /\ extractRequirements (VStr "A. B. Valid sentence here.")
     = Ok ["Valid sentence here"].
Proof.
  intros fragments. split; [| split; reflexivity].
  unfold extractRequirements, sentences_of. fold fragments. simpl truthy.
  destruct (description =? "") eqn:Hd; simpl.
  - apply String.eqb_eq in Hd. subst description.
    exists fallback_requirements. simpl. repeat split; lia.
  - destruct fragments as [|f fs] eqn:Hf; simpl.
    + exists fallback_requirements. simpl. repeat split; lia.
    + eexists. split; [reflexivity|]. split; [reflexivity|].
      destruct fs as [|f2 [|f3 fs]]; simpl; lia.
Qed.

(** The pieces [split_runs] returns hold no separator, and together they
    hold exactly the characters of the input that are not separators. *)
Lemma split_go_pieces (sep : ascii -> bool) (s : string) (after : bool) :
  Forall (fun piece => all_chars (fun c => negb (sep c)) piece = true)
    (split_go sep s after)
  /\ String.concat "" (split_go sep s after) = keep_chars (fun c => negb (sep c)) s
  /\ split_go sep s after <> [].
Proof.
  revert after. induction s as [|c s IH]; intros after; simpl.
  - repeat split; [repeat constructor | discriminate].
  - destruct (sep c) eqn:Hc; simpl.
    + destruct after.
      * apply IH.
      * destruct (IH true) as [H1 [H2 H3]]. repeat split.
        -- constructor; [reflexivity | assumption].
        -- simpl. destruct (split_go sep s true); [contradiction|]. exact H2.
        -- discriminate.
    + destruct (IH false) as [H1 [H2 H3]].
      destruct (split_go sep s false) as [|piece pieces]; [contradiction|].
      repeat split.
      * inversion H1; subst. constructor; [simpl; now rewrite Hc | assumption].
      * simpl in *. destruct pieces; simpl in *; now rewrite <- H2.
      * discriminate.
Qed.

End ClassifierFacts.

Module TransformerFacts.
Import JS.
Import TextSpec.
Import JobsRoute.
Import JobsSpec.
Import JSFacts.
Import ClassifierFacts.

Section Runtime.

Variable Date_now : Z.
Variable now_iso : string.
Variable toISOString : value -> result string.

Local Abbreviation transform := (transformRemoteOKJob Date_now now_iso toISOString).

Lemma get_field (r : value) (k : string) :
  r <> VUndef -> r <> VNull -> get r k = Ok (field r k).
Proof. destruct r; simpl; congruence. Qed.

(** What a successful transformation has computed. *)
Lemma transform_inv (r : value) (j : Job) :
  transform r = Ok j ->
  exists c l reqs posted,
    determineCategory (or_else (field r "tags") (VArr [])) = Ok c
    /\ determineExperienceLevel (or_else (field r "position") (VStr "")) = Ok l
    /\ extractRequirements (or_else (field r "description") (VStr "")) = Ok reqs
    /\ j = {| id := or_else (field r "id")
                      (or_else (field r "slug")
                         (VStr ("job-" ++ Z_to_string Date_now)));
              title := or_else (field r "position") (VStr "Untitled Position");
              company := or_else (field r "company") (VStr "Company Confidential");
              location := or_else (field r "location") (VStr "Remote");
              category := c;
              experienceLevel := l;
              type := "Full-time";
              salary := if truthy (field r "salary_min") && truthy (field r "salary_max")
                        then Some {| min := field r "salary_min";
                                     max := field r "salary_max";
                                     currency := "USD" |}
                        else None;
              description := or_else (field r "description")
                               (VStr "No description available");
              requirements := reqs;
              responsibilities := [];
              postedDate := posted;
              remote := true |}.
Proof.
  intros H.
  assert (Hr : r <> VUndef /\ r <> VNull)
    by (destruct r; simpl in H; try discriminate; split; discriminate).
  destruct Hr as [Hu Hn]. unfold transformRemoteOKJob in H.
  rewrite !(get_field r _ Hu Hn) in H. cbn [bind] in H.
  destruct (determineCategory _) as [c|] eqn:Hc; [|discriminate].
  cbn [bind] in H.
  destruct (determineExperienceLevel _) as [l|] eqn:Hl; [|discriminate].
  cbn [bind] in H.
  destruct (extractRequirements _) as [reqs|] eqn:Hq; [|discriminate].
  cbn [bind] in H.
  destruct (if truthy (field r "date") then _ else _) as [posted|] eqn:Hp;
    [|discriminate].
  cbn [bind] in H. injection H as <-.
  exists c, l, reqs, posted. repeat split; reflexivity.
Qed.

Lemma or_else_string (v : value) (dflt : string) :
  absent_or_string v = true -> is_string (or_else v (VStr dflt)) = true.
Proof.
  unfold absent_or_string, or_else. destruct (truthy v); simpl; auto.
Qed.

Lemma determineCategory_tags (t : value) :
  negb (truthy t) || is_string t || (is_array t && printable t) = true ->
  exists c, determineCategory (or_else t (VArr [])) = Ok c.
Proof.
  unfold or_else, determineCategory.
  destruct t as [| |b|n|s|items|props]; simpl; try discriminate;
    try (intros _; eexists; reflexivity).
  - destruct b; simpl; [discriminate | intros _; eexists; reflexivity].
  - destruct (n =? 0)%Z; simpl; [intros _; eexists; reflexivity | discriminate].
  - destruct (s =? ""); simpl; intros _; eexists; reflexivity.
  - intros Hp. destruct (mapM_join_item items Hp) as [strs ->].
    eexists; reflexivity.
Qed.

Lemma determineExperienceLevel_position (p : value) :
  absent_or_string p = true ->
  exists l, determineExperienceLevel (or_else p (VStr "")) = Ok l.
Proof.
  intros H. pose proof (or_else_string p "" H) as Hs.
  destruct (or_else p (VStr "")); try discriminate. eexists; reflexivity.
Qed.

Lemma extractRequirements_description (d : value) :
  absent_or_string d = true ->
  exists reqs, extractRequirements (or_else d (VStr "")) = Ok reqs.
Proof.
  intros H. pose proof (or_else_string d "" H) as Hs.
  destruct (or_else d (VStr "")) as [| | | |s| |]; try discriminate.
  unfold extractRequirements. destruct (truthy (VStr s)); eexists; reflexivity.
Qed.

(** A record of the expected shape is transformed, and the text fields of
    the job are strings. *)
Lemma transform_typed (r : value) :
  typed_record toISOString r = true ->
  exists j, transform r = Ok j
            /\ is_string (title j) = true
            /\ is_string (company j) = true
            /\ is_string (description j) = true.
Proof.
  destruct r as [| | | | | |props]; try discriminate.
  unfold typed_record. rewrite !andb_true_iff.
  intros [[[[Hpos Hcom] Hdes] Htags] Hdate].
  unfold transformRemoteOKJob. cbn [get bind].
  destruct (determineCategory_tags _ Htags) as [c ->]. cbn [bind].
  destruct (determineExperienceLevel_position _ Hpos) as [l ->]. cbn [bind].
  destruct (extractRequirements_description _ Hdes) as [reqs ->]. cbn [bind].
  assert (Hp : exists posted,
             (if truthy (lookup "date" props)
              then toISOString (lookup "date" props) else Ok now_iso) = Ok posted).
  { destruct (truthy (lookup "date" props)); simpl in Hdate.
    - destruct (toISOString (lookup "date" props)); [eexists; reflexivity | discriminate].
    - eexists; reflexivity. }
  destruct Hp as [posted ->]. cbn [bind].
  eexists. split; [reflexivity|]. cbn [title company description].
  repeat split; now apply or_else_string.
Qed.

(** C7 (as the code has it): for every external record that is
    transformed, the job has a salary exactly when [salary_min] and
    [salary_max] are both truthy, and the salary is then
    [{min: salary_min, max: salary_max, currency: 'USD'}]; so a salary is
    built only if both bounds are on the record, and a record missing
    either bound yields a job without salary.  Records of the expected
    shape are transformed. *)
Theorem salary_built_iff_truthy_bounds (r : value) :
  (forall j, transform r = Ok j ->
     salary j
     = (if truthy (field r "salary_min") && truthy (field r "salary_max")
        then Some {| min := field r "salary_min";
                     max := field r "salary_max";
                     currency := "USD" |}
        else None)
     /\ (forall s, salary j = Some s ->
           ~ missing r "salary_min" /\ ~ missing r "salary_max"
           /\ get r "salary_min" = Ok (min s)
           /\ get r "salary_max" = Ok (max s)
           /\ currency s = "USD")
     /\ (missing r "salary_min" \/ missing r "salary_max" -> salary j = None))
  /\ (typed_record toISOString r = true -> exists j, transform r = Ok j).
Proof.
  split.
  - intros j Hj.
    assert (Hr : r <> VUndef /\ r <> VNull)
      by (destruct r; simpl in Hj; try discriminate; split; discriminate).
    destruct Hr as [Hu Hn].
    destruct (transform_inv r j Hj) as [c [l [reqs [posted [_ [_ [_ ->]]]]]]].
    cbn [salary]. unfold missing. rewrite !(get_field r _ Hu Hn).
    split; [reflexivity | split].
    + intros s Hs.
      destruct (truthy (field r "salary_min")) eqn:Hmin; [|discriminate].
      destruct (truthy (field r "salary_max")) eqn:Hmax; [|discriminate].
      injection Hs as <-. cbn [min max currency].
      repeat split; try reflexivity; intros E; injection E as E.
      * rewrite E in Hmin. discriminate.
      * rewrite E in Hmax. discriminate.
    + intros [E|E]; injection E as ->; simpl; [reflexivity|].
      now rewrite andb_false_r.
  - intros Ht. destruct (transform_typed r Ht) as [j [Hj _]]. now exists j.
Qed.

End Runtime.

Lemma salary_built_iff_truthy_bounds_witness :
  exists j,
    transformRemoteOKJob Samples.clock_ms Samples.clock_iso Samples.date_iso
      Samples.job_no_salary = Ok j
    /\ salary j = None.
Proof.
  eexists. split; [reflexivity|].
  apply (proj1 (salary_built_iff_truthy_bounds Samples.clock_ms Samples.clock_iso
                  Samples.date_iso Samples.job_no_salary) _ eq_refl).
  left. reflexivity.
Defined.

(** A record carrying both bounds, the lower one being the number 0, is
    transformed into a job without salary. *)
Lemma salary_zero_bound_counterexample :
  ~ missing Samples.job_zero_min "salary_min"
  /\ ~ missing Samples.job_zero_min "salary_max"
  /\ exists j,
       transformRemoteOKJob Samples.clock_ms Samples.clock_iso Samples.date_iso
         Samples.job_zero_min = Ok j
       /\ salary j = None.
Proof.
  split; [discriminate | split; [discriminate|]].
  eexists. split; reflexivity.
Qed.

(** C6: [determineCategory] answers with one of the twelve categories
    whenever it answers, it does answer on every string and on every list
    of strings, and it answers "Software Development" when no keyword
    occurs; [determineExperienceLevel] answers with one of the four levels
    on every string, and with "Mid-Level" when no indicator occurs; hence
    every job the transformer builds has its category and its experience
    level in these sets. *)
Theorem classification_closed :
  (forall v c, determineCategory v = Ok c -> In c categories)
  /\ (forall s : string, exists c,
        determineCategory (VStr s) = Ok c /\ In c categories)
  /\ (forall tags : list string, exists c,
        determineCategory (VArr (map VStr tags)) = Ok c /\ In c categories)
  /\ (forall s : string,
        (forall k, In k category_keywords -> ~ substring_of k (toLowerCase s)) ->
        determineCategory (VStr s) = Ok "Software Development")
  /\ (forall s : string, exists l,
        determineExperienceLevel (VStr s) = Ok l /\ In l levels)
  /\ (forall s : string,
        (forall k, In k (senior_indicators ++ lead_indicators ++ entry_indicators) ->
                   ~ substring_of k (toLowerCase s)) ->
        determineExperienceLevel (VStr s) = Ok "Mid-Level")
  /\ (forall Date_now now_iso toISOString r j,
        transformRemoteOKJob Date_now now_iso toISOString r = Ok j ->
        In (category j) categories /\ In (experienceLevel j) levels).
Proof.
  repeat split.
  - apply determineCategory_closed.
  - intros s. eexists. split; [reflexivity | apply categoryOf_closed].
  - intros tags. unfold determineCategory.
    rewrite mapM_join_item_strings. cbn [bind].
    eexists. split; [reflexivity | apply categoryOf_closed].
  - intros s Hnone. unfold determineCategory. cbn [bind].
    now rewrite categoryOf_default.
  - intros s. eexists. split; [reflexivity | apply levelOf_closed].
  - intros s Hnone. unfold determineExperienceLevel, levelOf.
    rewrite !(includes_any_none (toLowerCase s) _ _ Hnone); [reflexivity| | |];
      intros k Hk; rewrite !in_app_iff; tauto.
  - destruct (transform_inv _ _ _ _ _ H) as [c [l [reqs [posted [Hc [_ [_ ->]]]]]]].
    cbn [category]. now apply determineCategory_closed in Hc.
  - destruct (transform_inv _ _ _ _ _ H) as [c [l [reqs [posted [_ [Hl [_ ->]]]]]]].
    cbn [experienceLevel]. now apply determineExperienceLevel_closed in Hl.
Qed.

Lemma classification_closed_witness :
  exists j,
    transformRemoteOKJob Samples.clock_ms Samples.clock_iso Samples.date_iso
      Samples.job1 = Ok j
    /\ In (category j) categories /\ In (experienceLevel j) levels.
Proof.
  eexists. split; [reflexivity|].
  apply (proj2 (proj2 (proj2 (proj2 (proj2 (proj2 classification_closed)))))
           Samples.clock_ms Samples.clock_iso Samples.date_iso Samples.job1 _ eq_refl).
Defined.

End TransformerFacts.

(* ===================================================================== *)
(** ** The listing handler *)
(* ===================================================================== *)

Module ListingFacts.
Import JS.
Import JobsRoute.
Import JobsSpec.
Import JSFacts.
Import TransformerFacts.

Section Runtime.

Variable Date_now : Z.
Variable now_iso : string.
Variable toISOString : value -> result string.

Local Abbreviation transform := (transformRemoteOKJob Date_now now_iso toISOString).
Local Abbreviation handler := (GET Date_now now_iso toISOString).

Lemma matches_query_pure (query : string) (j : Job) :
  texts_are_strings j ->
  matches_query (toLowerCase query) j = Ok (query_hit query j).
Proof.
  intros [Ht [Hc Hd]]. unfold matches_query, query_hit.
  destruct (title j); try discriminate.
  destruct (company j); try discriminate.
  destruct (description j); try discriminate.
  cbn [lower_of bind text_of].
  destruct (includes (toLowerCase s) _); [reflexivity|]. cbn [bind orb].
  destruct (includes (toLowerCase s0) _); [reflexivity|]. cbn [bind orb].
  destruct (includes (toLowerCase s1) _); reflexivity.
Qed.

Lemma filter_true {A} (xs : list A) : filter (fun _ => true) xs = xs.
Proof. induction xs; simpl; congruence. Qed.

(** One exact-match step of the handler is a [filter] by [exact]. *)
Lemma exact_step (param : option string) (sentinel : string)
    (get_field : Job -> string) (js : list Job) :
  match param with
  | Some p => if active (Some p) sentinel
              then filter (fun job => get_field job =? p) js
              else js
  | None => js
  end = filter (fun job => exact param sentinel (get_field job)) js.
Proof.
  destruct param as [p|]; simpl; [|now rewrite filter_true].
  destruct (p =? ""); simpl; [now rewrite filter_true|].
  destruct (p =? sentinel); simpl; [now rewrite filter_true | reflexivity].
Qed.

Lemma active_false_exact (param : option string) (sentinel field : string) :
  active param sentinel = false -> exact param sentinel field = true.
Proof.
  destruct param as [p|]; simpl; [|reflexivity].
  destruct (p =? ""); simpl; [reflexivity|].
  destruct (p =? sentinel); simpl; [reflexivity | discriminate].
Qed.

(** The handler on an upstream array whose id-carrying records have the
    expected shape. *)
Lemma listJobs_typed (sp : searchParams) (items : list value) :
  Forall (fun r => typed_record toISOString r = true) (filter has_id (tl items)) ->
  exists js,
    Forall2 (fun r j => transform r = Ok j) (filter has_id (tl items)) js
    /\ listJobs Date_now now_iso toISOString sp (VArr items)
       = Ok (filter (keep sp) js).
Proof.
  intros Htyped.
  assert (Hall : Forall (fun r => exists j, transform r = Ok j /\ texts_are_strings j)
                   (filter has_id (tl items))).
  { eapply Forall_impl; [|exact Htyped]. intros r Hr.
    destruct (transform_typed Date_now now_iso toISOString r Hr) as [j [Hj Hs]].
    now exists j. }
  assert (Hjs : exists js,
             Forall2 (fun r j => transform r = Ok j) (filter has_id (tl items)) js
             /\ Forall texts_are_strings js).
  { clear Htyped. induction Hall as [|r rs [j [Hj Hs]] _ [js [H2 Hf]]].
    - exists []. split; constructor.
    - exists (j :: js). split; constructor; assumption. }
  destruct Hjs as [js [H2 Hstr]]. exists js. split; [exact H2|].
  unfold listJobs. apply mapM_Forall2 in H2. rewrite H2. cbn [bind].
  assert (Hq : (if negb (query_of sp =? "") && negb (trim (query_of sp) =? "")
                then filterM (matches_query (toLowerCase (query_of sp))) js
                else Ok js)
               = Ok (filter (fun j => if trim (query_of sp) =? "" then true
                                      else query_hit (query_of sp) j) js)).
  { destruct (trim (query_of sp) =? "") eqn:Hblank.
    - rewrite andb_false_r. now rewrite filter_true.
    - assert (Hne : (query_of sp =? "") = false).
      { destruct (query_of sp =? "") eqn:E; [|reflexivity].
        apply String.eqb_eq in E. rewrite E in Hblank. discriminate. }
      rewrite Hne. simpl. apply filterM_pure.
      eapply Forall_impl; [|exact Hstr]. intros j Hj.
      now apply matches_query_pure. }
  rewrite Hq. cbn [bind].
  rewrite (exact_step (experienceLevel_of sp) "All Levels" experienceLevel).
  rewrite (exact_step (p_category sp) "All Categories" category).
  rewrite (exact_step (p_jobType sp) "All Types" type).
  rewrite !filter_filter. f_equal. apply filter_ext.
  intros j. unfold keep, exact_filters. now rewrite !andb_assoc.
Qed.

Lemma keep_no_filters (sp : searchParams) (js : list Job) :
  no_filters sp -> filter (keep sp) js = js.
Proof.
  intros [Hq [He [Hc Ht]]]. rewrite <- (filter_true js) at 2.
  apply filter_ext. intros j. unfold keep, exact_filters.
  rewrite Hq. simpl.
  now rewrite !active_false_exact.
Qed.

(** C1 (as the code has it): for every upstream array whose records with a
    truthy [id] have the expected shape (text fields that are strings when
    given, tags that are a string or an array of values with a string
    form, a valid date), the handler answers with the jobs
    obtained by dropping the first element, dropping every record whose
    [id] is missing or falsy, transforming the rest, and keeping a job iff
    the query is blank or its lower-casing occurs in the lower-cased title,
    company, description or category, and each of the experience level,
    category and job type parameters that is present, non-empty and not
    its sentinel equals the job's field.  For [metadata; job1; job2] with
    no filter the answer is the two transformed jobs; the first element
    never matters. *)
Theorem listJobs_pipeline (sp : searchParams) (items : list value)
    (status : Z) (statusText : string) :
  Forall (fun r => typed_record toISOString r = true) (filter has_id (tl items)) ->
  (exists js,
     Forall2 (fun r j => transform r = Ok j) (filter has_id (tl items)) js
     /\ handler sp (Answer true status statusText (Ok (VArr items)))
        = Listing (filter (keep sp) js) (List.length (filter (keep sp) js)))
  /\ (forall first,
        handler sp (Answer true status statusText (Ok (VArr (first :: tl items))))
        = handler sp (Answer true status statusText (Ok (VArr items))))
  /\ (forall first r1 r2,
        items = [first; r1; r2] ->
        has_id r1 = true -> has_id r2 = true -> no_filters sp ->
        exists j1 j2,
          transform r1 = Ok j1 /\ transform r2 = Ok j2
          /\ handler sp (Answer true status statusText (Ok (VArr items)))
             = Listing [j1; j2] 2).
Proof.
  intros Htyped.
  destruct (listJobs_typed sp items Htyped) as [js [H2 Hl]].
  assert (Hget : handler sp (Answer true status statusText (Ok (VArr items)))
                 = Listing (filter (keep sp) js) (List.length (filter (keep sp) js))).
  { unfold GET. cbn [negb bind]. now rewrite Hl. }
  split; [| split].
  - exists js. split; assumption.
  - intros first. destruct items as [|x xs]; reflexivity.
  - intros first r1 r2 -> H1 H2' Hnone.
    rewrite Hget. rewrite (keep_no_filters sp js Hnone).
    cbn [tl filter] in H2. rewrite H1, H2' in H2.
    inversion H2 as [|? j1 ? js1 Hj1 Hrest]; subst.
    inversion Hrest as [|? j2 ? js2 Hj2 Hnil]; subst.
    inversion Hnil; subst.
    exists j1, j2. repeat split; assumption.
Qed.

End Runtime.

Lemma listJobs_pipeline_witness :
  exists j1 j2,
    GET Samples.clock_ms Samples.clock_iso Samples.date_iso Samples.no_params
      (Answer true 200 "OK"
         (Ok (VArr [Samples.metadata; Samples.job1; Samples.job2])))
    = Listing [j1; j2] 2.
Proof.
  assert (Htyped : Forall (fun r => typed_record Samples.date_iso r = true)
                     (filter has_id
                        (tl [Samples.metadata; Samples.job1; Samples.job2])))
    by (simpl; repeat constructor).
  destruct (proj2 (proj2
    (listJobs_pipeline Samples.clock_ms Samples.clock_iso Samples.date_iso
       Samples.no_params [Samples.metadata; Samples.job1; Samples.job2] 200 "OK"
       Htyped))
    Samples.metadata Samples.job1 Samples.job2 eq_refl eq_refl eq_refl
    (conj eq_refl (conj eq_refl (conj eq_refl eq_refl))))
    as [j1 [j2 [_ [_ H]]]].
  exists j1, j2. exact H.
Defined.

(** The handler departs from the recipe read literally: a query of two
    spaces is not empty, yet a job in which it does not occur is listed; a
    record whose [id] is the number 0 has an [id], yet it is dropped; a
    record whose [position] is a number, or one of whose tags is an object
    with a [toString] property, makes the handler answer with a
    failure. *)
Lemma listJobs_literal_counterexample :
  (exists j,
      GET Samples.clock_ms Samples.clock_iso Samples.date_iso Samples.blank_query
        (Answer true 200 "OK" (Ok (VArr [Samples.metadata; Samples.job2])))
      = Listing [j] 1
      /\ query_of Samples.blank_query <> ""
      /\ keep_nonempty_query Samples.blank_query j = false)
  /\ (~ missing Samples.job_id_zero "id"
      /\ GET Samples.clock_ms Samples.clock_iso Samples.date_iso Samples.no_params
           (Answer true 200 "OK" (Ok (VArr [Samples.metadata; Samples.job_id_zero])))
         = Listing [] 0)
  /\ (~ missing Samples.job_numeric_position "id"
      /\ GET Samples.clock_ms Samples.clock_iso Samples.date_iso Samples.no_params
           (Answer true 200 "OK"
              (Ok (VArr [Samples.metadata; Samples.job_numeric_position])))
         = Failure TypeError)
  /\ (~ missing Samples.job_unprintable_tag "id"
      /\ GET Samples.clock_ms Samples.clock_iso Samples.date_iso Samples.no_params
           (Answer true 200 "OK"
              (Ok (VArr [Samples.metadata; Samples.job1;
                         Samples.job_unprintable_tag])))
         = Failure TypeError).
Proof.
  split; [| split; [| split]].
  - eexists. split; [reflexivity|]. split; [discriminate | reflexivity].
  - split; [discriminate | reflexivity].
  - split; [discriminate | reflexivity].
  - split; [discriminate | reflexivity].
Qed.

End ListingFacts.

(* ===================================================================== *)
(** ** The validator *)
(* ===================================================================== *)

Module ValidatorFacts.
Import JS.
Import ApplyRoute.
Import TextSpec.
Import JobsSpec.
Import ApplySpec.
Import JSFacts.

Local Arguments violated : simpl never.

Lemma required_string_cond (v : value) :
  negb (truthy v) || negb (is_string v)
  = match v with VStr s => s =? "" | _ => true end.
Proof.
  destruct v as [| |b|n|s|items|props]; simpl; try reflexivity.
  - now rewrite orb_true_r.
  - now rewrite orb_true_r.
  - now rewrite negb_involutive, orb_false_r.
Qed.

Lemma min_length_cond (v : value) (n : nat) :
  (0 < n)%nat ->
  negb (truthy v) || negb (is_string v) || (length (trim (str_of v)) <? n)%nat
  = match v with VStr s => (length (trim s) <? n)%nat | _ => true end.
Proof.
  intros Hn.
  destruct v as [| |b|z|s|items|props]; simpl; try reflexivity.
  - now rewrite orb_true_r.
  - now rewrite orb_true_r.
  - rewrite negb_involutive, orb_false_r.
    destruct (s =? "") eqn:E; simpl; [|reflexivity].
    apply String.eqb_eq in E. subst s. simpl. symmetry.
    apply Nat.ltb_lt. exact Hn.
Qed.

Lemma years_cond (y : value) :
  negb (is_undefined y)
  && (negb (is_number y)
      || match y with VNum n => (n <? 0)%Z | _ => false end)
  = match y with
    | VUndef => false
    | VNum n => (n <? 0)%Z
    | _ => true
    end.
Proof. destruct y; reflexivity. Qed.

Lemma optional_cond (v : value) (bad : string -> bool) :
  truthy v && is_string v && negb (trim (str_of v) =? "") && bad (str_of v)
  = match v with VStr s => nonblank s && bad s | _ => false end.
Proof.
  destruct v as [| |b|z|s|items|props]; simpl; try reflexivity.
  - now rewrite andb_false_r.
  - now rewrite andb_false_r.
  - unfold nonblank. rewrite andb_true_r.
    destruct (s =? "") eqn:E; simpl; [|reflexivity].
    apply String.eqb_eq in E. now subst s.
Qed.

Lemma guarded_push (g c : bool) (msg : string) (errors : list string) :
  (if g then push_if c msg errors else errors) = push_if (g && c) msg errors.
Proof. destruct g; reflexivity. Qed.

(** The phone rule: the check throws exactly on [phone_crashes], and
    otherwise tells whether the rule is violated. *)
Lemma phone_cond (U : string -> bool) (props : list (string * value)) :
  (if negb (truthy (lookup "phone" props)) then Ok true
   else ok <- isValidPhone (lookup "phone" props) ;; Ok (negb ok))
  = if phone_crashes (VObj props) then Throw TypeError
    else Ok (violated U (VObj props) RPhone).
Proof.
  unfold phone_crashes, violated, isValidPhone. cbn [field].
  rewrite test_spec.
  destruct (lookup "phone" props) as [| |b|z|s|items|ps];
    cbn [truthy is_string negb andb orb bind printable]; try reflexivity.
  - destruct b; cbn [negb andb]; [|reflexivity].
    destruct (matches phoneRegex _); reflexivity.
  - destruct (z =? 0)%Z; cbn [negb andb]; [reflexivity|].
    destruct (matches phoneRegex _); reflexivity.
  - change (printed (VStr s)) with s.
    unfold phoneRegex. rewrite matches_class_plus.
    rewrite andb_false_r.
    destruct (s =? ""); cbn [negb andb]; [reflexivity|].
    destruct (all_chars phone_char s); reflexivity.
  - destruct (forallb printable items); cbn [negb orb bind]; [|reflexivity].
    destruct (matches phoneRegex _); reflexivity.
  - destruct (has_own "toString" ps); cbn [negb orb bind]; [reflexivity|].
    destruct (matches phoneRegex _); reflexivity.
Qed.

(** The email rule: the check throws exactly on [email_crashes], and
    otherwise tells whether the rule is violated. *)
Lemma email_cond (U : string -> bool) (props : list (string * value)) :
  (if negb (truthy (lookup "email" props)) then Ok true
   else ok <- isValidEmail (lookup "email" props) ;; Ok (negb ok))
  = if email_crashes (VObj props) then Throw TypeError
    else Ok (violated U (VObj props) REmail).
Proof.
  unfold email_crashes, violated, isValidEmail. cbn [field].
  rewrite test_spec.
  destruct (truthy (lookup "email" props)); cbn [negb andb]; [|reflexivity].
  destruct (printable (lookup "email" props)); reflexivity.
Qed.

(** The pattern on a few addresses. *)
Lemma isValidEmail_examples :
  isValidEmail (VStr "a@b.com") = Ok true
  /\ isValidEmail (VStr "first.last@mail.example.org") = Ok true
  /\ isValidEmail (VStr "a@b") = Ok false
  /\ isValidEmail (VStr "a b@c.d") = Ok false
  /\ isValidEmail (VStr "a@b@c.d") = Ok false
  /\ isValidEmail (VStr "@b.c") = Ok false
  /\ isValidEmail (VStr "") = Ok false
  /\ isValidEmail (VNum 5) = Ok false
  /\ isValidEmail (VArr [VStr "a@b.com"]) = Ok true
  /\ isValidEmail (VObj [("toString", VNum 1)]) = Throw TypeError.
Proof. repeat split. Qed.

(** The addresses the pattern accepts. *)
Lemma isValidEmail_shape (s : string) :
  isValidEmail (VStr s) = Ok true <-> email_shape s.
Proof.
  unfold isValidEmail, test, emailRegex, email_shape. cbn [ToString bind].
  split.
  - intros H. injection H as H. apply matches_spec in H.
    apply lang_Seq_inv in H. destruct H as [local [s1 [-> [Hl H]]]].
    apply lang_Seq_inv in H. destruct H as [at_ [s2 [-> [Hat H]]]].
    apply lang_Seq_inv in H. destruct H as [domain [s3 [-> [Hd H]]]].
    apply lang_Seq_inv in H. destruct H as [dot [tld [-> [Hdot Ht]]]].
    apply lang_char in Hat, Hdot. subst at_ dot.
    apply lang_class_plus in Hl, Hd, Ht.
    exists local, domain, tld. tauto.
  - intros [local [domain [tld [-> [Hl1 [Hl2 [Hd1 [Hd2 [Ht1 Ht2]]]]]]]]].
    f_equal. apply matches_spec.
    constructor; [now apply lang_class_plus|].
    change ("@" ++ domain ++ "." ++ tld) with ("@" ++ (domain ++ "." ++ tld)).
    constructor; [now apply lang_char|].
    constructor; [now apply lang_class_plus|].
    constructor; [now apply lang_char | now apply lang_class_plus].
Qed.

Section Runtime.

Variable URL_parses : string -> bool.

Local Abbreviation validate := (validateApplication URL_parses).
Local Abbreviation broken := (violated URL_parses).

(** Each condition of the validator is the violation of its rule. *)
Lemma jobId_cond (props : list (string * value)) :
  negb (truthy (lookup "jobId" props)) || negb (is_string (lookup "jobId" props))
  = broken (VObj props) RJobId.
Proof. apply required_string_cond. Qed.

Lemma applicantName_cond (props : list (string * value)) :
  negb (truthy (lookup "applicantName" props))
  || negb (is_string (lookup "applicantName" props))
  || (length (trim (str_of (lookup "applicantName" props))) <? 2)%nat
  = broken (VObj props) RApplicantName.
Proof. apply min_length_cond. lia. Qed.

Lemma coverLetter_cond (props : list (string * value)) :
  negb (truthy (lookup "coverLetter" props))
  || negb (is_string (lookup "coverLetter" props))
  || (length (trim (str_of (lookup "coverLetter" props))) <? 50)%nat
  = broken (VObj props) RCoverLetter.
Proof. apply min_length_cond. lia. Qed.

Lemma yearsOfExperience_cond (props : list (string * value)) :
  negb (is_undefined (lookup "yearsOfExperience" props))
  && (negb (is_number (lookup "yearsOfExperience" props))
      || match lookup "yearsOfExperience" props with
         | VNum n => (n <? 0)%Z
         | _ => false
         end)
  = broken (VObj props) RYearsOfExperience.
Proof. apply years_cond. Qed.

Lemma linkedIn_cond (props : list (string * value)) :
  truthy (lookup "linkedIn" props) && is_string (lookup "linkedIn" props)
  && negb (trim (str_of (lookup "linkedIn" props)) =? "")
  && negb (includes (str_of (lookup "linkedIn" props)) "linkedin.com")
  = broken (VObj props) RLinkedIn.
Proof.
  exact (optional_cond (lookup "linkedIn" props)
           (fun s => negb (includes s "linkedin.com"))).
Qed.

Lemma portfolio_cond (props : list (string * value)) :
  truthy (lookup "portfolio" props) && is_string (lookup "portfolio" props)
  && negb (trim (str_of (lookup "portfolio" props)) =? "")
  && negb (URL_parses (str_of (lookup "portfolio" props)))
  = broken (VObj props) RPortfolio.
Proof.
  exact (optional_cond (lookup "portfolio" props) (fun s => negb (URL_parses s))).
Qed.

(** The validator on an object: it throws on [validator_crashes], and
    otherwise lists the messages of the violated rules in rule order. *)
Lemma validate_object (props : list (string * value)) :
  validate (VObj props)
  = if validator_crashes (VObj props) then Throw TypeError
    else Ok {| valid := (List.length (filter (broken (VObj props)) all_rules) =? 0)%nat;
               errors := map message (filter (broken (VObj props)) all_rules) |}.
Proof.
  unfold validateApplication, validator_crashes. cbn [get bind].
  rewrite (email_cond URL_parses props).
  destruct (email_crashes (VObj props)); [reflexivity|]. cbn [bind orb].
  rewrite (phone_cond URL_parses props).
  destruct (phone_crashes (VObj props)); [reflexivity|]. cbn [bind].
  rewrite !guarded_push.
  rewrite (jobId_cond props), (applicantName_cond props),
    (coverLetter_cond props), (yearsOfExperience_cond props),
    (linkedIn_cond props), (portfolio_cond props).
  cbn [all_rules filter].
  destruct (broken (VObj props) RJobId), (broken (VObj props) RApplicantName),
    (broken (VObj props) REmail), (broken (VObj props) RPhone),
    (broken (VObj props) RCoverLetter), (broken (VObj props) RYearsOfExperience),
    (broken (VObj props) RLinkedIn), (broken (VObj props) RPortfolio);
    reflexivity.
Qed.



Lemma length_zero_nil {A} (xs : list A) :
  (List.length xs =? 0)%nat = true <-> xs = [].
Proof. destruct xs; simpl; split; congruence. Qed.


End Runtime.



End ValidatorFacts.

(* ===================================================================== *)
(** ** The submission handler and the store *)
(* ===================================================================== *)

Module StoreFacts.
Import JS.
Import ApplyRoute.
Import JobsSpec.
Import ApplySpec.
Import JSFacts.
Import ValidatorFacts.

Local Arguments violated : simpl never.

Lemma filter_nil_all {A} (f : A -> bool) (xs : list A) :
  filter f xs = [] -> forall x, In x xs -> f x = false.
Proof.
  induction xs as [|y ys IH]; simpl; [contradiction|].
  destruct (f y) eqn:Hy; [discriminate|].
  intros H x [<-|Hin]; auto.
Qed.

Lemma substring_all_chars (p : ascii -> bool) (n : nat) (s : string) :
  all_chars p s = true -> all_chars p (substring 0 n s) = true.
Proof.
  revert s. induction n as [|n IH]; intros [|c s]; simpl; auto.
  rewrite !andb_true_iff. intros [Hc Hs]. auto.
Qed.

Lemma substring_nonempty (n : nat) (s : string) :
  s <> "" -> substring 0 (S n) s <> "".
Proof. destruct s; simpl; congruence. Qed.

Section Runtime.

Variable URL_parses : string -> bool.
Variable Date_now : Z.
Variable random36 : string.
Variable now_iso : string.
Variable native_message : exn -> string.

Local Abbreviation validate := (validateApplication URL_parses).
Local Abbreviation broken := (violated URL_parses).
Local Abbreviation post := (POST URL_parses Date_now random36 now_iso).

(** The generated identifier has the shape [app-<digits>-<alnum>]. *)
Lemma generated_id_pattern :
  (0 <= Date_now)%Z -> base36_fraction random36 ->
  id_pattern ("app-" ++ Z_to_string Date_now ++ "-" ++ substring 2 9 random36).
Proof.
  intros Hnow [frac [-> [Hne Hfrac]]].
  destruct (Z_to_string_digits Date_now Hnow) as [Hd1 Hd2].
  exists (Z_to_string Date_now), (substring 0 9 frac).
  repeat split; auto.
  - now apply substring_nonempty.
  - apply substring_all_chars.
    apply (all_chars_impl (fun c => is_digit c || is_lower c)); [|exact Hfrac].
    intros c Hc. unfold is_alnum. now rewrite Hc.
Qed.

(** A body that is not an object has no [jobId], so it is never valid. *)
Lemma validate_valid_object (body : value) (v : validation) :
  validate body = Ok v -> valid v = true ->
  exists props, body = VObj props.
Proof.
  intros Hv Hvalid.
  destruct body as [| |b|n|s|items|props]; [| | | | | |now exists props];
    vm_compute in Hv; try discriminate Hv;
    injection Hv as <-; discriminate Hvalid.
Qed.

(** What validity says of the required fields. *)
Lemma valid_fields (props : list (string * value)) (v : validation) :
  validate (VObj props) = Ok v -> valid v = true ->
  is_string (lookup "applicantName" props) = true
  /\ is_string (lookup "phone" props) = true
  /\ is_string (lookup "coverLetter" props) = true.
Proof.
  intros Hv Hvalid. rewrite validate_object in Hv.
  destruct (validator_crashes (VObj props)); [discriminate|].
  remember (filter (broken (VObj props)) all_rules) as bad eqn:Hbad.
  injection Hv as <-. cbn [valid] in Hvalid.
  apply length_zero_nil in Hvalid. subst bad.
  pose proof (filter_nil_all _ _ Hvalid) as Hnone.
  assert (Hn : broken (VObj props) RApplicantName = false)
    by (apply Hnone; simpl; tauto).
  assert (Hp : broken (VObj props) RPhone = false)
    by (apply Hnone; simpl; tauto).
  assert (Hc : broken (VObj props) RCoverLetter = false)
    by (apply Hnone; simpl; tauto).
  unfold violated in Hn, Hp, Hc. cbn [field] in Hn, Hp, Hc.
  repeat split.
  - destruct (lookup "applicantName" props); try reflexivity; discriminate Hn.
  - destruct (lookup "phone" props); try reflexivity; discriminate Hp.
  - destruct (lookup "coverLetter" props); try reflexivity; discriminate Hc.
Qed.

(** The answer is not 201 and the store is what it was. *)
Local Ltac untouched := simpl; left; split; [discriminate | reflexivity].

(** The store changes only by the one record of a 201 answer. *)
Lemma POST_store (applications : list application) (request : result value) :
  (status_of (fst (post applications request)) <> 201%Z
   /\ snd (post applications request) = applications)
  \/ (status_of (fst (post applications request)) = 201%Z
      /\ exists a, snd (post applications request) = (applications ++ [a])%list).
Proof.
  unfold POST.
  destruct request as [body|e]; cbn [bind]; [| destruct e; untouched].
  destruct (validate body) as [v|e]; cbn [bind]; [| destruct e; untouched].
  destruct (valid v); cbn [negb]; [| untouched].
  repeat match goal with
         | |- context [bind ?m _] =>
             destruct m as [?|[]]; cbn [bind]; try untouched
         end.
  right. split; [reflexivity | eexists; reflexivity].
Qed.

(** C2 (as the code has it): for every request body, if the validator
    rejects it the answer is HTTP 400 with [success = false], the message
    "Validation failed" and the itemized errors, and the store is
    unchanged; if the validator accepts it and [email], [linkedIn] and
    [portfolio] are strings when supplied, the answer is HTTP 201 with
    [success = true] and exactly one record is appended, whose [id] is
    "app-", the clock in milliseconds, "-" and the random suffix (of the
    shape [app-<digits>-<alnum>]), whose [submittedAt] is the current
    timestamp, whose [email] is trimmed and lower-cased, whose
    [applicantName], [phone], [coverLetter], [linkedIn] and [portfolio] are
    trimmed, and whose [jobId] is stored as submitted; in every case the
    store is unchanged unless the answer is 201. *)
Theorem POST_outcomes (applications : list application) (body : value) :
  (forall v, validate body = Ok v -> valid v = false ->
     post applications (Ok body) = (ValidationFailed (errors v), applications)
     /\ status_of (fst (post applications (Ok body))) = 400%Z
     /\ success_of (fst (post applications (Ok body))) = false
     /\ message_of native_message (fst (post applications (Ok body)))
        = "Validation failed"
     /\ errors_of (fst (post applications (Ok body))) = Some (errors v))
  /\ (forall v, validate body = Ok v -> valid v = true ->
        is_string (field body "email") = true ->
        optional_string (field body "linkedIn") = true ->
        optional_string (field body "portfolio") = true ->
        exists a,
          post applications (Ok body)
          = (Created (id a) (submittedAt a) (jobId a), (applications ++ [a])%list)
          /\ status_of (fst (post applications (Ok body))) = 201%Z
          /\ success_of (fst (post applications (Ok body))) = true
          /\ id a = "app-" ++ Z_to_string Date_now ++ "-" ++ substring 2 9 random36
          /\ ((0 <= Date_now)%Z -> base36_fraction random36 -> id_pattern (id a))
          /\ submittedAt a = now_iso
          /\ jobId a = field body "jobId"
          /\ applicantName a = trim (text_of (field body "applicantName"))
          /\ email a = toLowerCase (trim (text_of (field body "email")))
          /\ phone a = trim (text_of (field body "phone"))
          /\ coverLetter a = trim (text_of (field body "coverLetter"))
          /\ linkedIn a = trimmed_or_absent (field body "linkedIn")
          /\ portfolio a = trimmed_or_absent (field body "portfolio")
          /\ yearsOfExperience a
             = or_else (field body "yearsOfExperience") (VNum 0))
  /\ (forall request,
        status_of (fst (post applications request)) <> 201%Z ->
        snd (post applications request) = applications).
Proof.
  split; [| split].
  - intros v Hv Hbad.
    assert (Hpost : post applications (Ok body)
                    = (ValidationFailed (errors v), applications)).
    { unfold POST. cbn [bind]. rewrite Hv. cbn [bind]. now rewrite Hbad. }
    rewrite Hpost. repeat split.
  - intros v Hv Hok Hemail Hlinked Hport.
    destruct (validate_valid_object body v Hv Hok) as [props ->].
    destruct (valid_fields props v Hv Hok) as [Hn [Hp Hc]].
    cbn [field] in *.
    unfold POST. cbn [bind]. rewrite Hv. cbn [bind]. rewrite Hok.
    cbn [negb get bind].
    destruct (lookup "applicantName" props) as [| | | |name| |]; try discriminate.
    destruct (lookup "email" props) as [| | | |mail| |]; try discriminate.
    destruct (lookup "phone" props) as [| | | |tel| |]; try discriminate.
    destruct (lookup "coverLetter" props) as [| | | |letter| |]; try discriminate.
    cbn [trim_of bind].
    destruct (lookup "linkedIn" props) as [| | | |li| |]; try discriminate;
      destruct (lookup "portfolio" props) as [| | | |pf| |]; try discriminate;
      cbn [optional_trim trim_of bind];
      (eexists; split; [reflexivity|];
       cbn [fst status_of success_of id submittedAt jobId applicantName email
              phone coverLetter linkedIn portfolio yearsOfExperience
              text_of trimmed_or_absent];
       repeat split; try reflexivity; apply generated_id_pattern).
  - intros request Hstatus.
    destruct (POST_store applications request) as [[_ H]|[H _]];
      [exact H | contradiction].
Qed.

End Runtime.

Lemma POST_outcomes_witness :
  exists a,
    POST ApplySamples.url_parses Samples.clock_ms ApplySamples.random_draw
      Samples.clock_iso [] (Ok (ApplySamples.submission ApplySamples.letter_50))
    = (Created (id a) (submittedAt a) (jobId a), [a])
    /\ id_pattern (id a).
Proof.
  destruct (proj1 (proj2
    (POST_outcomes ApplySamples.url_parses Samples.clock_ms
       ApplySamples.random_draw Samples.clock_iso ApplySamples.engine_message
       [] (ApplySamples.submission ApplySamples.letter_50)))
    {| valid := true; errors := [] |} eq_refl eq_refl eq_refl eq_refl eq_refl)
    as [a [Hpost [_ [_ [_ [Hid _]]]]]].
  exists a. split; [exact Hpost|].
  apply Hid; [discriminate|].
  exists "4fzyo82mvyr". repeat split. discriminate.
Defined.

(** The handler departs from the description read literally: the [jobId] of an
    accepted submission is a string field and is stored with its
    surrounding spaces; and a submission whose [email] is an array passes
    the validator, yet the answer is HTTP 500 and nothing is appended. *)
Lemma POST_literal_counterexample :
  (exists a,
      POST ApplySamples.url_parses Samples.clock_ms ApplySamples.random_draw
        Samples.clock_iso [] (Ok ApplySamples.submission_padded)
      = (Created (id a) (submittedAt a) (jobId a), [a])
      /\ jobId a = VStr " j1 "
      /\ trim " j1 " <> " j1 ")
  /\ (validateApplication ApplySamples.url_parses ApplySamples.submission_email_array
      = Ok {| valid := true; errors := [] |}
      /\ POST ApplySamples.url_parses Samples.clock_ms ApplySamples.random_draw
           Samples.clock_iso [] (Ok ApplySamples.submission_email_array)
         = (ServerError TypeError, [])).
Proof.
  split.
  - eexists. split; [reflexivity|]. split; [reflexivity | discriminate].
  - split; reflexivity.
Qed.

End StoreFacts.

(* ===================================================================== *)
(** ** The client *)
(* ===================================================================== *)

Module ClientFacts.
Import JS.
Import JobsRoute.
Import Client.

Section Api.

Variable MOCK_JOBS : list Job.
Variable FETCH_FAILED : string.
Variable native_message : exn -> string.

Local Abbreviation fetch_jobs := (fetchJobs MOCK_JOBS).
Local Abbreviation load_jobs := (loadJobs MOCK_JOBS FETCH_FAILED native_message).

(** The query string [fetchJobs] sends. *)
Local Abbreviation sent query filters :=
  (params_of (match query with Some q => q | None => "software developer" end)
     filters).


(** C8 (as the code has it): [loadJobs] awaits [fetchJobs], which never
    rejects.  So whatever the network does, the provider ends ready (not
    loading, no error) with its filters untouched, and both job lists are
    the list [fetchJobs] returned: the jobs of the response when the fetch
    succeeds with at least one job, and [MOCK_JOBS] when the request is
    rejected, the status is not ok, the body cannot be read, or the data
    is missing or empty.  The errored state is not reached, and the list
    is empty only if [MOCK_JOBS] is. *)
Theorem loadJobs_settles (network : searchParams -> api_result) (s : state) :
  let query := Some (str_or (f_searchQuery (filters s)) "software developer") in
  let location := Some (str_or (f_location (filters s)) "remote") in
  let sent_filters :=
    Some {| a_experienceLevel := Some (f_experienceLevel (filters s));
            a_category := Some (f_category (filters s));
            a_jobType := Some (f_jobType (filters s));
            a_remoteOnly := Some (f_remoteOnly (filters s)) |} in
  let s' := load_jobs network s in
  s' = {| jobs := fetch_jobs network query location sent_filters;
          filteredJobs := fetch_jobs network query location sent_filters;
          filters := filters s; loading := false; error := None |}
  /\ (forall status j js,
        network (sent query sent_filters)
        = Responded true status (Ok (Some (j :: js))) ->
        jobs s' = j :: js /\ filteredJobs s' = j :: js)
  /\ ((forall status j js,
         network (sent query sent_filters)
         <> Responded true status (Ok (Some (j :: js)))) ->
      jobs s' = MOCK_JOBS /\ filteredJobs s' = MOCK_JOBS)
  /\ error s' = None
  /\ loading s' = false
  /\ (jobs s' = [] -> MOCK_JOBS = []).
Proof.
  intros query location sent_filters s'.
  assert (E : s' = {| jobs := fetch_jobs network query location sent_filters;
                      filteredJobs := fetch_jobs network query location sent_filters;
                      filters := filters s; loading := false; error := None |})
    by reflexivity.
  split; [exact E|]. rewrite E. cbn [jobs filteredJobs error loading].
  unfold fetchJobs. cbn [query].
  destruct (network _) as [e|[|] status [[[|j js]|]|e]];
    cbn [negb bind List.length Nat.eqb];
    (split; [| split; [| split; [| split]]]);
    try reflexivity;
    try (intros st j' js' H;
         first [discriminate H | inversion H; subst; split; reflexivity]);
    try (intros H;
         first [split; reflexivity | exfalso; eapply H; reflexivity]);
    try (intros H; first [discriminate H | exact H]).
Qed.

End Api.


Lemma loadJobs_settles_witness :
  loadJobs ClientSamples.mock_jobs ClientSamples.fetch_failed
    ApplySamples.engine_message ClientSamples.network_one_job
    {| jobs := []; filteredJobs := []; filters := ClientSamples.default_filters;
       loading := true; error := Some "earlier failure" |}
  = {| jobs := [ClientSamples.listed_job];
       filteredJobs := [ClientSamples.listed_job];
       filters := ClientSamples.default_filters;
       loading := false; error := None |}.
Proof.
  exact (proj1 (loadJobs_settles ClientSamples.mock_jobs ClientSamples.fetch_failed
                  ApplySamples.engine_message ClientSamples.network_one_job
                  {| jobs := []; filteredJobs := [];
                     filters := ClientSamples.default_filters;
                     loading := true; error := Some "earlier failure" |})).
Defined.

(** When the fetch fails the provider is not errored and the list is not
    cleared: with the network down, no error message is set and the mock
    jobs are shown. *)
Lemma loadJobs_failure_counterexample :
  let s' := loadJobs ClientSamples.mock_jobs ClientSamples.fetch_failed
              ApplySamples.engine_message ClientSamples.network_down
              ClientSamples.showing_one in
  ClientSamples.network_down
    (params_of "software developer"
       (Some {| a_experienceLevel := Some ""; a_category := Some "";
                a_jobType := Some ""; a_remoteOnly := Some false |}))
  = Rejected (Error "Network down")
  /\ error s' = None
  /\ loading s' = false
  /\ jobs s' = ClientSamples.mock_jobs
  /\ filteredJobs s' = ClientSamples.mock_jobs
  /\ jobs s' <> [].
Proof. repeat split. discriminate. Qed.

(** *** The debounced effect *)

(** C9: two calls of [updateFilter] less than 300 ms apart, followed by a
    quiet period of at least 300 ms, start exactly one fetch, with the
    filters as they stand after the second call: the first call's timer is
    cleared before it is due. *)
Theorem debounce_coalesces (c : controller) (u1 u2 : update) (gap quiet : Z) :
  (0 <= gap < debounce_ms)%Z ->
  (debounce_ms <= quiet)%Z ->
  let after_first := elapse gap (updateFilter u1 c) in
  let after_second := updateFilter u2 after_first in
  let settled := elapse quiet after_second in
  c_started after_first = c_started c
  /\ c_pending after_second
     = Some {| due := c_now c + gap + debounce_ms;
               captured := apply_update u2 (apply_update u1 (c_filters c)) |}
  /\ c_started settled
     = (c_started c ++ [apply_update u2 (apply_update u1 (c_filters c))])%list
  /\ c_pending settled = None
  /\ List.length (c_started settled) = S (List.length (c_started c)).
Proof.
  intros Hgap Hquiet.
  cbn -[Z.add Z.leb apply_update debounce_ms].
  assert (E1 : (c_now c + debounce_ms <=? c_now c + gap)%Z = false)
    by (apply Z.leb_gt; lia).
  rewrite E1. cbn -[Z.add Z.leb apply_update debounce_ms].
  assert (E2 : (c_now c + gap + debounce_ms <=? c_now c + gap + quiet)%Z = true)
    by (apply Z.leb_le; lia).
  rewrite E2. cbn -[Z.add Z.leb apply_update debounce_ms].
  repeat split. rewrite length_app. simpl. lia.
Qed.

Lemma debounce_coalesces_witness :
  c_started
    (elapse 300
       (updateFilter (SetSearchQuery "ru")
          (elapse 120
             (updateFilter (SetSearchQuery "r")
                (elapse 1000 (mount ClientSamples.default_filters 0))))))
  = [ClientSamples.default_filters;
     apply_update (SetSearchQuery "ru") ClientSamples.default_filters].
Proof.
  assert (Hgap : (0 <= 120 < debounce_ms)%Z) by (unfold debounce_ms; lia).
  assert (Hquiet : (debounce_ms <= 300)%Z) by (unfold debounce_ms; lia).
  exact (proj1 (proj2 (proj2
           (debounce_coalesces
              (elapse 1000 (mount ClientSamples.default_filters 0))
              (SetSearchQuery "r") (SetSearchQuery "ru") 120 300
              Hgap Hquiet)))).
Defined.

(** A call followed by a pause shorter than the delay starts nothing. *)
Lemma call_then_short_pause (u : update) (pause : Z) (c : controller) :
  (0 <= pause < debounce_ms)%Z ->
  c_started (elapse pause (updateFilter u c)) = c_started c
  /\ c_filters (elapse pause (updateFilter u c)) = apply_update u (c_filters c).
Proof.
  intros Hp. cbn -[Z.add Z.leb apply_update debounce_ms].
  assert (E : (c_now c + debounce_ms <=? c_now c + pause)%Z = false)
    by (apply Z.leb_gt; lia).
  rewrite E. split; reflexivity.
Qed.

Lemma burst_starts_nothing (calls : list (update * Z)) (c : controller) :
  Forall (fun call => (0 <= snd call < debounce_ms)%Z) calls ->
  c_started (burst calls c) = c_started c
  /\ c_filters (burst calls c) = filters_after calls (c_filters c).
Proof.
  intros H. revert c.
  induction H as [|[u pause] rest Hp _ IH]; intros c; simpl; [split; reflexivity|].
  destruct (IH (elapse pause (updateFilter u c))) as [Hs Hf].
  destruct (call_then_short_pause u pause c Hp) as [Hs' Hf'].
  unfold filters_after in *. simpl. rewrite Hs, Hf, Hs', Hf'. split; reflexivity.
Qed.

(** Any burst of calls less than 300 ms apart, closed by one more call and
    a quiet period, starts one fetch, on the filters of the last call. *)
Lemma burst_coalesces (calls : list (update * Z)) (u : update) (quiet : Z)
    (c : controller) :
  Forall (fun call => (0 <= snd call < debounce_ms)%Z) calls ->
  (debounce_ms <= quiet)%Z ->
  c_started (elapse quiet (updateFilter u (burst calls c)))
  = (c_started c ++ [apply_update u (filters_after calls (c_filters c))])%list.
Proof.
  intros Hcalls Hquiet.
  destruct (burst_starts_nothing calls c Hcalls) as [Hs Hf].
  cbn -[Z.add Z.leb apply_update debounce_ms].
  assert (E : (c_now (burst calls c) + debounce_ms
               <=? c_now (burst calls c) + quiet)%Z = true)
    by (apply Z.leb_le; lia).
  rewrite E. cbn [c_started]. now rewrite Hs, Hf.
Qed.

End ClientFacts.

(* ===================================================================== *)
(** ** More facts about strings *)
(* ===================================================================== *)

Module TextFacts.
Import JS.
Import TextSpec.
Import JobsSpec.
Import JSFacts.

Lemma append_assoc_s (a b c : string) : (a ++ b) ++ c = a ++ (b ++ c).
Proof. induction a as [|x a IH]; simpl; congruence. Qed.

Lemma length_append_s (a b : string) : length (a ++ b) = (length a + length b)%nat.
Proof. induction a as [|x a IH]; simpl; congruence. Qed.

Lemma substring_of_refl (s : string) : substring_of s s.
Proof. exists "", "". simpl. now rewrite append_empty_r. Qed.

Lemma substring_of_trans (k m s : string) :
  substring_of k m -> substring_of m s -> substring_of k s.
Proof.
  intros [p1 [q1 ->]] [p2 [q2 ->]].
  exists (p2 ++ p1), (q1 ++ q2). now rewrite !append_assoc_s.
Qed.

Lemma substring_of_app_l (k a b : string) : substring_of k a -> substring_of k (a ++ b).
Proof.
  intros [p [q ->]]. exists p, (q ++ b). now rewrite !append_assoc_s.
Qed.

Lemma substring_of_app_r (k a b : string) : substring_of k b -> substring_of k (a ++ b).
Proof.
  intros [p [q ->]]. exists (a ++ p), q. now rewrite !append_assoc_s.
Qed.

Lemma substring_of_length (k s : string) :
  substring_of k s -> (length k <= length s)%nat.
Proof. intros [p [q ->]]. rewrite !length_append_s. lia. Qed.

Lemma toLowerCase_app (a b : string) :
  toLowerCase (a ++ b) = toLowerCase a ++ toLowerCase b.
Proof. induction a as [|x a IH]; simpl; congruence. Qed.

Lemma toLowerCase_length (s : string) : length (toLowerCase s) = length s.
Proof. induction s as [|x s IH]; simpl; congruence. Qed.

Lemma toLowerCase_substring (k s : string) :
  substring_of k s -> substring_of (toLowerCase k) (toLowerCase s).
Proof.
  intros [p [q ->]]. exists (toLowerCase p), (toLowerCase q).
  now rewrite !toLowerCase_app.
Qed.

Lemma lower_char_idempotent (c : ascii) : lower_char (lower_char c) = lower_char c.
Proof. destruct c as [[] [] [] [] [] [] [] []]; reflexivity. Qed.

Lemma toLowerCase_idempotent (s : string) :
  toLowerCase (toLowerCase s) = toLowerCase s.
Proof.
  induction s as [|x s IH]; simpl; [reflexivity|].
  now rewrite lower_char_idempotent, IH.
Qed.

Lemma keep_chars_app (p : ascii -> bool) (a b : string) :
  keep_chars p (a ++ b) = keep_chars p a ++ keep_chars p b.
Proof.
  induction a as [|x a IH]; simpl; [reflexivity|].
  destruct (p x); simpl; congruence.
Qed.

Lemma keep_chars_length (p : ascii -> bool) (s : string) :
  (length (keep_chars p s) <= length s)%nat.
Proof.
  induction s as [|x s IH]; simpl; [lia|]. destruct (p x); simpl; lia.
Qed.

Lemma all_chars_append (p : ascii -> bool) (a b : string) :
  all_chars p (a ++ b) = all_chars p a && all_chars p b.
Proof.
  induction a as [|x a IH]; simpl; [reflexivity|]. now rewrite IH, andb_assoc.
Qed.

Lemma all_chars_substring (p : ascii -> bool) (k s : string) :
  substring_of k s -> all_chars p s = true -> all_chars p k = true.
Proof.
  intros [a [b ->]]. rewrite !all_chars_append, !andb_true_iff. tauto.
Qed.

Lemma space_not_digit (c : ascii) : is_space c = true -> is_digit c = false.
Proof.
  destruct c as [[] [] [] [] [] [] [] []]; vm_compute; intros H;
    first [reflexivity | discriminate H].
Qed.

Lemma spaces_no_digit (s : string) :
  all_chars is_space s = true -> keep_chars is_digit s = "".
Proof.
  induction s as [|x s IH]; simpl; [reflexivity|].
  rewrite andb_true_iff. intros [Hx Hs]. now rewrite (space_not_digit x Hx), IH.
Qed.

(** Trimming yields a piece of the text, removes no digit, and leaves a
    text without white space alone. *)
Lemma trim_substring (s : string) : substring_of (trim s) s.
Proof.
  destruct (trim_spec s) as [pre [post [E _]]]. now exists pre, post.
Qed.

Lemma trim_length_le (s : string) : (length (trim s) <= length s)%nat.
Proof. apply substring_of_length, trim_substring. Qed.

Lemma trim_keeps_digits (s : string) :
  keep_chars is_digit (trim s) = keep_chars is_digit s.
Proof.
  destruct (trim_spec s) as [pre [post [E [Hpre [Hpost _]]]]].
  rewrite E at 2. rewrite !keep_chars_app.
  rewrite (spaces_no_digit pre Hpre), (spaces_no_digit post Hpost).
  simpl. now rewrite append_empty_r.
Qed.

Lemma trimEnd_nospace (s : string) :
  all_chars (fun c => negb (is_space c)) s = true -> trimEnd s = s.
Proof.
  induction s as [|x s IH]; simpl; [reflexivity|].
  rewrite andb_true_iff, negb_true_iff. intros [Hx Hs].
  rewrite Hx. simpl. now rewrite IH.
Qed.

Lemma trim_nospace (s : string) :
  all_chars (fun c => negb (is_space c)) s = true -> trim s = s.
Proof.
  intros H. unfold trim.
  assert (E : trimStart s = s).
  { destruct s as [|x s]; simpl in *; [reflexivity|].
    apply andb_true_iff in H. destruct H as [Hx _].
    apply negb_true_iff in Hx. now rewrite Hx. }
  rewrite E. now apply trimEnd_nospace.
Qed.

(** A blank text has no digit. *)
Lemma blank_no_digit (s : string) : trim s = "" -> keep_chars is_digit s = "".
Proof. intros H. rewrite <- trim_keeps_digits, H. reflexivity. Qed.

(** *** Literal patterns *)

Lemma lang_lit (w s : string) : lang (Form.lit w) s <-> s = w.
Proof.
  revert s. induction w as [|c w IH]; intros s; simpl.
  - split; [apply lang_Eps_inv | intros ->; constructor].
  - split.
    + intros H. apply lang_Seq_inv in H. destruct H as [s1 [s2 [-> [H1 H2]]]].
      apply lang_char in H1. apply IH in H2. now subst.
    + intros ->. change (String c w) with (String c "" ++ w).
      constructor; [now apply lang_char | now apply IH].
Qed.

Lemma lang_any_tail (s : string) : lang Form.any_tail s.
Proof.
  unfold Form.any_tail. induction s as [|c s IH]; [constructor|].
  change (String c s) with (String c "" ++ s).
  constructor; [now constructor | exact IH].
Qed.

End TextFacts.

(* ===================================================================== *)
(** ** The store over runs of requests, and its queries *)
(* ===================================================================== *)

Module StoreMore.
Import JS.
Import ApplyRoute.
Import ApplyQuery.
Import TextSpec.
Import JobsSpec.
Import ApplySpec.
Import StoreSpec.
Import JSFacts.
Import TextFacts.
Import ValidatorFacts.
Import StoreFacts.

Local Arguments violated : simpl never.

Lemma not_own_extension {A} (xs : list A) (x : A) : xs <> (xs ++ [x])%list.
Proof.
  intros E. apply (f_equal (@List.length A)) in E.
  rewrite length_app in E. simpl in E. lia.
Qed.

(** A valid object violates no rule. *)
Lemma valid_no_violation (U : string -> bool) (props : list (string * value))
    (v : validation) :
  validateApplication U (VObj props) = Ok v -> valid v = true ->
  forall r, violated U (VObj props) r = false.
Proof.
  intros Hv Hvalid r. rewrite validate_object in Hv.
  destruct (validator_crashes (VObj props)); [discriminate|].
  remember (filter (violated U (VObj props)) all_rules) as bad eqn:Hbad.
  injection Hv as <-. cbn [valid] in Hvalid.
  apply length_zero_nil in Hvalid. subst bad.
  apply (filter_nil_all _ _ Hvalid). destruct r; simpl; tauto.
Qed.

Lemma lower_char_keeps_class (c : ascii) :
  not_space_at c = true -> not_space_at (lower_char c) = true.
Proof.
  destruct c as [[] [] [] [] [] [] [] []]; vm_compute; intros H;
    first [reflexivity | discriminate H].
Qed.

Lemma toLowerCase_keeps_class (s : string) :
  all_chars not_space_at s = true -> all_chars not_space_at (toLowerCase s) = true.
Proof.
  induction s as [|c s IH]; simpl; [reflexivity|].
  rewrite !andb_true_iff. intros [Hc Hs].
  split; [now apply lower_char_keeps_class | now apply IH].
Qed.

Lemma toLowerCase_nonempty (s : string) : s <> "" -> toLowerCase s <> "".
Proof. destruct s; simpl; congruence. Qed.

Lemma email_shape_lower (s : string) : email_shape s -> email_shape (toLowerCase s).
Proof.
  intros [local [domain [tld [-> [L1 [L2 [D1 [D2 [T1 T2]]]]]]]]].
  exists (toLowerCase local), (toLowerCase domain), (toLowerCase tld).
  rewrite !toLowerCase_app. simpl.
  repeat split; auto using toLowerCase_nonempty, toLowerCase_keeps_class.
Qed.

Lemma class_no_space (s : string) :
  all_chars not_space_at s = true ->
  all_chars (fun c => negb (is_space c)) s = true.
Proof.
  apply all_chars_impl. intros c. unfold not_space_at.
  rewrite negb_orb, andb_true_iff. tauto.
Qed.

Lemma email_shape_no_space (s : string) :
  email_shape s -> all_chars (fun c => negb (is_space c)) s = true.
Proof.
  intros [local [domain [tld [-> [_ [L2 [_ [D2 [_ T2]]]]]]]]].
  rewrite !all_chars_append.
  rewrite (class_no_space _ L2), (class_no_space _ D2), (class_no_space _ T2).
  reflexivity.
Qed.

Lemma optional_trim_not_blank (v : value) (o : option string) :
  optional_trim v = Ok o -> o <> Some "".
Proof.
  destruct v as [| |b|n|s|items|props]; simpl; try discriminate;
    try (intros H; injection H as <-; discriminate).
  intros H. injection H as <-.
  destruct (trim s =? "") eqn:E; [discriminate|].
  intros H. injection H as H. rewrite H in E. discriminate.
Qed.

Section Runtime.

Variable URL_parses : string -> bool.

Local Abbreviation validate := (validateApplication URL_parses).
Local Abbreviation post := (POST URL_parses).

(** What an appended record is made of. *)
Lemma POST_appended (now : Z) (random36 iso : string)
    (applications : list application) (request : result value) (a : application) :
  snd (post now random36 iso applications request) = (applications ++ [a])%list ->
  exists props v name mail tel letter,
    request = Ok (VObj props)
    /\ validate (VObj props) = Ok v /\ valid v = true
    /\ lookup "applicantName" props = VStr name
    /\ lookup "email" props = VStr mail
    /\ lookup "phone" props = VStr tel
    /\ lookup "coverLetter" props = VStr letter
    /\ optional_trim (lookup "linkedIn" props) = Ok (linkedIn a)
    /\ optional_trim (lookup "portfolio" props) = Ok (portfolio a)
    /\ a = {| id := "app-" ++ Z_to_string now ++ "-" ++ substring 2 9 random36;
              jobId := lookup "jobId" props;
              applicantName := trim name;
              email := toLowerCase (trim mail);
              phone := trim tel;
              coverLetter := trim letter;
              linkedIn := linkedIn a;
              portfolio := portfolio a;
              yearsOfExperience := or_else (lookup "yearsOfExperience" props) (VNum 0);
              submittedAt := iso |}
    /\ fst (post now random36 iso applications request)
       = Created (id a) (submittedAt a) (jobId a).
Proof.
  intros Hsnd.
  assert (Hno : forall r : reply,
             snd (r, applications) = (applications ++ [a])%list -> False).
  { intros r E. simpl in E. exact (not_own_extension _ _ E). }
  unfold POST in *.
  destruct request as [body|e]; cbn [bind] in *;
    [| destruct e; exfalso; eapply Hno; exact Hsnd].
  destruct (validate body) as [v|e] eqn:Hv; cbn [bind] in *;
    [| destruct e; exfalso; eapply Hno; exact Hsnd].
  destruct (valid v) eqn:Hok; cbn [negb] in *;
    [| exfalso; eapply Hno; exact Hsnd].
  destruct (validate_valid_object URL_parses body v Hv Hok) as [props ->].
  destruct (valid_fields URL_parses props v Hv Hok) as [Hn [Hp Hc]].
  cbn [get bind] in *.
  destruct (lookup "applicantName" props) as [| | | |name| |] eqn:Hname;
    try discriminate.
  destruct (lookup "phone" props) as [| | | |tel| |] eqn:Htel; try discriminate.
  destruct (lookup "coverLetter" props) as [| | | |letter| |] eqn:Hletter;
    try discriminate.
  cbn [trim_of bind] in *.
  destruct (lookup "email" props) as [| | | |mail| |] eqn:Hmail;
    cbn [trim_of bind] in *; try (exfalso; eapply Hno; exact Hsnd).
  destruct (optional_trim (lookup "linkedIn" props)) as [li|e] eqn:Hli;
    cbn [bind] in *; [| destruct e; exfalso; eapply Hno; exact Hsnd].
  destruct (optional_trim (lookup "portfolio" props)) as [pf|e] eqn:Hpf;
    cbn [bind] in *; [| destruct e; exfalso; eapply Hno; exact Hsnd].
  cbn [snd fst] in *. apply app_inv_head in Hsnd. injection Hsnd as <-.
  exists props, v, name, mail, tel, letter.
  cbn [linkedIn portfolio id submittedAt jobId].
  repeat split; first [reflexivity | assumption].
Qed.

(** Whatever [POST] appends is a validated, normalized record. *)
Lemma POST_appends_ok (now : Z) (random36 iso : string)
    (applications : list application) (request : result value) (a : application) :
  snd (post now random36 iso applications request) = (applications ++ [a])%list ->
  stored_ok a.
Proof.
  intros Hsnd.
  destruct (POST_appended _ _ _ _ _ _ Hsnd)
    as [props [v [name [mail [tel [letter
         [_ [Hv [Hok [Hname [Hmail [Htel [Hletter [Hli [Hpf [Ha _]]]]]]]]]]]]]]]].
  pose proof (valid_no_violation URL_parses props v Hv Hok) as Hrules.
  assert (Rj := Hrules RJobId). assert (Rn := Hrules RApplicantName).
  assert (Re := Hrules REmail). assert (Rp := Hrules RPhone).
  assert (Rc := Hrules RCoverLetter). assert (Ry := Hrules RYearsOfExperience).
  unfold violated in Rj, Rn, Re, Rp, Rc, Ry. cbn [field] in Rj, Rn, Re, Rp, Rc, Ry.
  rewrite Hname in Rn. rewrite Hmail in Re. rewrite Htel in Rp. rewrite Hletter in Rc.
  rewrite Ha. unfold stored_ok.
  cbn [jobId applicantName email phone coverLetter linkedIn portfolio yearsOfExperience].
  destruct (trim_spec name) as [_ [_ [_ [_ [_ [Hs He]]]]]].
  apply negb_false_iff, andb_true_iff in Re. destruct Re as [_ Re].
  change (printed (VStr mail)) with mail in Re.
  assert (Hshape : email_shape mail).
  { apply isValidEmail_shape. unfold isValidEmail, test.
    cbn [ToString bind]. now rewrite Re. }
  rewrite (trim_nospace mail (email_shape_no_space mail Hshape)).
  apply negb_false_iff in Rp. rewrite !andb_true_iff in Rp.
  destruct Rp as [_ Rp]. apply Nat.leb_le in Rp.
  apply Nat.ltb_ge in Rn, Rc.
  repeat split.
  - destruct (lookup "jobId" props) as [| | | |j| |]; try discriminate.
    exists j. split; [reflexivity|]. intros ->. discriminate.
  - exact Rn.
  - exact Hs.
  - exact He.
  - now apply email_shape_lower.
  - apply toLowerCase_idempotent.
  - now rewrite trim_keeps_digits.
  - exact Rc.
  - exact (optional_trim_not_blank _ _ Hli).
  - exact (optional_trim_not_blank _ _ Hpf).
  - unfold or_else.
    destruct (lookup "yearsOfExperience" props) as [| | |n| | |]; try discriminate.
    + exists 0%Z. split; [reflexivity | lia].
    + simpl. destruct (n =? 0)%Z eqn:E; simpl.
      * exists 0%Z. split; [reflexivity | lia].
      * exists n. split; [reflexivity|]. apply Z.ltb_ge in Ry. exact Ry.
Qed.

(** A run of requests extends the store by one good record per 201
    answer. *)
Lemma serve_extends (requests : list request) (applications : list application) :
  exists added,
    snd (serve URL_parses requests applications) = (applications ++ added)%list
    /\ Forall stored_ok added
    /\ List.length added
       = List.length (filter created (fst (serve URL_parses requests applications))).
Proof.
  revert applications. induction requests as [|rq rest IH]; intros applications.
  - exists []. simpl. rewrite app_nil_r. repeat split. constructor.
  - simpl.
    pose proof (POST_store URL_parses (rq_now rq) (rq_random36 rq) (rq_iso rq)
                  applications (rq_body rq)) as Hstep.
    pose proof (POST_appends_ok (rq_now rq) (rq_random36 rq) (rq_iso rq)
                  applications (rq_body rq)) as Hok.
    destruct (POST URL_parses (rq_now rq) (rq_random36 rq) (rq_iso rq)
                applications (rq_body rq)) as [answer applications'].
    cbn [fst snd] in Hstep, Hok.
    destruct (IH applications') as [added [Hs [Hf Hl]]].
    destruct (serve URL_parses rest applications') as [answers final].
    cbn [fst snd] in *.
    destruct Hstep as [[Hstatus ->]|[Hstatus [a Ha]]].
    + exists added. repeat split; try assumption.
      destruct answer; simpl in *; try assumption. contradiction.
    + exists (a :: added). subst applications'.
      rewrite Hs, <- app_assoc. repeat split.
      * constructor; [now apply Hok | assumption].
      * destruct answer; simpl in *; try discriminate. now rewrite Hl.
Qed.

(** X1: the store only ever holds validated, normalized records: after any
    run of requests from the empty store, every record has a non-empty
    string [jobId], a trimmed name of at least 2 characters, a lower-case
    address of the shape [local@domain.tld], a phone with at least 10
    digits, a cover letter of at least 50 characters, no blank [linkedIn]
    or [portfolio], and a non-negative number of years. *)
Theorem store_holds_only_validated_records (requests : list request) :
  Forall stored_ok (snd (serve URL_parses requests [])).
Proof.
  destruct (serve_extends requests []) as [added [Hs [Hf _]]].
  rewrite Hs. exact Hf.
Qed.

(** X2: the store is append-only: a run of requests leaves the records
    already stored in place and in order, and adds exactly one record per
    201 answer, one answer being given per request. *)
Theorem store_is_append_only (requests : list request)
    (applications : list application) :
  exists added,
    snd (serve URL_parses requests applications) = (applications ++ added)%list
    /\ List.length added
       = List.length (filter created (fst (serve URL_parses requests applications)))
    /\ List.length (fst (serve URL_parses requests applications))
       = List.length requests.
Proof.
  destruct (serve_extends requests applications) as [added [Hs [_ Hl]]].
  exists added. repeat split; try assumption.
  clear. revert applications.
  induction requests as [|rq rest IH]; intros applications; simpl; [reflexivity|].
  destruct (POST URL_parses (rq_now rq) (rq_random36 rq) (rq_iso rq)
              applications (rq_body rq)) as [answer applications'].
  specialize (IH applications').
  destruct (serve URL_parses rest applications') as [answers final].
  simpl in *. now rewrite IH.
Qed.

End Runtime.

(** The ten newest, newest first. *)
Lemma recent_rows (applications : list application) :
  rev (slice_last 10 applications) = firstn 10 (rev applications).
Proof. unfold slice_last. symmetry. apply firstn_rev. Qed.

(** X3: the overall statistics count every stored application and list the
    ten newest, newest first; an empty [jobId] parameter gives the overall
    statistics; the per-job statistics count and list, in store order,
    exactly the applications whose [jobId] is that string. *)
Theorem stats_of_store (applications : list application) :
  GET applications None
  = Overall (List.length applications)
      (map to_recent_row (firstn 10 (rev applications)))
  /\ GET applications (Some "") = GET applications None
  /\ (forall j, j <> "" ->
        exists rows,
          GET applications (Some j) = ForJob j (List.length rows) rows
          /\ rows = map to_job_row (filter (same_job j) applications)
          /\ (List.length rows <= List.length applications)%nat
          /\ (forall a, In a applications -> jobId a = VStr j ->
                        In (to_job_row a) rows)).
Proof.
  split; [| split].
  - unfold GET. now rewrite recent_rows.
  - reflexivity.
  - intros j Hj. unfold GET.
    assert (E : (j =? "") = false) by now apply String.eqb_neq.
    rewrite E. cbn [negb]. eexists. split; [| split; [reflexivity | split]].
    + now rewrite length_map.
    + rewrite length_map. apply filter_length_le.
    + intros a Hin Ha. apply in_map, filter_In. split; [exact Hin|].
      unfold same_job. rewrite Ha. apply String.eqb_refl.
Qed.

Section Reported.

Variable URL_parses : string -> bool.

(** X4: an accepted application is reported at once: after a 201 answer the
    overall statistics count one more application and list the new one
    first, ahead of the nine newest of before, under the [applicationId],
    [jobId] and [submittedAt] of the answer; and the statistics of its
    [jobId] count one more and list it last. *)
Theorem accepted_application_is_reported (now : Z) (random36 iso : string)
    (applications store' : list application) (request : result value)
    (i t : string) (j : value) :
  POST URL_parses now random36 iso applications request
  = (Created i t j, store') ->
  (exists row,
      GET store' None
      = Overall (S (List.length applications))
          (row :: map to_recent_row (firstn 9 (rev applications)))
      /\ rr_id row = i /\ rr_jobId row = j /\ rr_submittedAt row = t)
  /\ (exists s row,
        j = VStr s /\ s <> ""
        /\ GET store' (Some s)
           = ForJob s (S (List.length (filter (same_job s) applications)))
               (map to_job_row (filter (same_job s) applications) ++ [row])
        /\ jr_id row = i /\ jr_submittedAt row = t).
Proof.
  intros Hpost.
  pose proof (POST_store URL_parses now random36 iso applications request) as Hstep.
  rewrite Hpost in Hstep. cbn [fst snd status_of] in Hstep.
  destruct Hstep as [[Hne _]|[_ [a Ha]]]; [contradiction|]. subst store'.
  assert (Hsnd : snd (POST URL_parses now random36 iso applications request)
                 = (applications ++ [a])%list) by now rewrite Hpost.
  pose proof (POST_appends_ok URL_parses _ _ _ _ _ _ Hsnd) as Hgood.
  destruct (POST_appended URL_parses _ _ _ _ _ _ Hsnd)
    as [props [v [name [mail [tel [letter [_ [_ [_ [_ [_ [_ [_ [_ [_ [_ Hfst]]]]]]]]]]]]]]]].
  rewrite Hpost in Hfst. cbn [fst] in Hfst. injection Hfst as -> -> ->.
  split.
  - exists (to_recent_row a). unfold GET. rewrite recent_rows.
    rewrite length_app, rev_app_distr. cbn [List.length rev app firstn map].
    rewrite Nat.add_1_r. repeat split.
  - destruct Hgood as [[s [Hj Hs]] _].
    exists s, (to_job_row a). unfold GET.
    assert (E : (s =? "") = false) by now apply String.eqb_neq.
    rewrite E. cbn [negb]. rewrite filter_app. cbn [filter].
    unfold same_job at 2 4. rewrite Hj, String.eqb_refl.
    rewrite map_app, length_app. cbn [map List.length].
    rewrite Nat.add_1_r. repeat split; assumption.
Qed.

End Reported.

Lemma accepted_application_is_reported_witness :
  exists row,
    GET (snd (POST ApplySamples.url_parses Samples.clock_ms ApplySamples.random_draw
                Samples.clock_iso []
                (Ok (ApplySamples.submission ApplySamples.letter_50))))
      (Some "j1")
    = ForJob "j1" 1 [row]
    /\ jr_id row = "app-1700000000000-4fzyo82mv".
Proof.
  destruct (proj2 (accepted_application_is_reported ApplySamples.url_parses
                     Samples.clock_ms ApplySamples.random_draw Samples.clock_iso
                     [] _ (Ok (ApplySamples.submission ApplySamples.letter_50))
                     _ _ _ eq_refl))
    as [s [row [Hj [_ [Hget [Hid _]]]]]].
  injection Hj as <-. exists row. split; [exact Hget | exact Hid].
Defined.

End StoreMore.

(* ===================================================================== *)
(** ** More on the classifier *)
(* ===================================================================== *)

Module ClassifierMore.
Import JS.
Import JobsRoute.
Import TextSpec.
Import JobsSpec.
Import ClassifierSpec.
Import JSFacts.
Import TextFacts.
Import ClassifierFacts.

Lemma includes_any_hit (text k : string) (ks : list string) :
  In k ks -> substring_of k text -> includes_any text ks = true.
Proof.
  intros Hin Hk. apply includes_any_spec, Exists_exists. now exists k.
Qed.

Lemma tag_in_join (sep tag : string) (tags : list string) :
  In tag tags -> substring_of tag (join sep tags).
Proof.
  induction tags as [|x rest IH]; [contradiction|].
  intros [->|Hin].
  - destruct rest; simpl; [apply substring_of_refl|].
    apply substring_of_app_l, substring_of_refl.
  - destruct rest as [|y rest']; [contradiction|].
    change (join sep (x :: y :: rest')) with (x ++ sep ++ join sep (y :: rest')).
    apply substring_of_app_r, substring_of_app_r. now apply IH.
Qed.

(** A keyword found in one tag is found in the text the tags are joined
    into. *)
Lemma tag_keyword_in_text (tags : list string) (tag k : string) :
  In tag tags -> substring_of k (toLowerCase tag) ->
  substring_of k (toLowerCase (join " " tags)).
Proof.
  intros Hin Hk.
  eapply substring_of_trans; [exact Hk|].
  apply toLowerCase_substring. now apply tag_in_join.
Qed.

(** X5: three keywords of [determineCategory] can never decide, an earlier
    group always answering first: a text with "devops" or with "business
    development" is Software Development ("dev"), and a text with
    "recruiter" is Design or an earlier category ("ui").  Each of the
    twelve categories is still the answer for some tag. *)
Theorem shadowed_category_keywords (s : string) :
  (substring_of "devops" (toLowerCase s) ->
   determineCategory (VStr s) = Ok "Software Development")
  /\ (substring_of "business development" (toLowerCase s) ->
      determineCategory (VStr s) = Ok "Software Development")
  /\ (substring_of "recruiter" (toLowerCase s) ->
      exists c, determineCategory (VStr s) = Ok c
                /\ In c ["Software Development"; "Data Science"; "Design"])
  /\ (forall c, In c categories ->
                determineCategory (VArr (map VStr (tags_for c))) = Ok c).
Proof.
  assert (Hdev : forall k, substring_of "dev" k ->
                           substring_of k (toLowerCase s) ->
                           determineCategory (VStr s) = Ok "Software Development").
  { intros k Hk Hs. unfold determineCategory. cbn [bind]. unfold categoryOf.
    rewrite (includes_any_hit (toLowerCase s) "dev"); [reflexivity|simpl; tauto|].
    eapply substring_of_trans; eassumption. }
  split; [| split; [| split]].
  - apply Hdev. now exists "", "ops".
  - apply Hdev. now exists "business ", "elopment".
  - intros Hs. unfold determineCategory. cbn [bind]. unfold categoryOf.
    destruct (includes_any (toLowerCase s) _);
      [eexists; split; [reflexivity | simpl; tauto]|].
    destruct (includes_any (toLowerCase s) _);
      [eexists; split; [reflexivity | simpl; tauto]|].
    rewrite (includes_any_hit (toLowerCase s) "ui");
      [eexists; split; [reflexivity | simpl; tauto] | simpl; tauto |].
    eapply substring_of_trans; [|exact Hs]. now exists "recr", "ter".
  - intros c Hc. simpl in Hc.
    repeat (destruct Hc as [<-|Hc]; [reflexivity|]). contradiction.
Qed.

Lemma shadowed_category_keywords_witness :
  determineCategory (VStr "DevOps / SRE") = Ok "Software Development"
  /\ exists c, determineCategory (VStr "Technical Recruiter") = Ok c
               /\ In c ["Software Development"; "Data Science"; "Design"].
Proof.
  split.
  - apply (proj1 (shadowed_category_keywords "DevOps / SRE")).
    apply includes_spec. reflexivity.
  - apply (proj1 (proj2 (proj2 (shadowed_category_keywords "Technical Recruiter")))).
    apply includes_spec. reflexivity.
Defined.

(** X6: one development tag decides: when any tag of the list holds a
    keyword of the first group, the category is Software Development,
    whatever the other tags are and wherever the tag stands. *)
Theorem one_development_tag_decides (tags : list string) (tag k : string) :
  In tag tags -> In k development_keywords ->
  substring_of k (toLowerCase tag) ->
  determineCategory (VArr (map VStr tags)) = Ok "Software Development".
Proof.
  intros Hin Hk Hsub. unfold determineCategory.
  rewrite mapM_join_item_strings. cbn [bind]. unfold categoryOf.
  rewrite (includes_any_hit _ k); [reflexivity | exact Hk |].
  now apply (tag_keyword_in_text tags tag).
Qed.

Lemma one_development_tag_decides_witness :
  determineCategory (VArr (map VStr ["marketing"; "seo"; "Backend"; "sales"]))
  = Ok "Software Development".
Proof.
  apply (one_development_tag_decides ["marketing"; "seo"; "Backend"; "sales"]
           "Backend" "backend").
  - simpl. tauto.
  - simpl. tauto.
  - apply includes_spec. reflexivity.
Defined.

Lemma in_firstn {A} (n : nat) (x : A) (xs : list A) :
  In x (firstn n xs) -> In x xs.
Proof.
  intros H. rewrite <- (firstn_skipn n xs). apply in_or_app. now left.
Qed.

(** Every piece of a split is a piece of the text, the first one starting
    the text when no separator has been consumed. *)
Lemma split_go_substrings (sep : ascii -> bool) (s : string) :
  forall after,
    Forall (fun piece => substring_of piece s) (split_go sep s after)
    /\ (after = false ->
        exists p ps post, split_go sep s after = p :: ps /\ s = p ++ post).
Proof.
  induction s as [|c s IH]; intros after; simpl.
  - split; [repeat constructor; apply substring_of_refl|].
    intros _. now exists "", [], "".
  - assert (Hlift : forall ps,
               Forall (fun piece => substring_of piece s) ps ->
               Forall (fun piece => substring_of piece (String c s)) ps).
    { intros ps. apply Forall_impl. intros piece Hp.
      change (String c s) with (String c "" ++ s). now apply substring_of_app_r. }
    destruct (sep c).
    + destruct after.
      * split; [apply Hlift, IH | discriminate].
      * split.
        -- constructor; [now exists "", (String c s) | apply Hlift, IH].
        -- intros _. now exists "", (split_go sep s true), (String c s).
    + destruct (IH false) as [Hall Hhead].
      destruct (Hhead eq_refl) as [p [ps [post [E Es]]]].
      rewrite E in *. pose proof (Forall_inv_tail Hall) as Hps.
      split.
      * constructor; [| now apply Hlift].
        exists "", post. simpl. now rewrite Es at 1.
      * intros _. exists (String c p), ps, post. split; [reflexivity|].
        simpl. now rewrite Es at 1.
Qed.

(** X7: the requirements are taken from the description: unless the three
    generic strings are returned, every requirement is a run of
    consecutive characters of the description, longer than 10 characters,
    free of [. ! ?], with no white space at either end. *)
Theorem requirements_come_from_description (description : string)
    (reqs : list string) :
  extractRequirements (VStr description) = Ok reqs ->
  reqs = fallback_requirements
  \/ Forall (fun r =>
               substring_of r description
               /\ (10 < length r)%nat
               /\ all_chars (fun c => negb (is_sentence_end c)) r = true
               /\ starts_with_space r = false
               /\ ends_with_space r = false) reqs.
Proof.
  unfold extractRequirements. simpl truthy.
  destruct (description =? "") eqn:Hd; cbn [negb bind].
  - intros H. injection H as <-. now left.
  - destruct (List.length (sentences_of description) =? 0)%nat eqn:Hl;
      intros H; injection H as <-; [now left | right].
    unfold sentences_of. apply Forall_map.
    apply Forall_forall. intros f Hf.
    apply in_firstn in Hf.
    apply filter_In in Hf. destruct Hf as [Hin Hlen].
    apply Nat.ltb_lt in Hlen.
    destruct (split_go_substrings is_sentence_end description false) as [Hsub _].
    destruct (split_go_pieces is_sentence_end description false) as [Hclean _].
    rewrite Forall_forall in Hsub, Hclean.
    specialize (Hsub f Hin). specialize (Hclean f Hin).
    destruct (trim_spec f) as [pre [post [E [_ [_ [Hs He]]]]]].
    repeat split; try assumption.
    + eapply substring_of_trans; [apply trim_substring | exact Hsub].
    + eapply all_chars_substring; [apply trim_substring | exact Hclean].
Qed.

Lemma requirements_come_from_description_witness :
  Forall (fun r => substring_of r "A. B. Valid sentence here." /\ (10 < length r)%nat)
    ["Valid sentence here"].
Proof.
  destruct (requirements_come_from_description "A. B. Valid sentence here."
              ["Valid sentence here"] eq_refl) as [H|H].
  - discriminate H.
  - eapply Forall_impl; [|exact H]. intros r [H1 [H2 _]]. split; assumption.
Defined.

End ClassifierMore.

(* ===================================================================== *)
(** ** More on the listing, from the route to the provider *)
(* ===================================================================== *)

Module ListingMore.
Import JS.
Import JobsRoute.
Import Client.
Import JobsSpec.
Import ListingSpec.
Import ProviderSpec.
Import JSFacts.
Import TextFacts.
Import ClassifierFacts.
Import TransformerFacts.
Import ListingFacts.

Lemma filterM_incl {A} (p : A -> result bool) (xs ys : list A) :
  filterM p xs = Ok ys -> incl ys xs.
Proof.
  revert ys. induction xs as [|x xs IH]; intros ys; simpl.
  - intros H. injection H as <-. apply incl_refl.
  - destruct (p x) as [b|]; cbn [bind]; [|discriminate].
    destruct (filterM p xs) as [zs|]; cbn [bind]; [|discriminate].
    intros H. injection H as <-. specialize (IH zs eq_refl).
    destruct b.
    + intros y [<-|Hy]; [now left | right; now apply IH].
    + now apply incl_tl.
Qed.

Lemma filter_incl {A} (f : A -> bool) (xs : list A) : incl (filter f xs) xs.
Proof. intros x Hx. now apply filter_In in Hx. Qed.

Lemma Forall2_right {A B} (R : A -> B -> Prop) (xs : list A) (ys : list B) :
  Forall2 R xs ys -> forall y, In y ys -> exists x, In x xs /\ R x y.
Proof.
  induction 1 as [|x y xs ys Hxy _ IH]; intros z Hz; [contradiction|].
  destruct Hz as [<-|Hz].
  - exists x. split; [now left | assumption].
  - destruct (IH z Hz) as [x' [Hin Hr]]. exists x'. split; [now right | assumption].
Qed.

Lemma extractRequirements_length (v : value) (reqs : list string) :
  extractRequirements v = Ok reqs -> (1 <= List.length reqs <= 3)%nat.
Proof.
  unfold extractRequirements. destruct (truthy v).
  - destruct v as [| | | |s| |]; cbn [bind]; try discriminate.
    intros H. injection H as <-.
    assert (Hle : (List.length (sentences_of s) <= 3)%nat).
    { unfold sentences_of. rewrite length_map. apply firstn_le_length. }
    destruct (List.length (sentences_of s) =? 0)%nat eqn:E; [simpl; lia|].
    apply Nat.eqb_neq in E. lia.
  - cbn [bind]. intros H. injection H as <-. simpl. lia.
Qed.

Section Runtime.

Variable Date_now : Z.
Variable now_iso : string.
Variable toISOString : value -> result string.

Local Abbreviation transform := (transformRemoteOKJob Date_now now_iso toISOString).
Local Abbreviation handler := (GET Date_now now_iso toISOString).

Lemma has_id_truthy (r : value) :
  has_id r = true -> r <> VUndef /\ r <> VNull /\ truthy (field r "id") = true.
Proof.
  unfold has_id. rewrite andb_true_iff. intros [Hr Hid].
  destruct r; simpl in *; try discriminate; repeat split; try discriminate;
    assumption.
Qed.

Lemma transform_listed (r : value) (j : Job) :
  has_id r = true -> transform r = Ok j -> listed_ok j.
Proof.
  intros Hid Hj. destruct (has_id_truthy r Hid) as [_ [_ Ht]].
  destruct (transform_inv _ _ _ r j Hj) as [c [l [reqs [posted [Hc [Hl [Hq ->]]]]]]].
  unfold listed_ok.
  cbn [id type remote responsibilities requirements category experienceLevel
         salary].
  split; [| split; [| split; [| split; [| split; [| split; [| split; [| split]]]]]]];
    try reflexivity.
  - unfold or_else. now rewrite Ht.
  - apply (extractRequirements_length _ _ Hq).
  - now apply determineCategory_closed in Hc.
  - now apply determineExperienceLevel_closed in Hl.
  - destruct (truthy (field r "salary_min")) eqn:Hlo; [|exact I].
    destruct (truthy (field r "salary_max")) eqn:Hhi; [|exact I].
    cbn [andb min max currency]. repeat split; assumption.
  - unfold or_else in *. destruct (truthy (field r "position")).
    + destruct (field r "position") as [| | | |t| |]; try discriminate Hl.
      injection Hl as <-. now exists t.
    + injection Hl as <-. now exists "Untitled Position".
Qed.

(** The jobs the handler lists are among the transformed records, and all
    pass an active job-type filter. *)
Lemma listJobs_incl (sp : searchParams) (upstream : value) (jobs : list Job) :
  listJobs Date_now now_iso toISOString sp upstream = Ok jobs ->
  Forall listed_ok jobs
  /\ (forall t, p_jobType sp = Some t -> active (Some t) "All Types" = true ->
                Forall (fun j => (type j =? t) = true) jobs).
Proof.
  unfold listJobs.
  set (jobData := match upstream with VArr items => tl items | _ => [] end).
  destruct (mapM transform (filter has_id jobData)) as [js|] eqn:Hjs;
    cbn [bind]; [|discriminate].
  apply mapM_Forall2 in Hjs.
  assert (Hall : Forall listed_ok js).
  { apply Forall_forall. intros j Hj.
    destruct (Forall2_right _ _ _ Hjs j Hj) as [r [Hr Ht]].
    apply filter_In in Hr. destruct Hr as [_ Hr].
    exact (transform_listed r j Hr Ht). }
  destruct (if negb (query_of sp =? "") && negb (trim (query_of sp) =? "")
            then _ else _) as [js1|] eqn:Hq; cbn [bind]; [|discriminate].
  assert (H1 : incl js1 js).
  { destruct (negb (query_of sp =? "") && negb (trim (query_of sp) =? "")).
    - exact (filterM_incl _ _ _ Hq).
    - injection Hq as <-. apply incl_refl. }
  rewrite (exact_step (experienceLevel_of sp) "All Levels" experienceLevel).
  rewrite (exact_step (p_category sp) "All Categories" category).
  rewrite (exact_step (p_jobType sp) "All Types" type).
  intros H. injection H as <-. split.
  - apply Forall_forall. intros j Hj.
    rewrite Forall_forall in Hall. apply Hall, H1.
    repeat (apply filter_incl in Hj). exact Hj.
  - intros t Ht Hactive. apply Forall_forall. intros j Hj.
    apply filter_In in Hj. destruct Hj as [_ Hj].
    rewrite Ht in Hj. simpl in Hactive, Hj.
    destruct (t =? ""); [discriminate|].
    destruct (t =? "All Types"); [discriminate|]. exact Hj.
Qed.


(** An active job-type filter other than "Full-time" empties the
    listing. *)
Lemma other_job_type_lists_nothing (sp : searchParams) (f : fetched) (t : string) :
  p_jobType sp = Some t -> t <> "" -> t <> "All Types" -> t <> "Full-time" ->
  data_of (handler sp f) = [].
Proof.
  intros Ht Hne Hns Hnf. unfold GET.
  destruct f as [e|ok status statusText json]; [reflexivity|].
  destruct (negb ok); [reflexivity|].
  destruct json as [upstream|e]; cbn [bind]; [|reflexivity].
  destruct (listJobs Date_now now_iso toISOString sp upstream) as [jobs|e] eqn:Hl;
    [|reflexivity].
  destruct (listJobs_incl sp upstream jobs Hl) as [Hok Htype].
  assert (Hactive : active (Some t) "All Types" = true).
  { simpl. apply String.eqb_neq in Hne, Hns. now rewrite Hne, Hns. }
  specialize (Htype t Ht Hactive). cbn [data_of].
  destruct jobs as [|j jobs]; [reflexivity|]. exfalso.
  inversion Htype as [|? ? Hj _]; subst. inversion Hok as [|? ? Hjok _]; subst.
  apply String.eqb_eq in Hj. destruct Hjok as [_ [Hfull _]]. congruence.
Qed.

(** The route seen from the client. *)
Local Abbreviation network upstream :=
  (fun sp => over_http (handler sp upstream)).

Lemma fetchJobs_empty_listing (MOCK_JOBS : list Job) (upstream : fetched)
    (query location : option string) (filters : option apiFilters) :
  data_of (handler
             (params_of (match query with
                         | Some q => q
                         | None => "software developer"
                         end) filters) upstream) = [] ->
  fetchJobs MOCK_JOBS (network upstream) query location filters = MOCK_JOBS.
Proof.
  intros Hdata. unfold fetchJobs.
  destruct (handler _ upstream) as [data n|e]; simpl in *; [|reflexivity].
  now rewrite Hdata.
Qed.

(** X9: the job-type filter is all or nothing: every listed job being
    "Full-time", a request for any other type ("Part-time", "Contract",
    "Internship", ...) gets an empty listing from the route whatever
    upstream sends, and [fetchJobs] then answers with the mock jobs. *)
Theorem other_job_types_show_mock_jobs (MOCK_JOBS : list Job) (upstream : fetched)
    (query location : option string) (filters : apiFilters) (t : string) :
  a_jobType filters = Some t ->
  t <> "" -> t <> "All Types" -> t <> "Full-time" ->
  (forall sp, p_jobType sp = Some t -> data_of (handler sp upstream) = [])
  /\ fetchJobs MOCK_JOBS (network upstream) query location (Some filters)
     = MOCK_JOBS.
Proof.
  intros Ht Hne Hns Hnf. split.
  - intros sp Hsp. now apply (other_job_type_lists_nothing sp upstream t).
  - apply fetchJobs_empty_listing.
    apply (other_job_type_lists_nothing _ upstream t); try assumption.
    cbn [params_of p_jobType]. rewrite Ht. simpl.
    apply String.eqb_neq in Hne, Hns. now rewrite Hne, Hns.
Qed.




End Runtime.

Lemma other_job_types_show_mock_jobs_witness :
  fetchJobs ClientSamples.mock_jobs
    (fun sp => over_http (GET Samples.clock_ms Samples.clock_iso Samples.date_iso
                            sp ClientSamples.upstream_designer))
    (Some "designer") None
    (Some {| a_experienceLevel := None; a_category := None;
             a_jobType := Some "Contract"; a_remoteOnly := None |})
  = ClientSamples.mock_jobs.
Proof.
  apply (proj2 (other_job_types_show_mock_jobs Samples.clock_ms Samples.clock_iso
                  Samples.date_iso ClientSamples.mock_jobs
                  ClientSamples.upstream_designer (Some "designer") None
                  {| a_experienceLevel := None; a_category := None;
                     a_jobType := Some "Contract"; a_remoteOnly := None |}
                  "Contract" eq_refl
                  ltac:(discriminate) ltac:(discriminate) ltac:(discriminate))).
Defined.


End ListingMore.

(* ===================================================================== *)
(** ** Submitting an application: the form, the client and the route *)
(* ===================================================================== *)

Module SubmitMore.
Import JS.
Import ApplyRoute.
Import ApplySpec.
Import StoreSpec.
Import JSFacts.
Import TextFacts.
Import ValidatorFacts.
Import StoreFacts.
Import StoreMore.
Import Submit.
Import Form.
Import FormSpec.

Local Arguments violated : simpl never.

(** The fields of the object the form sends. *)
Lemma form_fields (job_id : value) (fd : formData) :
  exists props,
    application_of job_id fd = VObj props
    /\ lookup "jobId" props = job_id
    /\ lookup "applicantName" props = VStr (Form.applicantName fd)
    /\ lookup "email" props = VStr (Form.email fd)
    /\ lookup "phone" props = VStr (Form.phone fd)
    /\ lookup "coverLetter" props = VStr (Form.coverLetter fd)
    /\ lookup "linkedIn" props = VStr (Form.linkedIn fd)
    /\ lookup "portfolio" props = VStr (Form.portfolio fd)
    /\ lookup "yearsOfExperience" props = years_value (Form.yearsOfExperience fd).
Proof.
  unfold application_of. eexists. split; [reflexivity|].
  destruct job_id; repeat split; reflexivity.
Qed.

(** The rules of the route on the object the form sends. *)
Lemma form_violated (U : string -> bool) (job_id : value) (fd : formData) :
  violated U (application_of job_id fd) RJobId
  = match job_id with
    | VStr s => s =? ""
    | _ => true
    end
  /\ violated U (application_of job_id fd) RApplicantName
     = (length (trim (Form.applicantName fd)) <? 2)%nat
  /\ violated U (application_of job_id fd) REmail
     = negb (negb (Form.email fd =? "") && matches emailRegex (Form.email fd))
  /\ violated U (application_of job_id fd) RPhone
     = negb (negb (Form.phone fd =? "") && all_chars phone_char (Form.phone fd)
             && (10 <=? length (keep_chars is_digit (Form.phone fd)))%nat)
  /\ violated U (application_of job_id fd) RCoverLetter
     = (length (trim (Form.coverLetter fd)) <? 50)%nat
  /\ violated U (application_of job_id fd) RYearsOfExperience
     = match Form.yearsOfExperience fd with
       | Initial n => (n <? 0)%Z
       | Entered _ => true
       end
  /\ violated U (application_of job_id fd) RLinkedIn
     = nonblank (Form.linkedIn fd) && negb (includes (Form.linkedIn fd) "linkedin.com")
  /\ violated U (application_of job_id fd) RPortfolio
     = nonblank (Form.portfolio fd) && negb (U (Form.portfolio fd)).
Proof.
  destruct (form_fields job_id fd)
    as [props [-> [Hj [Hn [He [Hp [Hc [Hl [Hf Hy]]]]]]]]].
  unfold violated. cbn [JobsSpec.field].
  rewrite Hj, Hn, He, Hp, Hc, Hl, Hf, Hy.
  repeat split. destruct (Form.yearsOfExperience fd); reflexivity.
Qed.

(** A URL the form takes for a LinkedIn one names the site. *)
Lemma linkedInRegex_includes (s : string) :
  matches linkedInRegex s = true -> includes s "linkedin.com" = true.
Proof.
  intros H. apply matches_spec in H. apply includes_spec.
  unfold linkedInRegex in H.
  apply lang_Seq_inv in H. destruct H as [s1 [r1 [-> [_ H]]]].
  apply lang_Seq_inv in H. destruct H as [s2 [r2 [-> [_ H]]]].
  apply lang_Seq_inv in H. destruct H as [s3 [r3 [-> [_ H]]]].
  apply lang_Seq_inv in H. destruct H as [s4 [r4 [-> [_ H]]]].
  apply lang_Seq_inv in H. destruct H as [s5 [r5 [-> [H _]]]].
  apply lang_lit in H. subst s5.
  do 4 apply substring_of_app_r.
  apply substring_of_app_l, substring_of_refl.
Qed.

Lemma blank_of_empty (s : string) : (trim s =? "") = false -> (s =? "") = false.
Proof.
  intros H. apply String.eqb_neq in H. apply String.eqb_neq.
  intros ->. now apply H.
Qed.

Lemma check_none (key : string) (verdict : option string) (rest : FormErrors) :
  (List.length (check key verdict ++ rest) =? 0)%nat = true ->
  verdict = None /\ (List.length rest =? 0)%nat = true.
Proof. destruct verdict; simpl; [discriminate | tauto]. Qed.

Lemma changes_keep_entered (events : list (input * string)) (fd : formData)
    (errors : FormErrors) (text : string) :
  Form.yearsOfExperience fd = Entered text ->
  exists text', Form.yearsOfExperience (fst (changes events fd errors)) = Entered text'.
Proof.
  revert fd errors text.
  induction events as [|[i v] rest IH]; intros fd errors text Hy; simpl.
  - now exists text.
  - destruct i; simpl; (eapply IH; simpl; first [exact Hy | reflexivity]).
Qed.

Lemma changes_enter_years (events : list (input * string)) (fd : formData)
    (errors : FormErrors) (text : string) :
  In (InYearsOfExperience, text) events ->
  exists text', Form.yearsOfExperience (fst (changes events fd errors)) = Entered text'.
Proof.
  revert fd errors.
  induction events as [|[i v] rest IH]; intros fd errors Hin; [contradiction|].
  destruct Hin as [E|Hin].
  - injection E as -> ->. simpl.
    eapply changes_keep_entered. reflexivity.
  - simpl. now apply IH.
Qed.

Section Runtime.

Variable URL_parses : string -> bool.
Variable Date_now : Z.
Variable random36 : string.
Variable now_iso : string.
Variable native_message : exn -> string.

Local Abbreviation post := (POST URL_parses Date_now random36 now_iso).
Local Abbreviation server :=
  (over_route native_message URL_parses Date_now random36 now_iso).
Local Abbreviation broken := (violated URL_parses).

(** What the client makes of each answer of the route. *)
Lemma submit_over_route (applications : list application) (a : value) :
  submitJobApplication native_message (server applications) a
  = match fst (post applications (Ok a)) with
    | Created i _ _ =>
        {| success := VBool true;
           message := VStr "Application submitted successfully";
           applicationId := VStr i |}
    | r => {| success := VBool false;
              message :=
                VStr (if message_of native_message r =? ""
                      then "HTTP error! status: " ++ Z_to_string (status_of r)
                      else message_of native_message r);
              applicationId := VUndef |}
    end.
Proof.
  unfold submitJobApplication, over_route, http_of_reply.
  destruct (fst (post applications (Ok a))) as [i t j| es | |e];
    try reflexivity.
  cbn [bind json_of_reply get lookup String.eqb Ascii.eqb Bool.eqb status_of].
  change (negb (ok_status 500)) with true. cbn iota.
  unfold or_else. cbn [truthy failure_message ToString].
  now destruct (message_of native_message (ServerError e) =? "").
Qed.

Lemma applyForJob_over_route (applications : list application) (a : value) :
  applyForJob native_message (server applications) a
  = success_of (fst (post applications (Ok a))).
Proof.
  unfold applyForJob. rewrite submit_over_route.
  now destruct (fst (post applications (Ok a))).
Qed.

(** A 201 answer means that no rule is violated. *)
Lemma success_no_violation (applications : list application) (body : value) :
  success_of (fst (post applications (Ok body))) = true ->
  exists props a,
    body = VObj props
    /\ (forall r, broken (VObj props) r = false)
    /\ post applications (Ok body)
       = (Created (id a) (submittedAt a) (jobId a), (applications ++ [a])%list)
    /\ stored_ok a.
Proof.
  intros Hs.
  destruct (POST_store URL_parses Date_now random36 now_iso applications (Ok body))
    as [[Hne _]|[_ [a Ha]]].
  - destruct (fst (post applications (Ok body))); try discriminate Hs.
    now elim Hne.
  - pose proof (POST_appends_ok URL_parses _ _ _ _ _ _ Ha) as Hgood.
    destruct (POST_appended URL_parses _ _ _ _ _ _ Ha)
      as [props [v [name [mail [tel [letter
           [E [Hv [Hok [_ [_ [_ [_ [_ [_ [_ Hfst]]]]]]]]]]]]]]]].
    injection E as ->. exists props, a.
    split; [reflexivity | split; [| split]].
    + now apply (valid_no_violation URL_parses props v).
    + destruct (post applications (Ok (VObj props))) as [r st].
      simpl in Ha, Hfst. now subst.
    + exact Hgood.
Qed.

(** The route accepts what the form sends when no rule is violated. *)
Lemma form_accepted (applications : list application) (job_id : value)
    (fd : formData) :
  (forall r, broken (application_of job_id fd) r = false) ->
  success_of (fst (post applications (Ok (application_of job_id fd)))) = true.
Proof.
  intros Hnone.
  destruct (form_fields job_id fd)
    as [props [E [Hj [Hn [He [Hp [Hc [Hl [Hf Hy]]]]]]]]].
  rewrite E in *.
  unfold POST. cbn [bind]. rewrite validate_object.
  unfold validator_crashes, email_crashes, phone_crashes.
  cbn [JobsSpec.field]. rewrite He, Hp.
  cbn [truthy is_string negb andb TextSpec.printable].
  rewrite !andb_false_r. cbn [andb orb].
  cbn [all_rules filter]. rewrite !Hnone. cbn [List.length Nat.eqb bind valid negb].
  cbn [get bind]. rewrite Hn, He, Hp, Hc, Hl, Hf.
  cbn [trim_of optional_trim bind]. reflexivity.
Qed.

(** X11: the client reports success exactly when the route stored the
    application: [applyForJob] is true only if one validated record was
    appended, whose [id] is the [applicationId] that [submitJobApplication]
    returns, and false only if the store is what it was and no
    [applicationId] is returned. *)
Theorem success_means_stored (applications : list application) (body : value) :
  (applyForJob native_message (server applications) body = true ->
   exists a,
     snd (post applications (Ok body)) = (applications ++ [a])%list
     /\ stored_ok a
     /\ applicationId (submitJobApplication native_message (server applications) body)
        = VStr (id a))
  /\ (applyForJob native_message (server applications) body = false ->
      snd (post applications (Ok body)) = applications
      /\ applicationId (submitJobApplication native_message (server applications) body)
         = VUndef).
Proof.
  rewrite applyForJob_over_route, submit_over_route. split.
  - intros Hs. destruct (success_no_violation applications body Hs)
      as [props [a [-> [_ [Hpost Hgood]]]]].
    exists a. rewrite Hpost. split; [reflexivity | split; [exact Hgood | reflexivity]].
  - intros Hs.
    destruct (POST_store URL_parses Date_now random36 now_iso applications (Ok body))
      as [[_ Hsame]|[H201 _]].
    + split; [exact Hsame|].
      destruct (fst (post applications (Ok body))); [discriminate Hs | | |];
        reflexivity.
    + destruct (fst (post applications (Ok body))); try discriminate H201.
      discriminate Hs.
Qed.

Section Messages.

Variable REQUIRED : string.
Variable MIN_LENGTH : Z -> string.
Variable MAX_LENGTH : Z -> string.
Variable INVALID_EMAIL : string.
Variable INVALID_PHONE : string.
Variable MIN_VALUE : Z -> string.
Variable text_negative : string -> bool.

Local Abbreviation validate_form :=
  (validateForm REQUIRED MIN_LENGTH MAX_LENGTH INVALID_EMAIL INVALID_PHONE
     MIN_VALUE text_negative).
Local Abbreviation submit :=
  (handleSubmit REQUIRED MIN_LENGTH MAX_LENGTH INVALID_EMAIL INVALID_PHONE
     MIN_VALUE text_negative).

(** What a form without errors has been checked for. *)
Lemma validateForm_passed (fd : formData) :
  snd (validate_form fd) = true ->
  (Form.email fd =? "") = false
  /\ matches emailRegex (Form.email fd) = true
  /\ matches phoneRegex (Form.phone fd) = true
  /\ match Form.yearsOfExperience fd with
     | Initial n => (n <? 0)%Z = false
     | Entered text => text_negative text = false
     end
  /\ (Form.linkedIn fd = ""
      \/ matches linkedInRegex (Form.linkedIn fd) = true).
Proof.
  unfold validateForm. cbn [snd]. intros H.
  apply check_none in H. destruct H as [_ H].
  apply check_none in H. destruct H as [He H].
  apply check_none in H. destruct H as [Hp H].
  apply check_none in H. destruct H as [_ H].
  apply check_none in H. destruct H as [Hy H].
  apply check_none in H. destruct H as [Hl _].
  repeat split.
  - destruct (trim (Form.email fd) =? "") eqn:E; [discriminate He|].
    now apply blank_of_empty.
  - destruct (trim (Form.email fd) =? ""); [discriminate He|].
    destruct (matches emailRegex (Form.email fd)); [reflexivity | discriminate He].
  - destruct (trim (Form.phone fd) =? ""); [discriminate Hp|].
    destruct (matches phoneRegex (Form.phone fd)); [reflexivity | discriminate Hp].
  - destruct (Form.yearsOfExperience fd) as [n|text].
    + destruct (n <? 0)%Z; [discriminate Hy | reflexivity].
    + destruct (text_negative text); [discriminate Hy | reflexivity].
  - destruct (Form.linkedIn fd =? "") eqn:E.
    + left. now apply String.eqb_eq.
    + right. cbn [negb andb] in Hl.
      destruct (matches linkedInRegex (Form.linkedIn fd));
        [reflexivity | discriminate Hl].
Qed.

Lemma handleSubmit_succeeds (job_id : value) (fd : formData)
    (apply : value -> bool) :
  submit job_id fd apply = Succeeded
  <-> snd (validate_form fd) = true /\ apply (application_of job_id fd) = true.
Proof.
  unfold handleSubmit.
  destruct (validate_form fd) as [newErrors ok]. cbn [snd].
  destruct ok; cbn [negb].
  - destruct (apply (application_of job_id fd)); split;
      first [reflexivity | discriminate | tauto | intros [_ H]; discriminate H].
  - split; [discriminate | intros [H _]; discriminate H].
Qed.

(** X12: a submission succeeds exactly when the form has no error and the
    route's further requirements hold: the job's [id] is a non-empty
    string, the years input was never edited, the name has at least 2
    characters and the cover letter at least 50 once trimmed, the phone
    has at least 10 digits, and the portfolio is blank or parses as a
    URL.  The email and LinkedIn checks of the form imply those of the
    route. *)
Theorem submission_succeeds_iff (applications : list application)
    (job_id : value) (fd : formData) :
  submit job_id fd (applyForJob native_message (server applications)) = Succeeded
  <-> snd (validate_form fd) = true /\ server_only URL_parses job_id fd.
Proof.
  rewrite handleSubmit_succeeds, applyForJob_over_route.
  destruct (form_violated URL_parses job_id fd)
    as [Vj [Vn [Ve [Vp [Vc [Vy [Vl Vf]]]]]]].
  split; intros [Hform H]; (split; [exact Hform|]).
  - destruct (form_fields job_id fd) as [props0 [E0 _]].
    destruct (success_no_violation applications _ H)
      as [props [a [E [Hnone _]]]].
    rewrite <- E in Hnone.
    pose proof (Hnone RJobId) as Rj. pose proof (Hnone RApplicantName) as Rn.
    pose proof (Hnone RPhone) as Rp. pose proof (Hnone RCoverLetter) as Rc.
    pose proof (Hnone RYearsOfExperience) as Ry.
    pose proof (Hnone RPortfolio) as Rf.
    rewrite Vj in Rj. rewrite Vn in Rn. rewrite Vp in Rp. rewrite Vc in Rc.
    rewrite Vy in Ry. rewrite Vf in Rf.
    unfold server_only. repeat split.
    + destruct job_id as [| | | |j| |]; try discriminate Rj.
      exists j. split; [reflexivity|]. now apply String.eqb_neq.
    + destruct (Form.yearsOfExperience fd) as [n|text]; [|discriminate Ry].
      now exists n.
    + now apply Nat.ltb_ge.
    + apply negb_false_iff in Rp. rewrite !andb_true_iff in Rp.
      now apply Nat.leb_le.
    + now apply Nat.ltb_ge.
    + unfold nonblank in Rf. apply andb_false_iff in Rf.
      destruct Rf as [Rf|Rf].
      * left. apply negb_false_iff in Rf. now apply String.eqb_eq.
      * right. now apply negb_false_iff.
  - destruct H as [[j [-> Hj]] [[n Hn] [Hname [Hdigits [Hcover Hport]]]]].
    destruct (validateForm_passed fd Hform) as [Hmail [Hre [Hph [Hy Hli]]]].
    apply form_accepted. intros r.
    destruct r.
    + rewrite Vj. now apply String.eqb_neq.
    + rewrite Vn. now apply Nat.ltb_ge.
    + rewrite Ve, Hmail, Hre. reflexivity.
    + rewrite Vp. unfold phoneRegex in Hph. rewrite matches_class_plus in Hph.
      apply andb_true_iff in Hph. destruct Hph as [Hne Hall].
      rewrite Hne, Hall. cbn [andb].
      apply Nat.leb_le in Hdigits. now rewrite Hdigits.
    + rewrite Vc. now apply Nat.ltb_ge.
    + rewrite Vy. rewrite Hn in *. exact Hy.
    + rewrite Vl. unfold nonblank. destruct Hli as [->|Hli]; [reflexivity|].
      rewrite (linkedInRegex_includes _ Hli). apply andb_false_r.
    + rewrite Vf. unfold nonblank. destruct Hport as [-> | ->];
        [reflexivity | apply andb_false_r].
Qed.

(** X13: once the years input has been edited the application cannot be
    submitted: [handleChange] stores the text of the input, the route
    wants a number, so after any run of change events that touches the
    years input [handleSubmit] never succeeds and the store is not
    changed, whatever else the form holds. *)
Theorem edited_years_block_submission (events : list (input * string))
    (text : string) (fd : formData) (errors : FormErrors)
    (applications : list application) (job_id : value) :
  In (InYearsOfExperience, text) events ->
  submit job_id (fst (changes events fd errors))
    (applyForJob native_message (server applications)) <> Succeeded
  /\ snd (post applications
            (Ok (application_of job_id (fst (changes events fd errors)))))
     = applications.
Proof.
  intros Hin.
  destruct (changes_enter_years events fd errors text Hin) as [text' Hy].
  set (fd' := fst (changes events fd errors)) in *.
  assert (Hno : success_of (fst (post applications (Ok (application_of job_id fd'))))
                = false).
  { destruct (success_of _) eqn:Hs; [|reflexivity].
    destruct (success_no_violation applications _ Hs)
      as [props [a [E [Hnone _]]]].
    rewrite <- E in Hnone. specialize (Hnone RYearsOfExperience).
    destruct (form_violated URL_parses job_id fd') as [_ [_ [_ [_ [_ [Vy _]]]]]].
    rewrite Vy, Hy in Hnone. discriminate Hnone. }
  split.
  - rewrite handleSubmit_succeeds, applyForJob_over_route, Hno.
    intros [_ H]. discriminate H.
  - destruct (POST_store URL_parses Date_now random36 now_iso applications
                (Ok (application_of job_id fd'))) as [[_ Hsame]|[H201 _]];
      [exact Hsame|].
    destruct (fst (post applications (Ok (application_of job_id fd'))));
      try discriminate H201. discriminate Hno.
Qed.

End Messages.

End Runtime.

Lemma edited_years_block_submission_witness :
  handleSubmit FormSamples.required FormSamples.min_length FormSamples.max_length
    FormSamples.invalid_email FormSamples.invalid_phone FormSamples.min_value
    FormSamples.negative_text (VStr "j1") FormSamples.filled_with_years
    (applyForJob ApplySamples.engine_message
       (over_route ApplySamples.engine_message ApplySamples.url_parses
          Samples.clock_ms ApplySamples.random_draw Samples.clock_iso []))
  <> Succeeded
  /\ snd (POST ApplySamples.url_parses Samples.clock_ms ApplySamples.random_draw
            Samples.clock_iso []
            (Ok (application_of (VStr "j1") FormSamples.filled_with_years)))
     = [].
Proof.
  exact (edited_years_block_submission ApplySamples.url_parses
           Samples.clock_ms ApplySamples.random_draw Samples.clock_iso
           ApplySamples.engine_message
           FormSamples.required FormSamples.min_length FormSamples.max_length
           FormSamples.invalid_email FormSamples.invalid_phone
           FormSamples.min_value FormSamples.negative_text
           [(InYearsOfExperience, "3")] "3" FormSamples.filled [] []
           (VStr "j1") (or_introl eq_refl)).
Defined.

End SubmitMore.

(* ===================================================================== *)
(** ** The job card: dates and salaries *)
(* ===================================================================== *)

Module CardMore.
Import JS.
Import JobsRoute.
Import JobsSpec.
Import ListingSpec.
Import Card.

(** [Math.ceil(n / d)] is the number of the interval [n] falls in. *)
Lemma ceil_div_interval (n d k : Z) :
  (0 < d)%Z -> ((k - 1) * d < n <= k * d)%Z -> ceil_div n d = k.
Proof.
  intros Hd [Hlo Hhi]. unfold ceil_div.
  pose proof (Z.div_mod (n + d - 1) d ltac:(lia)) as E.
  pose proof (Z.mod_pos_bound (n + d - 1) d Hd) as B.
  set (q := ((n + d - 1) / d)%Z) in *.
  set (r := ((n + d - 1) mod d)%Z) in *.
  assert (Hq : (q < k + 1)%Z) by nia.
  assert (Hk : (k < q + 1)%Z) by nia.
  lia.
Qed.

Lemma ceil_div_beyond (n d k : Z) :
  (0 < d)%Z -> (k * d < n)%Z -> (k < ceil_div n d)%Z.
Proof.
  intros Hd Hlo. unfold ceil_div.
  pose proof (Z.div_mod (n + d - 1) d ltac:(lia)) as E.
  pose proof (Z.mod_pos_bound (n + d - 1) d Hd) as B.
  set (q := ((n + d - 1) / d)%Z) in *.
  set (r := ((n + d - 1) mod d)%Z) in *.
  nia.
Qed.

Lemma day_ms_pos : (0 < day_ms)%Z.
Proof. reflexivity. Qed.


Section Runtime.

Variable Date_parse : string -> option Z.
Variable now_ms : Z.
Variable toLocaleDateString : option Z -> string.
Variable toLocaleString : value -> string.

Local Abbreviation format_date := (formatDate Date_parse now_ms toLocaleDateString).

(** X14: the label of a posting date depends only on how far the date is
    from now, in either direction: "Today" when the two instants are the
    same millisecond, "Yesterday" for any other distance up to one day,
    "<n> days ago" for a distance in the n-th day with n from 2 to 6,
    "<n div 7> weeks ago" for n from 7 to 29, and the localized date
    beyond 29 days. *)
Theorem formatDate_labels (dateString : string) (date : Z) :
  Date_parse dateString = Some date ->
  let age := Z.abs (now_ms - date) in
  (age = 0%Z -> format_date dateString = "Today")
  /\ ((0 < age <= day_ms)%Z -> format_date dateString = "Yesterday")
  /\ (forall n, (2 <= n < 7)%Z -> ((n - 1) * day_ms < age <= n * day_ms)%Z ->
                format_date dateString = Z_to_string n ++ " days ago")
  /\ (forall n, (7 <= n < 30)%Z -> ((n - 1) * day_ms < age <= n * day_ms)%Z ->
                format_date dateString = Z_to_string (n / 7) ++ " weeks ago")
  /\ ((29 * day_ms < age)%Z ->
      format_date dateString = toLocaleDateString (Some date)).
Proof.
  intros Hd age. unfold formatDate. rewrite Hd. fold age.
  pose proof day_ms_pos as Hpos.
  repeat split.
  - intros ->. reflexivity.
  - intros H. rewrite (ceil_div_interval age day_ms 1 Hpos) by lia. reflexivity.
  - intros n Hn H. rewrite (ceil_div_interval age day_ms n Hpos H).
    assert (E0 : (n =? 0)%Z = false) by (apply Z.eqb_neq; lia).
    assert (E1 : (n =? 1)%Z = false) by (apply Z.eqb_neq; lia).
    assert (E7 : (n <? 7)%Z = true) by (apply Z.ltb_lt; lia).
    now rewrite E0, E1, E7.
  - intros n Hn H. rewrite (ceil_div_interval age day_ms n Hpos H).
    assert (E0 : (n =? 0)%Z = false) by (apply Z.eqb_neq; lia).
    assert (E1 : (n =? 1)%Z = false) by (apply Z.eqb_neq; lia).
    assert (E7 : (n <? 7)%Z = false) by (apply Z.ltb_ge; lia).
    assert (E30 : (n <? 30)%Z = true) by (apply Z.ltb_lt; lia).
    now rewrite E0, E1, E7, E30.
  - intros H. pose proof (ceil_div_beyond age day_ms 29 Hpos H) as Hq.
    set (q := ceil_div age day_ms) in *.
    assert (E0 : (q =? 0)%Z = false) by (apply Z.eqb_neq; lia).
    assert (E1 : (q =? 1)%Z = false) by (apply Z.eqb_neq; lia).
    assert (E7 : (q <? 7)%Z = false) by (apply Z.ltb_ge; lia).
    assert (E30 : (q <? 30)%Z = false) by (apply Z.ltb_ge; lia).
    now rewrite E0, E1, E7, E30.
Qed.


End Runtime.

Lemma formatDate_labels_witness :
  formatDate FormSamples.parse_ms Samples.clock_ms FormSamples.locale_date
    "one-minute-ago" = "Yesterday"
  /\ formatDate FormSamples.parse_ms Samples.clock_ms FormSamples.locale_date
       "ten-days-ago" = "1 weeks ago".
Proof.
  split.
  - apply (proj1 (proj2 (formatDate_labels FormSamples.parse_ms Samples.clock_ms
                           FormSamples.locale_date "one-minute-ago" _ eq_refl))).
    vm_compute. split; [reflexivity | discriminate].
  - apply (proj1 (proj2 (proj2 (proj2
             (formatDate_labels FormSamples.parse_ms Samples.clock_ms
                FormSamples.locale_date "ten-days-ago" _ eq_refl)))) 10%Z).
    + lia.
    + vm_compute. split; [reflexivity | discriminate].
Defined.


End CardMore.

(* ===================================================================== *)
(** ** The provider over a whole session *)
(* ===================================================================== *)

Module ProviderMore.
Import JS.
Import Client.
Import ProviderSpec.
Import Provider.

Lemma rerun_in_step (fs : FilterState) (c : controller) : in_step (rerun_effect fs c).
Proof. unfold in_step. simpl. split; [reflexivity | lia]. Qed.

Lemma elapse_in_step (ms : Z) (c : controller) :
  (0 <= ms)%Z -> in_step c -> in_step (elapse ms c).
Proof.
  intros Hms. unfold in_step, elapse.
  destruct (c_pending c) as [t|].
  - intros [Hc Hd]. destruct (due t <=? c_now c + ms)%Z; cbn -[Z.add debounce_ms].
    + rewrite <- Hc. unfold last_started. cbn [c_started].
      rewrite map_app. apply last_last.
    + split; [exact Hc | lia].
  - intros H. exact H.
Qed.

(** After a quiet period of the delay or more nothing is pending. *)
Lemma elapse_settles (quiet : Z) (c : controller) :
  (debounce_ms <= quiet)%Z -> in_step c -> c_pending (elapse quiet c) = None.
Proof.
  intros Hq. unfold in_step, elapse.
  destruct (c_pending c) as [t|]; [|reflexivity].
  intros [_ Hd].
  assert (E : (due t <=? c_now c + quiet)%Z = true) by (apply Z.leb_le; lia).
  now rewrite E.
Qed.

Lemma elapse_filters (ms : Z) (c : controller) : c_filters (elapse ms c) = c_filters c.
Proof.
  unfold elapse. destruct (c_pending c) as [t|]; [|reflexivity].
  now destruct (due t <=? c_now c + ms)%Z.
Qed.

Section Defaults.

Variable DEFAULT_FILTERS : FilterState.

Local Abbreviation run := (session DEFAULT_FILTERS).
Local Abbreviation begin := (start DEFAULT_FILTERS).

(** The filters are in step with the timer, and the state flagged as the
    default object holds the default filters. *)
Local Abbreviation sound p :=
  (in_step (ctl p) /\ (is_default p = true -> c_filters (ctl p) = DEFAULT_FILTERS)).

Lemma start_sound (now : Z) : sound (begin now).
Proof. split; [apply rerun_in_step | reflexivity]. Qed.

Lemma act_sound (a : action) (p : provider) : sound p -> sound (act DEFAULT_FILTERS a p).
Proof.
  intros [Hs Hd]. destruct a as [u|]; simpl.
  - split; [apply rerun_in_step | discriminate].
  - unfold resetFilters. destruct (is_default p) eqn:E.
    + split; [exact Hs | intros _; now apply Hd].
    + split; [apply rerun_in_step | reflexivity].
Qed.

Lemma wait_sound (ms : Z) (p : provider) : (0 <= ms)%Z -> sound p -> sound (wait ms p).
Proof.
  intros Hms [Hs Hd]. split.
  - now apply elapse_in_step.
  - cbn [wait ctl is_default]. rewrite elapse_filters. exact Hd.
Qed.

Lemma session_sound (steps : list (action * Z)) (p : provider) :
  Forall (fun step => (0 <= snd step)%Z) steps -> sound p -> sound (run steps p).
Proof.
  intros H. revert p.
  induction H as [|[a pause] rest Hp _ IH]; intros p Hsound; [exact Hsound|].
  simpl. apply IH. apply wait_sound; [exact Hp|]. now apply act_sound.
Qed.

Lemma session_app (xs ys : list (action * Z)) (p : provider) :
  run (xs ++ ys) p = run ys (run xs p).
Proof.
  revert p. induction xs as [|[a pause] xs IH]; intros p; [reflexivity|].
  simpl. apply IH.
Qed.

Lemma reset_filters (p : provider) :
  sound p -> c_filters (ctl (resetFilters DEFAULT_FILTERS p)) = DEFAULT_FILTERS.
Proof.
  intros [_ Hd]. unfold resetFilters.
  destruct (is_default p); [now apply Hd | reflexivity].
Qed.

(** X16: whatever the user did before, once 300 ms have passed since the last
    action no timer is pending and the fetch started last is the one for
    the filters now in the state; after a reset these are the default
    filters.  The session is any run of [updateFilter] and [resetFilters]
    calls from the first render, each followed by a pause. *)
Theorem session_settles_on_current_filters (steps : list (action * Z))
    (last_action : action) (quiet now : Z) :
  Forall (fun step => (0 <= snd step)%Z) steps ->
  (debounce_ms <= quiet)%Z ->
  let p := run (steps ++ [(last_action, quiet)]) (begin now) in
  c_pending (ctl p) = None
  /\ last_started (ctl p) = Some (c_filters (ctl p))
  /\ (last_action = Reset -> c_filters (ctl p) = DEFAULT_FILTERS)
  /\ (forall u, last_action = Update u ->
        c_filters (ctl p) = apply_update u (c_filters (ctl (run steps (begin now))))).
Proof.
  intros Hsteps Hquiet p.
  pose proof (session_sound steps (begin now) Hsteps (start_sound now)) as Hb.
  assert (Ha := act_sound last_action _ Hb).
  assert (Hq : (0 <= quiet)%Z) by (unfold debounce_ms in Hquiet; lia).
  assert (Hp : p = wait quiet (act DEFAULT_FILTERS last_action (run steps (begin now))))
    by (unfold p; now rewrite session_app).
  assert (Hnone : c_pending (ctl p) = None).
  { rewrite Hp. cbn [wait ctl]. apply elapse_settles; [exact Hquiet | apply Ha]. }
  assert (Hstep : in_step (ctl p)).
  { rewrite Hp. now apply (wait_sound quiet _ Hq Ha). }
  split; [exact Hnone|]. split.
  - unfold in_step in Hstep. now rewrite Hnone in Hstep.
  - split.
    + intros ->. rewrite Hp. cbn [wait ctl act]. rewrite elapse_filters.
      now apply reset_filters.
    + intros u ->. rewrite Hp. cbn [wait ctl act]. now rewrite elapse_filters.
Qed.

End Defaults.

(** X17: any burst of [updateFilter] calls less than 300 ms apart, closed by
    one more call and a quiet period of at least 300 ms, starts exactly
    one fetch, on the filters of all the calls applied in order. *)
Theorem burst_starts_one_fetch (calls : list (update * Z)) (u : update) (quiet : Z)
    (c : controller) :
  Forall (fun call => (0 <= snd call < debounce_ms)%Z) calls ->
  (debounce_ms <= quiet)%Z ->
  c_started (elapse quiet (updateFilter u (burst calls c)))
  = (c_started c ++ [apply_update u (filters_after calls (c_filters c))])%list
  /\ c_pending (elapse quiet (updateFilter u (burst calls c))) = None
  /\ c_filters (elapse quiet (updateFilter u (burst calls c)))
     = apply_update u (filters_after calls (c_filters c)).
Proof.
  intros Hcalls Hquiet.
  destruct (ClientFacts.burst_starts_nothing calls c Hcalls) as [Hs Hf].
  cbn -[Z.add Z.leb apply_update debounce_ms].
  assert (E : (c_now (burst calls c) + debounce_ms
               <=? c_now (burst calls c) + quiet)%Z = true)
    by (apply Z.leb_le; lia).
  rewrite E. cbn [c_started c_pending c_filters]. now rewrite Hs, Hf.
Qed.

Lemma session_settles_on_current_filters_witness :
  let p := session ClientSamples.default_filters
             [(Update (SetSearchQuery "r"), 100%Z); (Reset, 50%Z);
              (Update (SetSearchQuery "rust"), 300%Z)]
             (start ClientSamples.default_filters 0) in
  c_pending (ctl p) = None
  /\ last_started (ctl p) = Some (c_filters (ctl p)).
Proof.
  assert (Hsteps : Forall (fun step : action * Z => (0 <= snd step)%Z)
                     [(Update (SetSearchQuery "r"), 100%Z); (Reset, 50%Z)])
    by (repeat constructor; simpl; lia).
  assert (Hquiet : (debounce_ms <= 300)%Z) by (unfold debounce_ms; lia).
  pose proof (session_settles_on_current_filters ClientSamples.default_filters
                [(Update (SetSearchQuery "r"), 100%Z); (Reset, 50%Z)]
                (Update (SetSearchQuery "rust")) 300 0 Hsteps Hquiet) as H.
  cbv zeta in H. destruct H as [H1 [H2 _]]. split; [exact H1 | exact H2].
Defined.

Lemma burst_starts_one_fetch_witness :
  c_started
    (elapse 300
       (updateFilter (SetSearchQuery "rus")
          (burst [(SetSearchQuery "r", 100%Z); (SetSearchQuery "ru", 120%Z)]
             (elapse 1000 (mount ClientSamples.default_filters 0)))))
  = [ClientSamples.default_filters;
     apply_update (SetSearchQuery "rus") ClientSamples.default_filters].
Proof.
  assert (Hcalls : Forall (fun call : update * Z => (0 <= snd call < debounce_ms)%Z)
                     [(SetSearchQuery "r", 100%Z); (SetSearchQuery "ru", 120%Z)])
    by (repeat constructor; unfold debounce_ms; simpl; lia).
  assert (Hquiet : (debounce_ms <= 300)%Z) by (unfold debounce_ms; lia).
  exact (proj1 (burst_starts_one_fetch
                  [(SetSearchQuery "r", 100%Z); (SetSearchQuery "ru", 120%Z)]
                  (SetSearchQuery "rus") 300
                  (elapse 1000 (mount ClientSamples.default_filters 0))
                  Hcalls Hquiet)).
Defined.

End ProviderMore.
